(** * testsnake: snake_case checking of sub-test names

    A shallow embedding of the analyzer of [src/testsnake.go] and of its
    earlier variant [src/unnamed/part_001], with the properties of the
    convention validator, of the value resolver and of the call-site
    matcher.

    Go strings are byte sequences: they are embedded as [string], one
    [ascii] per byte.  Source positions ([token.Pos]) are [Z].  The syntax
    tree is the part of [go/ast] the analyzer looks at; the type checker's
    answers ([pass.TypesInfo]) are fields of the [Pass] record. *)

From Stdlib Require Import ZArith List String Ascii Bool Lia Permutation.
From stdpp Require Import gmap strings.
Import ListNotations.

Local Open Scope string_scope.
Local Open Scope list_scope.
Local Open Scope Z_scope.

Set Warnings "-register-all".

(** ** Bytes and runes *)

Module Utf8.

(** The numeric value of a byte of a Go string. *)
Definition byte_of (c : ascii) : Z := Z.of_N (N_of_ascii c).

Definition bytes (s : string) : list Z := map byte_of (list_ascii_of_string s).

Definition RuneError : Z := 0xFFFD.
Definition maskx : Z := 0x3F.
Definition mask2 : Z := 0x1F.
Definition mask3 : Z := 0x0F.
Definition mask4 : Z := 0x07.
Definition locb : Z := 0x80.
Definition hicb : Z := 0xBF.

(** Entries of the table [first] of unicode/utf8: the low three bits are
    the width of the encoding, the high four bits index [acceptRanges]. *)
Definition xx : Z := 0xF1.
Definition as_ : Z := 0xF0.
Definition s1 : Z := 0x02.
Definition s2 : Z := 0x13.
Definition s3 : Z := 0x03.
Definition s4 : Z := 0x23.
Definition s5 : Z := 0x34.
Definition s6 : Z := 0x04.
Definition s7 : Z := 0x44.

Definition first (b : Z) : Z :=
  if b <? 0x80 then as_
  else if b <? 0xC2 then xx
  else if b <? 0xE0 then s1
  else if b =? 0xE0 then s2
  else if b <? 0xED then s3
  else if b =? 0xED then s4
  else if b <? 0xF0 then s3
  else if b =? 0xF0 then s5
  else if b <? 0xF4 then s6
  else if b =? 0xF4 then s7
  else xx.

Definition acceptRanges (i : Z) : Z * Z :=
  if i =? 1 then (0xA0, hicb)
  else if i =? 2 then (locb, 0x9F)
  else if i =? 3 then (0x90, hicb)
  else if i =? 4 then (locb, 0x8F)
  else (locb, hicb).

(** The runes a [for _, ch := range s] loop yields: [DecodeRuneInString]
    applied until the string is used up.  An ill-formed byte yields
    [RuneError] and advances by one byte. *)
Fixpoint decode (s : list Z) : list Z :=
  match s with
  | [] => []
  | b0 :: t0 =>
    let x := first b0 in
    if as_ <=? x then
      (if x =? xx then RuneError else b0) :: decode t0
    else
      let sz := Z.land x 7 in
      let '(lo, hi) := acceptRanges (Z.shiftr x 4) in
      match t0 with
      | [] => RuneError :: decode t0
      | b1 :: t1 =>
        if (b1 <? lo) || (hi <? b1) then RuneError :: decode t0
        else if sz <=? 2 then
          Z.lor (Z.shiftl (Z.land b0 mask2) 6) (Z.land b1 maskx) :: decode t1
        else
          match t1 with
          | [] => RuneError :: decode t0
          | b2 :: t2 =>
            if (b2 <? locb) || (hicb <? b2) then RuneError :: decode t0
            else if sz <=? 3 then
              Z.lor (Z.lor (Z.shiftl (Z.land b0 mask3) 12)
                           (Z.shiftl (Z.land b1 maskx) 6))
                    (Z.land b2 maskx) :: decode t2
            else
              match t2 with
              | [] => RuneError :: decode t0
              | b3 :: t3 =>
                if (b3 <? locb) || (hicb <? b3) then RuneError :: decode t0
                else
                  Z.lor (Z.lor (Z.lor (Z.shiftl (Z.land b0 mask4) 18)
                                      (Z.shiftl (Z.land b1 maskx) 12))
                               (Z.shiftl (Z.land b2 maskx) 6))
                        (Z.land b3 maskx) :: decode t3
              end
          end
      end
  end.

Definition runes (s : string) : list Z := decode (bytes s).

End Utf8.

(** ** unicode.IsUpper *)

(** The range table [unicode.Upper] beyond Latin-1 belongs to the Go
  standard library; the analyzer is embedded over any such table. *)
Class UnicodeTables := { Upper_excluding_Latin1 : Z -> bool }.

Definition MaxLatin1 : Z := 0xFF.

(** [unicode.IsUpper]: up to [MaxLatin1] the answer is read off the
  [properties] table, whose upper-case letters are A-Z, U+00C0-U+00D6 and
  U+00D8-U+00DE. *)
Definition IsUpper `{UnicodeTables} (r : Z) : bool :=
if r <=? MaxLatin1 then
  ((0x41 <=? r) && (r <=? 0x5A))
  || ((0xC0 <=? r) && (r <=? 0xD6))
  || ((0xD8 <=? r) && (r <=? 0xDE))
else Upper_excluding_Latin1 r.

(** An excerpt of [unicode.Upper] (Greek and Cyrillic capitals), used where
  a concrete table is needed. *)
Definition upper_excerpt : UnicodeTables :=
{| Upper_excluding_Latin1 := fun r =>
     ((0x391 <=? r) && (r <=? 0x3A1)) || ((0x3A3 <=? r) && (r <=? 0x3AB))
     || ((0x410 <=? r) && (r <=? 0x42F)) |}.

(** ** Regular expressions *)

Module Regexp.

(** Regular expressions over runes.  A character class is a list of
    inclusive ranges. *)
Inductive regex : Type :=
| Fail : regex
| Eps : regex
| Class : list (Z * Z) -> regex
| Cat : regex -> regex -> regex
| Alt : regex -> regex -> regex
| Star : regex -> regex
| Plus : regex -> regex.

Definition in_class (cl : list (Z * Z)) (c : Z) : bool :=
  existsb (fun '(lo, hi) => (lo <=? c) && (c <=? hi)) cl.

Fixpoint nullable (r : regex) : bool :=
  match r with
  | Fail => false
  | Eps => true
  | Class _ => false
  | Cat a b => nullable a && nullable b
  | Alt a b => nullable a || nullable b
  | Star _ => true
  | Plus a => nullable a
  end.

Fixpoint deriv (c : Z) (r : regex) : regex :=
  match r with
  | Fail => Fail
  | Eps => Fail
  | Class cl => if in_class cl c then Eps else Fail
  | Cat a b =>
    if nullable a then Alt (Cat (deriv c a) b) (deriv c b)
    else Cat (deriv c a) b
  | Alt a b => Alt (deriv c a) (deriv c b)
  | Star a => Cat (deriv c a) (Star a)
  | Plus a => Cat (deriv c a) (Star a)
  end.

(** Whole-text matching. *)
Fixpoint matches (r : regex) (w : list Z) : bool :=
  match w with
  | [] => nullable r
  | c :: w' => matches (deriv c r) w'
  end.

(** [MatchString] for a pattern of the form [^body$] (no multi-line
    flag): the body has to match the whole text, read rune by rune. *)
Definition MatchString (body : regex) (s : string) : bool :=
  matches body (Utf8.runes s).

(** The language of a regular expression. *)
Inductive Lang : regex -> list Z -> Prop :=
| LEps : Lang Eps []
| LClass cl c : in_class cl c = true -> Lang (Class cl) [c]
| LCat a b u v : Lang a u -> Lang b v -> Lang (Cat a b) (u ++ v)
| LAltL a b u : Lang a u -> Lang (Alt a b) u
| LAltR a b u : Lang b u -> Lang (Alt a b) u
| LStarNil a : Lang (Star a) []
| LStarCons a u v : Lang a u -> Lang (Star a) v -> Lang (Star a) (u ++ v)
| LPlus a u v : Lang a u -> Lang (Star a) v -> Lang (Plus a) (u ++ v).

End Regexp.

(** ** The strings package *)

Module Strings.

Fixpoint trimLeftByte (s : string) (c : ascii) : string :=
  match s with
  | EmptyString => EmptyString
  | String a t => if Ascii.eqb a c then trimLeftByte t c else s
  end.

Fixpoint trimRightByte (s : string) (c : ascii) : string :=
  match s with
  | EmptyString => EmptyString
  | String a t =>
    match trimRightByte t c with
    | EmptyString => if Ascii.eqb a c then EmptyString else String a EmptyString
    | t' => String a t'
    end
  end.

(** [strings.Trim(s, cutset)] for a cutset of one ASCII byte. *)
Definition Trim (s : string) (c : ascii) : string :=
  trimLeftByte (trimRightByte s c) c.

(** [strings.HasSuffix]. *)
Definition HasSuffix (s suffix : string) : bool :=
  (String.length suffix <=? String.length s)%nat
  && String.eqb
       (substring (String.length s - String.length suffix) (String.length suffix) s)
       suffix.

End Strings.

(** The cutset of every [strings.Trim] call of the analyzer. *)
Definition quote : ascii := "034"%char.

(** The source text of the interpreted string literal with the given
    content (a content without escapes). *)
Definition quoted (s : string) : string := String quote (s ++ String quote "").

(** ** Syntax trees *)

Module Ast.

Record ident := { NamePos : Z; Name : string }.

(** The nodes of [go/ast] the analyzer distinguishes.  Every other kind
    of node (files, declarations, blocks, function literals, ...) is an
    [Other] node: its extent and its children in the order [ast.Walk]
    visits them. *)
Inductive node : Type :=
| Ident (id : ident)
| BasicLit (ValuePos : Z) (Value : string)
| SelectorExpr (X : node) (Sel : ident)
| CallExpr (Fun : node) (Args : list node) (Rparen : Z)
| CompositeLit (Typ : option node) (Lbrace : Z) (Elts : list node) (Rbrace : Z)
| KeyValueExpr (Key Value : node)
| AssignStmt (Lhs Rhs : list node)
| RangeStmt (For : Z) (Key Value : option node) (X Body : node)
| ValueSpec (Names : list ident) (Typ : option node) (Values : list node)
| Other (From To : Z) (children : list node).

Definition NoPos : Z := 0.

Definition ident_End (id : ident) : Z := NamePos id + Z.of_nat (String.length (Name id)).

(** [n.Pos()].  An assignment without left-hand side and a value
    specification without names have no position in Go (the call
    panics); the parser builds neither. *)
Fixpoint Pos (n : node) : Z :=
  match n with
  | Ident id => NamePos id
  | BasicLit p _ => p
  | SelectorExpr x _ => Pos x
  | CallExpr f _ _ => Pos f
  | CompositeLit (Some t) _ _ _ => Pos t
  | CompositeLit None lb _ _ => lb
  | KeyValueExpr k _ => Pos k
  | AssignStmt (l :: _) _ => Pos l
  | AssignStmt [] _ => NoPos
  | RangeStmt p _ _ _ _ => p
  | ValueSpec (id :: _) _ _ => NamePos id
  | ValueSpec [] _ _ => NoPos
  | Other p _ _ => p
  end.

(** [n.End()]. *)
Fixpoint End_ (n : node) : Z :=
  match n with
  | Ident id => ident_End id
  | BasicLit p v => p + Z.of_nat (String.length v)
  | SelectorExpr _ sel => ident_End sel
  | CallExpr _ _ rparen => rparen + 1
  | CompositeLit _ _ _ rbrace => rbrace + 1
  | KeyValueExpr _ v => End_ v
  | AssignStmt _ rhs =>
    (fix last_End (l : list node) : Z :=
       match l with
       | [] => NoPos
       | [x] => End_ x
       | _ :: t => last_End t
       end) rhs
  | RangeStmt _ _ _ _ body => End_ body
  | ValueSpec names ty values =>
    match values, ty with
    | _ :: _, _ =>
      (fix last_End (l : list node) : Z :=
         match l with
         | [] => NoPos
         | [x] => End_ x
         | _ :: t => last_End t
         end) values
    | [], Some t => End_ t
    | [], None => ident_End (List.last names {| NamePos := NoPos; Name := EmptyString |})
    end
  | Other _ e _ => e
  end.

(** [ast.Inspect(n, f)]: [f] is called on the nodes in depth-first order
    and the children of a node are visited only when [f] returns [true]
    on it.  The function literals the analyzer passes to [Inspect] update
    variables of the enclosing function: that state is threaded through as
    [S].  The closing call [f(nil)] after the children changes nothing in
    any of them and is left out, and so are the comment groups, which
    hold no node the analyzer looks at. *)
Section Inspect.
Context {S : Type} (f : node -> S -> S * bool).

Definition leaf (n : node) (s : S) : S := fst (f n s).

Fixpoint Inspect (n : node) (s : S) : S :=
  let '(s0, descend) := f n s in
  if descend then
    let walkList := fold_left (fun a c => Inspect c a) in
    let walkOpt (o : option node) (a : S) :=
      match o with Some c => Inspect c a | None => a end in
    match n with
    | Ident _ => s0
    | BasicLit _ _ => s0
    | SelectorExpr x sel => leaf (Ident sel) (Inspect x s0)
    | CallExpr fn args _ => walkList args (Inspect fn s0)
    | CompositeLit ty _ elts _ => walkList elts (walkOpt ty s0)
    | KeyValueExpr k v => Inspect v (Inspect k s0)
    | AssignStmt lhs rhs => walkList rhs (walkList lhs s0)
    | RangeStmt _ k v x body =>
      Inspect body (Inspect x (walkOpt v (walkOpt k s0)))
    | ValueSpec names ty values =>
      walkList values
        (walkOpt ty (fold_left (fun a id => leaf (Ident id) a) names s0))
    | Other _ _ cs => walkList cs s0
    end
  else s0.

End Inspect.

(** The nodes [Inspect] visits when nothing is pruned, in order. *)
Fixpoint preorder (n : node) : list node :=
  n ::
  match n with
  | Ident _ => []
  | BasicLit _ _ => []
  | SelectorExpr x sel => preorder x ++ [Ident sel]
  | CallExpr fn args _ => preorder fn ++ flat_map preorder args
  | CompositeLit ty _ elts _ =>
    match ty with Some t => preorder t | None => [] end ++ flat_map preorder elts
  | KeyValueExpr k v => preorder k ++ preorder v
  | AssignStmt lhs rhs => flat_map preorder lhs ++ flat_map preorder rhs
  | RangeStmt _ k v x body =>
    match k with Some c => preorder c | None => [] end
    ++ match v with Some c => preorder c | None => [] end
    ++ preorder x ++ preorder body
  | ValueSpec names ty values =>
    map Ident names
    ++ match ty with Some t => preorder t | None => [] end
    ++ flat_map preorder values
  | Other _ _ cs => flat_map preorder cs
  end.

(** The children of a node, in the order [Inspect] visits them. *)
Definition children (n : node) : list node :=
  let opt (o : option node) := match o with Some c => [c] | None => [] end in
  match n with
  | Ident _ => []
  | BasicLit _ _ => []
  | SelectorExpr x sel => [x; Ident sel]
  | CallExpr fn args _ => fn :: args
  | CompositeLit ty _ elts _ => opt ty ++ elts
  | KeyValueExpr k v => [k; v]
  | AssignStmt lhs rhs => lhs ++ rhs
  | RangeStmt _ k v x body => opt k ++ opt v ++ [x; body]
  | ValueSpec names ty values => map Ident names ++ opt ty ++ values
  | Other _ _ cs => cs
  end.

(** The answers of [hit] over the nodes of a tree, in order. *)
Definition hits {S : Type} (hit : node -> option S) (n : node) : list S :=
  flat_map (fun m => match hit m with Some v => [v] | None => [] end) (preorder n).

(** Structural induction on syntax trees, with the induction hypothesis
    for every child of a node. *)
Section node_induction.
Variable P : node -> Prop.
Let PO (o : option node) : Prop := match o with Some c => P c | None => True end.
Hypothesis HIdent : forall id, P (Ident id).
Hypothesis HBasicLit : forall p v, P (BasicLit p v).
Hypothesis HSelectorExpr : forall x sel, P x -> P (SelectorExpr x sel).
Hypothesis HCallExpr : forall fn args rp, P fn -> Forall P args -> P (CallExpr fn args rp).
Hypothesis HCompositeLit :
  forall ty lb elts rb, PO ty -> Forall P elts -> P (CompositeLit ty lb elts rb).
Hypothesis HKeyValueExpr : forall k v, P k -> P v -> P (KeyValueExpr k v).
Hypothesis HAssignStmt : forall lhs rhs, Forall P lhs -> Forall P rhs -> P (AssignStmt lhs rhs).
Hypothesis HRangeStmt :
  forall p k v x body, PO k -> PO v -> P x -> P body -> P (RangeStmt p k v x body).
Hypothesis HValueSpec :
  forall names ty values, PO ty -> Forall P values -> P (ValueSpec names ty values).
Hypothesis HOther : forall p e cs, Forall P cs -> P (Other p e cs).

Fixpoint node_induction (n : node) : P n :=
  let all := fix all (l : list node) : Forall P l :=
    match l with
    | [] => @List.Forall_nil node P
    | c :: t => @List.Forall_cons node P c t (node_induction c) (all t)
    end in
  let opt := fun (o : option node) =>
    match o return PO o with
    | Some c => node_induction c
    | None => I
    end in
  match n with
  | Ident id => HIdent id
  | BasicLit p v => HBasicLit p v
  | SelectorExpr x sel => HSelectorExpr x sel (node_induction x)
  | CallExpr fn args rp => HCallExpr fn args rp (node_induction fn) (all args)
  | CompositeLit ty lb elts rb => HCompositeLit ty lb elts rb (opt ty) (all elts)
  | KeyValueExpr k v => HKeyValueExpr k v (node_induction k) (node_induction v)
  | AssignStmt lhs rhs => HAssignStmt lhs rhs (all lhs) (all rhs)
  | RangeStmt p k v x body =>
    HRangeStmt p k v x body (opt k) (opt v) (node_induction x) (node_induction body)
  | ValueSpec names ty values => HValueSpec names ty values (opt ty) (all values)
  | Other p e cs => HOther p e cs (all cs)
  end.

End node_induction.

End Ast.

(** ** The analysis pass *)

Module Analysis.

(** [constant.Kind]. *)
Inductive Kind : Type := KUnknown | KBool | KString | KInt | KFloat | KComplex.

(** A [constant.Value]: its kind and what its [String] method returns (for
    a string constant, the quoted and possibly shortened text). *)
Record Value := { ValueKind : Kind; ValueString : string }.

(** A [types.Object], compared by identity: [types.Const] with its value,
    [types.Var], or any other object. *)
Inductive Object : Type :=
| Const (id : Z) (Val : Value)
| Var (id : Z)
| OtherObject (id : Z).

(** What [TypesInfo.Types] records for an expression: the constant value,
    if the expression is constant. *)
Record TypeAndValue := { TVValue : option Value }.

Record File := { FileName : string; Syntax : Ast.node }.

(** An [analysis.Pass]: the files, and the answers of the type checker.
    [TypeOf e] is the [String()] of the type of [e]. *)
Record Pass := {
  Files : list File;
  ObjectOf : Ast.ident -> option Object;
  Types : Ast.node -> option TypeAndValue;
  TypeOf : Ast.node -> option string
}.

(** A call [pass.Reportf(pos, msg, name)]: the message is the fixed
    template filled with [name]. *)
Record Diagnostic := { DiagPos : Z; DiagName : string }.

Definition Kind_eqb (a b : Kind) : bool :=
  match a, b with
  | KUnknown, KUnknown | KBool, KBool | KString, KString
  | KInt, KInt | KFloat, KFloat | KComplex, KComplex => true
  | _, _ => false
  end.

Definition Value_eqb (a b : Value) : bool :=
  Kind_eqb (ValueKind a) (ValueKind b) && String.eqb (ValueString a) (ValueString b).

Definition Object_eqb (a b : Object) : bool :=
  match a, b with
  | Const i v, Const j w => (i =? j) && Value_eqb v w
  | Var i, Var j => i =? j
  | OtherObject i, OtherObject j => i =? j
  | _, _ => false
  end.

(** [o == obj] for a possibly nil [o] and a non-nil [obj]. *)
Definition same_object (o : option Object) (obj : Object) : bool :=
  match o with
  | Some o' => Object_eqb o' obj
  | None => false
  end.

End Analysis.

(** ** src/testsnake.go *)

Module Testsnake.
Import Ast Analysis.

Section WithTables.
Context `{UnicodeTables}.

Definition alnum : list (Z * Z) := [(0x61, 0x7A); (0x30, 0x39)].
Definition underscore : list (Z * Z) := [(0x5F, 0x5F)].

(** The body of the pattern [^[a-z0-9]+(_[a-z0-9]+)*$]. *)
Definition snakeCasePattern : Regexp.regex :=
  Regexp.Cat (Regexp.Plus (Regexp.Class alnum))
    (Regexp.Star (Regexp.Cat (Regexp.Class underscore)
                             (Regexp.Plus (Regexp.Class alnum)))).

Definition isValidSnakeCase (name : string) : bool :=
  if String.eqb name "" then false
  else if existsb IsUpper (Utf8.runes name) then false
  else Regexp.MatchString snakeCasePattern name.

Definition isTestingType (pass : Pass) (expr : node) : bool :=
  match TypeOf pass expr with
  | None => false
  | Some typeStr =>
    String.eqb typeStr "*testing.T" || String.eqb typeStr "*testing.B"
    || String.eqb typeStr "*testing.F"
  end.

(** The loop over [assign.Lhs] in the function literal of [findVarDecl]:
    [Some] of the trimmed literal when the loop returns from the literal,
    [None] when it runs to its end. *)
Fixpoint findVarDecl_loop (pass : Pass) (obj : Object) (rhs : list node)
    (i : nat) (lhs : list node) : option string :=
  match lhs with
  | [] => None
  | l :: rest =>
    match l with
    | Ident lhsIdent =>
      if same_object (ObjectOf pass lhsIdent) obj && (i <? length rhs)%nat then
        match nth_error rhs i with
        | Some (BasicLit _ v) => Some (Strings.Trim v quote)
        | _ => findVarDecl_loop pass obj rhs (S i) rest
        end
      else findVarDecl_loop pass obj rhs (S i) rest
    | _ => findVarDecl_loop pass obj rhs (S i) rest
    end
  end.

(** The function literal of [findVarDecl]; the state is [result]. *)
Definition findVarDecl_func (pass : Pass) (obj : Object) (n : node)
    (result : string) : string * bool :=
  match n with
  | AssignStmt lhs rhs =>
    match findVarDecl_loop pass obj rhs 0 lhs with
    | Some v => (v, false)
    | None => (result, true)
    end
  | _ => (result, true)
  end.

(** The loop over [pass.Files] of [findVarDecl], left as soon as [result]
    is not empty. *)
Fixpoint findVarDecl_files (pass : Pass) (obj : Object) (files : list File)
    (result : string) : string :=
  match files with
  | [] => result
  | file :: rest =>
    let result' := Inspect (findVarDecl_func pass obj) (Syntax file) result in
    if negb (String.eqb result' "") then result'
    else findVarDecl_files pass obj rest result'
  end.

Definition findVarDecl (pass : Pass) (ident : ident) : string :=
  match ObjectOf pass ident with
  | None => ""
  | Some obj => findVarDecl_files pass obj (Files pass) ""
  end.

(** [eval] returns [(string, bool)]. *)
Definition eval (pass : Pass) (expr : node) : string * bool :=
  match expr with
  | BasicLit _ v => (Strings.Trim v quote, true)
  | _ =>
    let constant :=
      match Types pass expr with
      | Some {| TVValue := Some v |} =>
        match ValueKind v with
        | KString => Some (Strings.Trim (ValueString v) quote)
        | _ => None
        end
      | _ => None
      end in
    match constant with
    | Some s => (s, true)
    | None =>
      match expr with
      | SelectorExpr _ _ => ("", false)
      | Ident ident =>
        match ObjectOf pass ident with
        | Some (Const _ konst) =>
          match ValueKind konst with
          | KString => (Strings.Trim (ValueString konst) quote, true)
          | _ => ("", false)
          end
        | Some (Var _) =>
          let decl := findVarDecl pass ident in
          if negb (String.eqb decl "") then (decl, true) else ("", false)
        | _ => ("", false)
        end
      | _ => ("", false)
      end
    end
  end.

Definition strVal (pass : Pass) (expr : node) : string :=
  let '(val, ok) := eval pass expr in
  if ok then val else "".

Definition fieldName (key : node) : string :=
  match key with
  | Ident ident => Name ident
  | _ => ""
  end.

Record valueWithPos := { value : string; pos : Z }.

(** [extractFieldValueWithPos], on the elements of the composite literal. *)
Fixpoint extractFieldValueWithPos (pass : Pass) (elts : list node)
    (targetField : string) : string * Z :=
  match elts with
  | [] => ("", NoPos)
  | elt :: rest =>
    match elt with
    | KeyValueExpr k v =>
      if String.eqb (fieldName k) targetField then
        let '(val, ok) := eval pass v in
        if ok then (val, Pos v)
        else extractFieldValueWithPos pass rest targetField
      else extractFieldValueWithPos pass rest targetField
    | _ => extractFieldValueWithPos pass rest targetField
    end
  end.

(** First function literal of [extractValuesWithPosFromRange]; the state
    is [rangeExpr]. *)
Definition extractValuesWithPosFromRange_func1 (pass : Pass) (obj : Object)
    (n : node) (rangeExpr : option node) : option node * bool :=
  match n with
  | RangeStmt _ _ (Some (Ident ident)) x _ =>
    if same_object (ObjectOf pass ident) obj then (Some x, false)
    else (rangeExpr, true)
  | _ => (rangeExpr, true)
  end.

Fixpoint extractValuesWithPosFromRange_files1 (pass : Pass) (obj : Object)
    (files : list File) (rangeExpr : option node) : option node :=
  match files with
  | [] => rangeExpr
  | file :: rest =>
    match Inspect (extractValuesWithPosFromRange_func1 pass obj) (Syntax file) rangeExpr with
    | Some x => Some x
    | None => extractValuesWithPosFromRange_files1 pass obj rest None
    end
  end.

(** The loop over [assign.Lhs] in the second function literal. *)
Fixpoint extractValuesWithPosFromRange_loop (pass : Pass) (sliceObj : Object)
    (rhs : list node) (i : nat) (lhs : list node) : option node :=
  match lhs with
  | [] => None
  | l :: rest =>
    match l with
    | Ident lhsIdent =>
      if same_object (ObjectOf pass lhsIdent) sliceObj && (i <? length rhs)%nat then
        match nth_error rhs i with
        | Some (CompositeLit ty lb elts rb) => Some (CompositeLit ty lb elts rb)
        | _ => extractValuesWithPosFromRange_loop pass sliceObj rhs (S i) rest
        end
      else extractValuesWithPosFromRange_loop pass sliceObj rhs (S i) rest
    | _ => extractValuesWithPosFromRange_loop pass sliceObj rhs (S i) rest
    end
  end.

(** Second function literal; the state is [sliceLit]. *)
Definition extractValuesWithPosFromRange_func2 (pass : Pass) (sliceObj : Object)
    (n : node) (sliceLit : option node) : option node * bool :=
  match n with
  | AssignStmt lhs rhs =>
    match extractValuesWithPosFromRange_loop pass sliceObj rhs 0 lhs with
    | Some comp => (Some comp, false)
    | None => (sliceLit, true)
    end
  | _ => (sliceLit, true)
  end.

Fixpoint extractValuesWithPosFromRange_files2 (pass : Pass) (sliceObj : Object)
    (files : list File) (sliceLit : option node) : option node :=
  match files with
  | [] => sliceLit
  | file :: rest =>
    match Inspect (extractValuesWithPosFromRange_func2 pass sliceObj) (Syntax file) sliceLit with
    | Some c => Some c
    | None => extractValuesWithPosFromRange_files2 pass sliceObj rest None
    end
  end.

(** The last loop of [extractValuesWithPosFromRange], over the rows. *)
Fixpoint extractValuesWithPosFromRange_rows (pass : Pass) (fieldName : string)
    (elts : list node) (values : list valueWithPos) : list valueWithPos :=
  match elts with
  | [] => values
  | elt :: rest =>
    match elt with
    | CompositeLit _ _ rowElts _ =>
      let '(fieldVal, fieldPos) := extractFieldValueWithPos pass rowElts fieldName in
      if negb (String.eqb fieldVal "") then
        extractValuesWithPosFromRange_rows pass fieldName rest
          (values ++ [{| value := fieldVal; pos := fieldPos |}])
      else extractValuesWithPosFromRange_rows pass fieldName rest values
    | _ => extractValuesWithPosFromRange_rows pass fieldName rest values
    end
  end.

Definition extractValuesWithPosFromRange (pass : Pass) (rangeVar : ident)
    (fieldName : string) : list valueWithPos :=
  match ObjectOf pass rangeVar with
  | None => []
  | Some obj =>
    match extractValuesWithPosFromRange_files1 pass obj (Files pass) None with
    | None => []
    | Some rangeExpr =>
      let sliceLit :=
        match rangeExpr with
        | Ident ident =>
          match ObjectOf pass ident with
          | None => None
          | Some sliceObj =>
            extractValuesWithPosFromRange_files2 pass sliceObj (Files pass) None
          end
        | CompositeLit ty lb elts rb => Some (CompositeLit ty lb elts rb)
        | _ => None
        end in
      match sliceLit with
      | Some (CompositeLit _ _ elts _) =>
        extractValuesWithPosFromRange_rows pass fieldName elts []
      | _ => []
      end
    end
  end.

Definition Reportf (diags : list Diagnostic) (p : Z) (name : string) : list Diagnostic :=
  diags ++ [{| DiagPos := p; DiagName := name |}].

(** The function literal of [run]; the state is the list of the
    diagnostics reported so far. *)
Definition run_func (pass : Pass) (n : node) (diags : list Diagnostic)
    : list Diagnostic * bool :=
  match n with
  | CallExpr (SelectorExpr x sel) args _ =>
    if negb (String.eqb (Name sel) "Run") then (diags, true)
    else if negb (isTestingType pass x) then (diags, true)
    else if (length args <? 2)%nat then (diags, true)
    else
      match args with
      | [] => (diags, true)
      | firstArg :: _ =>
        let '(diags1, done) :=
          match firstArg with
          | SelectorExpr (Ident ident) sel' =>
            let testCases := extractValuesWithPosFromRange pass ident (Name sel') in
            (fold_left
               (fun d tc =>
                  if negb (String.eqb (value tc) "") && negb (isValidSnakeCase (value tc))
                  then Reportf d (pos tc) (value tc) else d)
               testCases diags,
             (0 <? length testCases)%nat)
          | _ => (diags, false)
          end in
        if done then (diags1, true)
        else
          let testName := strVal pass firstArg in
          if String.eqb testName "" then (diags1, true)
          else if negb (isValidSnakeCase testName)
               then (Reportf diags1 (Pos n) testName, true)
               else (diags1, true)
      end
  | _ => (diags, true)
  end.

(** [run]: the diagnostics reported over the files of the pass. *)
Definition run (pass : Pass) : list Diagnostic :=
  fold_left
    (fun diags file =>
       if negb (Strings.HasSuffix (FileName file) "_test.go") then diags
       else Inspect (run_func pass) (Syntax file) diags)
    (Files pass) [].

(** What the function literal of [run] reports at one node. *)
Definition reported (pass : Pass) (n : node) : list Diagnostic :=
  fst (run_func pass n []).

(** What its loop over the test cases reports. *)
Definition caseReports (tcs : list valueWithPos) : list Diagnostic :=
  flat_map
    (fun tc =>
       if negb (String.eqb (value tc) "") && negb (isValidSnakeCase (value tc))
       then [{| DiagPos := pos tc; DiagName := value tc |}] else [])
    tcs.

(** What it reports for a name resolved directly. *)
Definition nameReport (p : Z) (testName : string) : list Diagnostic :=
  if String.eqb testName "" then []
  else if negb (isValidSnakeCase testName)
       then [{| DiagPos := p; DiagName := testName |}] else [].

(** The part of [extractValuesWithPosFromRange] after the range
    statement is found: the values of the collection [rangeExpr]. *)
Definition collectionValues (pass : Pass) (fieldName : string) (rangeExpr : node)
    : list valueWithPos :=
  let sliceLit :=
    match rangeExpr with
    | Ident ident =>
      match ObjectOf pass ident with
      | None => None
      | Some sliceObj =>
        extractValuesWithPosFromRange_files2 pass sliceObj (Files pass) None
      end
    | CompositeLit ty lb elts rb => Some (CompositeLit ty lb elts rb)
    | _ => None
    end in
  match sliceLit with
  | Some (CompositeLit _ _ elts _) =>
    extractValuesWithPosFromRange_rows pass fieldName elts []
  | _ => []
  end.

(** The string constant the type checker reports for an expression, as
    [eval] reads it. *)
Definition constantString (pass : Pass) (expr : node) : option string :=
  match Types pass expr with
  | Some {| TVValue := Some v |} =>
    match ValueKind v with
    | KString => Some (Strings.Trim (ValueString v) quote)
    | _ => None
    end
  | _ => None
  end.

(** The test cases it extracts for a name argument: those of the table
    for [loopVar.field], none for any other expression. *)
Definition testCases (pass : Pass) (firstArg : node) : list valueWithPos :=
  match firstArg with
  | SelectorExpr (Ident ident) sel' =>
    extractValuesWithPosFromRange pass ident (Name sel')
  | _ => []
  end.

End WithTables.
End Testsnake.

(** ** src/unnamed/part_001 *)

Module Part001.
Import Ast Analysis.

(** A [range] over a Go map yields the entries in an order the run time
    chooses: some permutation of them. *)
Class MapOrder := {
  range_order : list (string * Z) -> list (string * Z);
  range_order_perm : forall l, Permutation (range_order l) l
}.

(** The order in which the entries are listed. *)
Definition listed_order : MapOrder :=
  {| range_order := fun l => l; range_order_perm := fun l => Permutation_refl l |}.

Section WithTables.
Context `{UnicodeTables} `{MapOrder}.

(** [isValidSnakeCase], [isTestingType] and [findVarDecl] have the same
    text in this file as in [src/testsnake.go]. *)
Definition isValidSnakeCase : string -> bool := Testsnake.isValidSnakeCase.
Definition isTestingType : Pass -> node -> bool := Testsnake.isTestingType.
Definition findVarDecl : Pass -> ident -> string := Testsnake.findVarDecl.

Definition getStringValue (pass : Pass) (expr : node) : string :=
  match expr with
  | BasicLit _ v => Strings.Trim v quote
  | _ =>
    let identifier :=
      match expr with
      | Ident ident =>
        match ObjectOf pass ident with
        | Some (Const _ konst) => Some (Strings.Trim (ValueString konst) quote)
        | Some (Var _) =>
          let decl := findVarDecl pass ident in
          if negb (String.eqb decl "") then Some decl else None
        | _ => None
        end
      | _ => None
      end in
    match identifier with
    | Some s => s
    | None =>
      match Types pass expr with
      | Some {| TVValue := Some v |} => Strings.Trim (ValueString v) quote
      | _ => ""
      end
    end
  end.

(** The inner loop of [extractNamesFromCompositeLit], over the key-value
    pairs of a row. *)
Fixpoint extractNamesFromCompositeLit_row (innerElts : list node)
    (fieldName : string) (result : gmap string Z) : gmap string Z :=
  match innerElts with
  | [] => result
  | innerElt :: rest =>
    match innerElt with
    | KeyValueExpr (Ident ident) (BasicLit p v) =>
      if String.eqb (Name ident) fieldName then
        extractNamesFromCompositeLit_row rest fieldName
          (<[Strings.Trim v quote := p]> result)
      else extractNamesFromCompositeLit_row rest fieldName result
    | _ => extractNamesFromCompositeLit_row rest fieldName result
    end
  end.

(** [extractNamesFromCompositeLit], on the elements of the literal. *)
Fixpoint extractNamesFromCompositeLit (elts : list node) (fieldName : string)
    (result : gmap string Z) : gmap string Z :=
  match elts with
  | [] => result
  | elt :: rest =>
    match elt with
    | CompositeLit _ _ innerElts _ =>
      extractNamesFromCompositeLit rest fieldName
        (extractNamesFromCompositeLit_row innerElts fieldName result)
    | _ => extractNamesFromCompositeLit rest fieldName result
    end
  end.

(** First function literal of [extractTableTestNames]; the state is
    [(rangeStmt, found)]. *)
Definition extractTableTestNames_func1 (callExpr : node) (n : node)
    (st : option node * bool) : (option node * bool) * bool :=
  if snd st then (st, false)
  else
    match n with
    | RangeStmt _ _ _ _ _ =>
      if (Pos n <? Pos callExpr) && (End_ callExpr <? End_ n)
      then ((Some n, true), false)
      else (st, true)
    | _ => (st, true)
    end.

(** The loop over [stmt.Lhs] in the second function literal. *)
Fixpoint extractTableTestNames_assign (pass : Pass) (obj : Object)
    (fieldName : string) (rhs : list node) (i : nat) (lhs : list node)
    (result : gmap string Z) : gmap string Z :=
  match lhs with
  | [] => result
  | l :: rest =>
    extractTableTestNames_assign pass obj fieldName rhs (S i) rest
      match l with
      | Ident lhsIdent =>
        if same_object (ObjectOf pass lhsIdent) obj && (i <? length rhs)%nat then
          match nth_error rhs i with
          | Some (CompositeLit _ _ elts _) =>
            extractNamesFromCompositeLit elts fieldName result
          | _ => result
          end
        else result
      | _ => result
      end
  end.

(** The loop over [stmt.Names] in the second function literal. *)
Fixpoint extractTableTestNames_spec (pass : Pass) (obj : Object)
    (fieldName : string) (values : list node) (i : nat) (names : list ident)
    (result : gmap string Z) : gmap string Z :=
  match names with
  | [] => result
  | name :: rest =>
    extractTableTestNames_spec pass obj fieldName values (S i) rest
      (if same_object (ObjectOf pass name) obj && (i <? length values)%nat then
         match nth_error values i with
         | Some (CompositeLit _ _ elts _) =>
           extractNamesFromCompositeLit elts fieldName result
         | _ => result
         end
       else result)
  end.

(** Second function literal; the state is the map [result]. *)
Definition extractTableTestNames_func2 (pass : Pass) (obj : Object)
    (fieldName : string) (n : node) (result : gmap string Z)
    : gmap string Z * bool :=
  match n with
  | AssignStmt lhs rhs =>
    (extractTableTestNames_assign pass obj fieldName rhs 0 lhs result, true)
  | ValueSpec names _ values =>
    (extractTableTestNames_spec pass obj fieldName values 0 names result, true)
  | _ => (result, true)
  end.

Definition extractTableTestNames (pass : Pass) (file : node) (selExpr : node)
    (callExpr : node) : gmap string Z :=
  let result : gmap string Z := ∅ in
  match selExpr with
  | SelectorExpr _ sel =>
    let fieldName := Name sel in
    match fst (Inspect (extractTableTestNames_func1 callExpr) file (None, false)) with
    | None => result
    | Some rangeStmt =>
      match rangeStmt with
      | RangeStmt _ _ _ (Ident sliceIdent) _ =>
        match ObjectOf pass sliceIdent with
        | None => result
        | Some obj =>
          Inspect (extractTableTestNames_func2 pass obj fieldName) file result
        end
      | _ => result
      end
    end
  | _ => result
  end.

(** The function literal of [run]. *)
Definition run_func (pass : Pass) (file : node) (n : node)
    (diags : list Diagnostic) : list Diagnostic * bool :=
  match n with
  | CallExpr (SelectorExpr x sel) args _ =>
    if negb (String.eqb (Name sel) "Run") then (diags, true)
    else if negb (isTestingType pass x) then (diags, true)
    else if (length args <? 2)%nat then (diags, true)
    else
      match args with
      | [] => (diags, true)
      | firstArg :: _ =>
        match firstArg with
        | SelectorExpr _ _ =>
          let testNames := extractTableTestNames pass file firstArg n in
          (fold_left
             (fun d '(name, p) =>
                if negb (isValidSnakeCase name) then Testsnake.Reportf d p name else d)
             (range_order (map_to_list testNames)) diags,
           true)
        | _ =>
          let testName := getStringValue pass firstArg in
          if String.eqb testName "" then (diags, true)
          else if negb (isValidSnakeCase testName)
               then (Testsnake.Reportf diags (Pos n) testName, true)
               else (diags, true)
        end
      end
  | _ => (diags, true)
  end.

Definition run (pass : Pass) : list Diagnostic :=
  fold_left
    (fun diags file =>
       if negb (Strings.HasSuffix (FileName file) "_test.go") then diags
       else Inspect (run_func pass (Syntax file)) (Syntax file) diags)
    (Files pass) [].

(** What the function literal of [run] reports at one node. *)
Definition reported (pass : Pass) (file : node) (n : node) : list Diagnostic :=
  fst (run_func pass file n []).

End WithTables.
End Part001.

(** ** Test files

    Small test files as syntax trees.  Tokens are numbered in source
    order and [at_ k] is the position of token [k]; the files are built
    over any such layout. *)

Module Examples.
Import Ast Analysis.

Section Layout.
Variable at_ : nat -> Z.

Definition ident_at (k : nat) (name : string) : ident :=
  {| NamePos := at_ k; Name := name |}.

(** [func(t *testing.T) {}], tokens [k] to [k+3]. *)
Definition funcLit (k : nat) : node :=
  Other (at_ k) (at_ (k + 3) + 1)
    [Other (at_ k) (at_ (k + 1) + 1)
       [Other (at_ k) (at_ (k + 1) + 1)
          [Other (at_ k) (at_ (k + 1))
             [Ident (ident_at k "t");
              Other (at_ (k + 1)) (at_ (k + 1) + 10)
                [SelectorExpr (Ident (ident_at (k + 1) "testing")) (ident_at (k + 1) "T")]]]];
     Other (at_ (k + 2)) (at_ (k + 3) + 1) []].

(** The call [recv.Run(arg, func(t *testing.T) {})]: the receiver at
    token [k], the name argument from token [k+2] on, [w] tokens wide,
    the closing parenthesis at token [k+6+w]. *)
Definition runCall (k w : nat) (recv : string) (arg : node) : node :=
  CallExpr (SelectorExpr (Ident (ident_at k recv)) (ident_at (k + 1) "Run"))
    [arg; funcLit (k + 2 + w)] (at_ (k + 6 + w)).

(** The call as a statement. *)
Definition runStmt (k w : nat) (recv : string) (arg : node) : node :=
  Other (at_ k) (at_ (k + 6 + w) + 1) [runCall k w recv arg].

(** A file
<<
    package p
    import "testing"
    func TestExample(t *testing.T) { stmts }
>>
    tokens 0 to 7, the statements from token 8 on, and the closing brace at
    token [last]. *)
Definition testFile (name : string) (last : nat) (stmts : list node) : File :=
  {| FileName := name;
     Syntax :=
       Other (at_ 0) (at_ last + 1)
         [Ident (ident_at 1 "p");
          Other (at_ 2) (at_ 3 + 9) [Other (at_ 3) (at_ 3 + 9) [BasicLit (at_ 3) (quoted "testing")]];
          Other (at_ 4) (at_ last + 1)
            [Ident (ident_at 5 "TestExample");
             Other (at_ 4) (at_ 7 + 10)
               [Other (at_ 6) (at_ 7 + 10)
                  [Other (at_ 6) (at_ 7 + 10)
                     [Ident (ident_at 6 "t");
                      Other (at_ 7) (at_ 7 + 10)
                        [SelectorExpr (Ident (ident_at 7 "testing")) (ident_at 7 "T")]]]];
             Other (at_ 8) (at_ last + 1) stmts]] |}.

(** The row [{name: lit}], tokens [k] to [k+3]. *)
Definition row (k : nat) (lit : string) : node :=
  CompositeLit None (at_ k)
    [KeyValueExpr (Ident (ident_at (k + 1) "name")) (BasicLit (at_ (k + 2)) lit)]
    (at_ (k + 3)).

(** The literal [[]struct{ name string }{ {name: lit1}, {name: lit2} }],
    tokens [k] to [k+12]. *)
Definition table (k : nat) (lit1 lit2 : string) : node :=
  CompositeLit
    (Some (Other (at_ k) (at_ (k + 2) + 7)
             [Other (at_ k) (at_ (k + 2) + 7)
                [Other (at_ (k + 1)) (at_ (k + 2) + 6)
                   [Other (at_ (k + 1)) (at_ (k + 2) + 6)
                      [Ident (ident_at (k + 1) "name"); Ident (ident_at (k + 2) "string")]]]]))
    (at_ (k + 3))
    [row (k + 4) lit1; row (k + 8) lit2]
    (at_ (k + 12)).

(** The statement [for _, row := range x { row-call }] with the call
    [t.Run(row.name, func(t *testing.T) {})], tokens [k] to [k+13] plus
    those of [x] ([w] of them). *)
Definition rangeStmt (k w : nat) (x : node) : node :=
  RangeStmt (at_ k)
    (Some (Ident (ident_at (k + 1) "_")))
    (Some (Ident (ident_at (k + 2) "row")))
    x
    (Other (at_ (k + 3 + w)) (at_ (k + 13 + w) + 1)
       [runStmt (k + 4 + w) 2 "t"
          (SelectorExpr (Ident (ident_at (k + 6 + w) "row")) (ident_at (k + 7 + w) "name"))]).

(** Table-driven test, the table held in a variable:
<<
    tests := []struct{ name string }{ {name: lit1}, {name: lit2} }
    for _, row := range tests {
        t.Run(row.name, func(t *testing.T) {})
    }
>> *)
Definition tableVarFile (lit1 lit2 : string) : File :=
  testFile "table_test.go" 38
    [AssignStmt [Ident (ident_at 9 "tests")] [table 10 lit1 lit2];
     rangeStmt 23 1 (Ident (ident_at 26 "tests"))].


(** A sub-test named by a literal:
<<
    t.Run(lit, func(t *testing.T) {})
>> *)
Definition literalFile (lit : string) : File :=
  testFile "literal_test.go" 17 [runStmt 9 1 "t" (BasicLit (at_ 11) lit)].

(** The statements [t.Run(lit, func(t *testing.T) {})], one for each
    literal, eight tokens each, from token [k] on. *)
Fixpoint literalStmts (k : nat) (lits : list string) : list node :=
  match lits with
  | [] => []
  | lit :: rest =>
    runStmt k 1 "t" (BasicLit (at_ (k + 2)) lit) :: literalStmts (k + 8) rest
  end.

(** Sub-tests named by literals, one after the other. *)
Definition literalsFile (lits : list string) : File :=
  testFile "example_test.go" (9 + 8 * length lits) (literalStmts 9 lits).

(** A [Run] method of another type:
<<
    runner.Run("ThisIsNotATest", func(t *testing.T) {})
>> *)
Definition decoyFile : File :=
  testFile "decoy_test.go" 17
    [runStmt 9 1 "runner" (BasicLit (at_ 11) (quoted "ThisIsNotATest"))].



(** A sub-test named by a constant of another package:
<<
    t.Run(names.Bad, func(t *testing.T) {})
>> *)
Definition qualifiedFile : File :=
  testFile "qualified_test.go" 18
    [runStmt 9 2 "t" (SelectorExpr (Ident (ident_at 11 "names")) (ident_at 12 "Bad"))].

(** The loop variable assigned by the [range] clause and used after the
    loop:
<<
    var row struct{ name string }
    for _, row = range []struct{ name string }{ {name: lit1}, {name: lit2} } {
    }
    t.Run(row.name, func(t *testing.T) {})
>> *)
Definition afterLoopFile (lit1 lit2 : string) : File :=
  testFile "after_test.go" 40
    [Other (at_ 9) (at_ 12 + 7)
       [Other (at_ 9) (at_ 12 + 7)
          [ValueSpec [ident_at 10 "row"]
             (Some (Other (at_ 11) (at_ 12 + 7)
                      [Other (at_ 11) (at_ 12 + 6)
                         [Other (at_ 11) (at_ 12 + 6)
                            [Ident (ident_at 11 "name"); Ident (ident_at 12 "string")]]]))
             []]];
     RangeStmt (at_ 13)
       (Some (Ident (ident_at 14 "_")))
       (Some (Ident (ident_at 15 "row")))
       (table 16 lit1 lit2)
       (Other (at_ 29) (at_ 30 + 1) []);
     runStmt 31 2 "t" (SelectorExpr (Ident (ident_at 33 "row")) (ident_at 34 "name"))].

End Layout.

(** The layout with token [k] at offset [1 + 32 * k]. *)
Definition spaced (k : nat) : Z := 1 + 32 * Z.of_nat k.

(** The answers of the type checker on these files. *)
Definition objectOf (id : ident) : option Object :=
  let n := Name id in
  if String.eqb n "t" then Some (Var 1)
  else if String.eqb n "tests" then Some (Var 2)
  else if String.eqb n "row" then Some (Var 3)
  else if String.eqb n "testName" then Some (Var 4)
  else if String.eqb n "runner" then Some (Var 5)
  else if String.eqb n "names" then Some (OtherObject 6)
  else if String.eqb n "TestExample" then Some (OtherObject 7)
  else None.

Definition typesOf (n : node) : option TypeAndValue :=
  match n with
  | BasicLit _ v => Some {| TVValue := Some {| ValueKind := KString; ValueString := v |} |}
  | SelectorExpr (Ident x) sel =>
    if String.eqb (Name x) "names" && String.eqb (Name sel) "Bad" then
      Some {| TVValue := Some {| ValueKind := KString; ValueString := (quoted "BadName") |} |}
    else Some {| TVValue := None |}
  | Ident x => if String.eqb (Name x) "_" then None else Some {| TVValue := None |}
  | _ => Some {| TVValue := None |}
  end.

Definition typeOf (n : node) : option string :=
  match n with
  | Ident x =>
    if String.eqb (Name x) "t" then Some "*testing.T"
    else if String.eqb (Name x) "runner" then Some "*testlintdata.Runner"
    else None
  | _ => None
  end.

Definition passOf (files : list File) : Pass :=
  {| Files := files; ObjectOf := objectOf; Types := typesOf; TypeOf := typeOf |}.

End Examples.

(** ** The snake_case grammar, in the words of the specification *)

Module Grammar.

Definition lower_or_digit (c : ascii) : bool :=
  let b := Utf8.byte_of c in
  ((0x61 <=? b) && (b <=? 0x7A)) || ((0x30 <=? b) && (b <=? 0x39)).

(** A run: one or more lower-case letters or digits. *)
Definition is_run (r : string) : Prop :=
  r <> "" /\ Forall (fun c => lower_or_digit c = true) (list_ascii_of_string r).

(** One or more runs joined by single underscores. *)
Definition snake_case (s : string) : Prop :=
  exists runs, runs <> [] /\ Forall is_run runs /\ s = String.concat "_" runs.

(** The same on runes: [joinZ] puts U+005F between the runs. *)
Definition joinZ (runs : list (list Z)) : list Z :=
  match runs with
  | [] => []
  | r :: rest => r ++ flat_map (cons 0x5F) rest
  end.

Definition alnumZ (c : Z) : Prop := Regexp.in_class Testsnake.alnum c = true.

Definition runZ (r : list Z) : Prop := r <> [] /\ Forall alnumZ r.

Definition snakeZ (w : list Z) : Prop :=
  exists runs, runs <> [] /\ Forall runZ runs /\ w = joinZ runs.

(** The text with the given bytes. *)
Definition unbytes (w : list Z) : string :=
  string_of_list_ascii (map (fun b => ascii_of_N (Z.to_N b)) w).

End Grammar.

(** ** Notions of the specification *)

Module Stated.
Import Ast Analysis.

(** The string literals a statement assigns to the variable [obj] by a
    simple assignment. *)
Definition assigned_in_stmt (pass : Pass) (obj : Object) (n : node) : list string :=
  match n with
  | AssignStmt lhs rhs =>
    flat_map
      (fun '(l, r) =>
         match l, r with
         | Ident id, BasicLit _ v =>
           if same_object (ObjectOf pass id) obj then [v] else []
         | _, _ => []
         end)
      (combine lhs rhs)
  | _ => []
  end.


(** [n] is a range statement whose per-element variable denotes [obj]. *)
Definition binds (pass : Pass) (obj : Object) (n : node) : bool :=
  match n with
  | RangeStmt _ _ (Some (Ident v)) _ _ => same_object (ObjectOf pass v) obj
  | _ => false
  end.

(** The span of [inner] is nested within the span of [outer]. *)
Definition encloses (outer inner : node) : Prop :=
  Pos outer <= Pos inner /\ End_ inner <= End_ outer.


(** The statement of C2: every resolved name that fails the validator is
    diagnosed, the empty name included. *)
Definition invalid_names_diagnosed : Prop :=
  forall (U : UnicodeTables) pass x sel firstArg body rest rparen v,
    Name sel = "Run" -> Testsnake.isTestingType pass x = true ->
    Testsnake.testCases pass firstArg = [] ->
    Testsnake.eval pass firstArg = (v, true) ->
    Testsnake.isValidSnakeCase v = false ->
    exists d,
      In d (Testsnake.reported pass
              (CallExpr (SelectorExpr x sel) (firstArg :: body :: rest) rparen))
      /\ DiagName d = v.


(** The statement of C4: a selector whose table extraction yields nothing
    is not diagnosed. *)
Definition selector_without_table_abandoned : Prop :=
  forall (U : UnicodeTables) pass x sel lv field body rest rparen,
    Name sel = "Run" -> Testsnake.isTestingType pass x = true ->
    Testsnake.extractValuesWithPosFromRange pass lv (Name field) = [] ->
    Testsnake.reported pass
      (CallExpr (SelectorExpr x sel)
         (SelectorExpr (Ident lv) field :: body :: rest) rparen) = [].

(** The statement of C7, for the position: a literal name is diagnosed at
    the literal. *)
Definition literal_diagnosed_at_literal : Prop :=
  forall (U : UnicodeTables) pass x sel p lit body rest rparen d,
    In d (Testsnake.reported pass
            (CallExpr (SelectorExpr x sel) (BasicLit p lit :: body :: rest) rparen)) ->
    DiagPos d = p.

(** The content of an interpreted string literal written without escape
    sequences: a text with no double quote and no backslash.  The
    unquoted text of the literal [quoted text] is then [text] itself. *)
Definition backslash : ascii := "092"%char.

Definition plain_content (text : string) : bool :=
  forallb (fun c => negb (Ascii.eqb c quote) && negb (Ascii.eqb c backslash))
    (list_ascii_of_string text).

(** The statement of C8: the table comes from a range statement of the
    same file that binds the loop variable and encloses the call. *)
Definition table_range_encloses_call : Prop :=
  forall pass file x sel lv field rest rparen obj,
    let call := CallExpr (SelectorExpr x sel) (SelectorExpr (Ident lv) field :: rest) rparen in
    In file (Files pass) -> In call (preorder (Syntax file)) ->
    ObjectOf pass lv = Some obj ->
    Testsnake.extractValuesWithPosFromRange pass lv (Name field) <> [] ->
    exists rs,
      In rs (preorder (Syntax file)) /\ binds pass obj rs = true /\ encloses rs call.

(** The statement of C10: the two entry points report the same. *)
Definition entry_points_agree : Prop :=
  forall (U : UnicodeTables) (O : Part001.MapOrder) pass,
    Testsnake.run pass = Part001.run pass.

(** A name argument on which the two value resolvers are the same by
    construction: a literal, a variable, or a string constant the type
    checker reports consistently. *)
Definition plain_name (pass : Pass) (a : node) : bool :=
  match a with
  | BasicLit _ _ => true
  | Ident id =>
    match ObjectOf pass id, Types pass a with
    | Some (Var _), None => true
    | Some (Var _), Some {| TVValue := None |} => true
    | Some (Const _ konst), None => Kind_eqb (ValueKind konst) KString
    | Some (Const _ konst), Some {| TVValue := None |} => Kind_eqb (ValueKind konst) KString
    | Some (Const _ konst), Some {| TVValue := Some v |} =>
      Kind_eqb (ValueKind konst) KString && Value_eqb v konst
    | _, _ => false
    end
  | _ => false
  end.

(** Every sub-test call at the node, if it is one, has a plain name. *)
Definition plain_call (pass : Pass) (n : node) : bool :=
  match n with
  | CallExpr (SelectorExpr x sel) (firstArg :: _ :: _) _ =>
    negb (String.eqb (Name sel) "Run")
    || negb (Testsnake.isTestingType pass x)
    || plain_name pass firstArg
  | _ => true
  end.

Definition plain_pass (pass : Pass) : bool :=
  forallb
    (fun file =>
       negb (Strings.HasSuffix (FileName file) "_test.go")
       || forallb (plain_call pass) (preorder (Syntax file)))
    (Files pass).

End Stated.

(** ** src/unnamed/part_002 *)

Module Part002.
Import Ast Analysis.

Section WithTables.
Context `{UnicodeTables}.

(** [getStringValue], [findVarDecl], [isTestingType] and
    [isValidSnakeCase] have the same text in this file as in
    [src/unnamed/part_001]. *)
Definition getStringValue : Pass -> node -> string := Part001.getStringValue.
Definition isTestingType : Pass -> node -> bool := Part001.isTestingType.
Definition isValidSnakeCase : string -> bool := Part001.isValidSnakeCase.

(** The function literal of [run]: every name argument is resolved by
    [getStringValue]. *)
Definition run_func (pass : Pass) (n : node) (diags : list Diagnostic)
    : list Diagnostic * bool :=
  match n with
  | CallExpr (SelectorExpr x sel) args _ =>
    if negb (String.eqb (Name sel) "Run") then (diags, true)
    else if negb (isTestingType pass x) then (diags, true)
    else if (length args <? 2)%nat then (diags, true)
    else
      match args with
      | [] => (diags, true)
      | firstArg :: _ =>
        let testName := getStringValue pass firstArg in
        if String.eqb testName "" then (diags, true)
        else if negb (isValidSnakeCase testName)
             then (Testsnake.Reportf diags (Pos n) testName, true)
             else (diags, true)
      end
  | _ => (diags, true)
  end.

Definition run (pass : Pass) : list Diagnostic :=
  fold_left
    (fun diags file =>
       if negb (Strings.HasSuffix (FileName file) "_test.go") then diags
       else Inspect (run_func pass) (Syntax file) diags)
    (Files pass) [].

(** What the function literal of [run] reports at one node. *)
Definition reported (pass : Pass) (n : node) : list Diagnostic :=
  fst (run_func pass n []).

End WithTables.
End Part002.

(** ** Notions for the further properties *)

Module Coverage.
Import Ast Analysis.

(** What one element of the collection contributes to the table: the
    value of its field, when the element is a literal row and the value
    is not empty. *)
Definition rowValue (pass : Pass) (fieldName : string) (elt : node)
    : list Testsnake.valueWithPos :=
  match elt with
  | CompositeLit _ _ rowElts _ =>
    let '(fieldVal, fieldPos) := Testsnake.extractFieldValueWithPos pass rowElts fieldName in
    if negb (String.eqb fieldVal "") then
      [{| Testsnake.value := fieldVal; Testsnake.pos := fieldPos |}]
    else []
  | _ => []
  end.

(** The node is not a sub-test call with a selector as name argument. *)
Definition no_selector_call (pass : Pass) (n : node) : bool :=
  match n with
  | CallExpr (SelectorExpr x sel) (SelectorExpr _ _ :: _ :: _) _ =>
    negb (String.eqb (Name sel) "Run") || negb (Testsnake.isTestingType pass x)
  | _ => true
  end.

Definition no_selector_pass (pass : Pass) : bool :=
  forallb
    (fun file =>
       negb (Strings.HasSuffix (FileName file) "_test.go")
       || forallb (no_selector_call pass) (preorder (Syntax file)))
    (Files pass).

(** A byte of a snake_case name: a lower-case letter, a digit or an
    underscore. *)
Definition snake_byte (c : ascii) : bool :=
  Grammar.lower_or_digit c || Ascii.eqb c "_"%char.

(** The span of [call] lies strictly inside the span of [rs], as
    [extractTableTestNames] of [part_001] tests it. *)
Definition strictly_inside (rs call : node) : Prop :=
  Pos rs < Pos call /\ End_ call < End_ rs.

(** The test of the first function literal of [extractTableTestNames]:
    a range statement whose span strictly encloses the span of the
    call. *)
Definition enclosing_range (call n : node) : bool :=
  match n with
  | RangeStmt _ _ _ _ _ => (Pos n <? Pos call) && (End_ call <? End_ n)
  | _ => false
  end.

(** The names a row gives to the map of [extractNamesFromCompositeLit]
    with their positions, in the order of the key-value pairs. *)
Definition rowNames (fieldName : string) (innerElts : list node) : list (string * Z) :=
  flat_map
    (fun innerElt =>
       match innerElt with
       | KeyValueExpr (Ident ident) (BasicLit p v) =>
         if String.eqb (Name ident) fieldName then [(Strings.Trim v quote, p)] else []
       | _ => []
       end)
    innerElts.

(** The same for all rows of a collection, in the order of the rows. *)
Definition tableNames (fieldName : string) (elts : list node) : list (string * Z) :=
  flat_map
    (fun elt =>
       match elt with
       | CompositeLit _ _ innerElts _ => rowNames fieldName innerElts
       | _ => []
       end)
    elts.

(** The statement [n] gives the name [name] at [p] to the table of the
    variable [obj]: it assigns to the variable, or declares it with, a
    composite literal (the sides paired by index) one of whose rows has
    the name in the field. *)
Definition table_source (pass : Pass) (obj : Object) (fieldName : string)
    (n : node) (name : string) (p : Z) : Prop :=
  (exists lhs rhs i id ty lb elts rb,
      n = AssignStmt lhs rhs
      /\ nth_error lhs i = Some (Ident id) /\ ObjectOf pass id = Some obj
      /\ nth_error rhs i = Some (CompositeLit ty lb elts rb)
      /\ In (name, p) (tableNames fieldName elts))
  \/ (exists names ty0 values i id ty lb elts rb,
         n = ValueSpec names ty0 values
         /\ nth_error names i = Some id /\ ObjectOf pass id = Some obj
         /\ nth_error values i = Some (CompositeLit ty lb elts rb)
         /\ In (name, p) (tableNames fieldName elts)).

End Coverage.

(** * Properties *)

(** ** Regular expressions: the matcher decides the language *)

Module RegexpFacts.
Import Regexp.

Lemma Lang_Fail_inv w : Lang Fail w -> False.
Proof. intros HL. inversion HL. Qed.

Lemma Lang_Eps_inv w : Lang Eps w -> w = [].
Proof. intros HL. inversion HL. reflexivity. Qed.

Lemma Lang_Class_inv cl w : Lang (Class cl) w -> exists c, w = [c] /\ in_class cl c = true.
Proof. intros HL. inversion HL; subst. eauto. Qed.

Lemma Lang_Cat_inv a b w :
  Lang (Cat a b) w -> exists u v, w = u ++ v /\ Lang a u /\ Lang b v.
Proof. intros HL. inversion HL; subst. eauto. Qed.

Lemma Lang_Alt_inv a b w : Lang (Alt a b) w -> Lang a w \/ Lang b w.
Proof. intros HL. inversion HL; subst; auto. Qed.

Lemma Lang_Plus_inv a w :
  Lang (Plus a) w -> exists u v, w = u ++ v /\ Lang a u /\ Lang (Star a) v.
Proof. intros HL. inversion HL; subst. eauto. Qed.

(** A non-empty word of [Star a] starts with a non-empty word of [a]. *)
Lemma Lang_Star_cons_inv a c w :
  Lang (Star a) (c :: w) ->
  exists u v, w = u ++ v /\ Lang a (c :: u) /\ Lang (Star a) v.
Proof.
  intros HL. remember (Star a) as r eqn:Er. remember (c :: w) as cw eqn:Ew.
  induction HL; try discriminate.
  injection Er as ->.
  destruct u as [|c' u'].
  - simpl in Ew. apply IHHL2; auto.
  - simpl in Ew. injection Ew as Hc Hw. subst c' w. exists u', v. auto.
Qed.

Lemma nullable_spec r : nullable r = true <-> Lang r [].
Proof.
  induction r; simpl.
  - split; [discriminate | intros HL; destruct (Lang_Fail_inv _ HL)].
  - split; [intros _; constructor | reflexivity].
  - split; [discriminate |].
    intros HL. apply Lang_Class_inv in HL as (c & Hc & _). discriminate.
  - rewrite andb_true_iff, IHr1, IHr2. split.
    + intros [Ha Hb]. apply (LCat _ _ [] []); assumption.
    + intros HL. apply Lang_Cat_inv in HL as (u & v & Huv & Ha & Hb).
      symmetry in Huv. apply app_eq_nil in Huv as [-> ->]. auto.
  - rewrite orb_true_iff, IHr1, IHr2. split.
    + intros [Ha | Hb]; [apply LAltL | apply LAltR]; assumption.
    + apply Lang_Alt_inv.
  - split; [intros _; constructor | reflexivity].
  - rewrite IHr. split.
    + intros Ha. apply (LPlus _ [] []); [assumption | constructor].
    + intros HL. apply Lang_Plus_inv in HL as (u & v & Huv & Ha & _).
      symmetry in Huv. apply app_eq_nil in Huv as [-> _]. assumption.
Qed.

Lemma deriv_spec c r : forall w, Lang (deriv c r) w <-> Lang r (c :: w).
Proof.
  induction r; intros w; simpl.
  - split; intros HL; inversion HL.
  - split; intros HL; inversion HL.
  - destruct (in_class l c) eqn:Hin; split; intros HL.
    + apply Lang_Eps_inv in HL as ->. constructor. assumption.
    + apply Lang_Class_inv in HL as (c' & Hw & _). injection Hw as Hc Hw. subst. constructor.
    + inversion HL.
    + apply Lang_Class_inv in HL as (c' & Hw & Hc). injection Hw as Hc' Hw. subst. congruence.
  - assert (Hcat : Lang (Cat (deriv c r1) r2) w -> Lang (Cat r1 r2) (c :: w)).
    { intros HL. apply Lang_Cat_inv in HL as (u & v & -> & Ha & Hb).
      apply IHr1 in Ha. apply (LCat _ _ (c :: u) v); assumption. }
    assert (Hinv : Lang (Cat r1 r2) (c :: w) ->
                   Lang (Cat (deriv c r1) r2) w \/ (Lang r1 [] /\ Lang r2 (c :: w))).
    { intros HL. apply Lang_Cat_inv in HL as (u & v & Huv & Ha & Hb).
      destruct u as [|c' u'].
      - simpl in Huv. subst v. right. auto.
      - simpl in Huv. injection Huv as Hc Hw. subst c' w. left.
        apply LCat; [apply IHr1|]; assumption. }
    destruct (nullable r1) eqn:Hn; split; intros HL.
    + apply Lang_Alt_inv in HL as [HL | HL]; [auto|].
      apply IHr2 in HL. apply nullable_spec in Hn.
      apply (LCat _ _ [] (c :: w)); assumption.
    + apply Hinv in HL as [HL | [_ HL]]; [apply LAltL | apply LAltR]; auto.
      apply IHr2. assumption.
    + auto.
    + apply Hinv in HL as [HL | [Ha _]]; [assumption|].
      apply nullable_spec in Ha. congruence.
  - split; intros HL.
    + apply Lang_Alt_inv in HL as [HL | HL]; [apply LAltL, IHr1 | apply LAltR, IHr2]; assumption.
    + apply Lang_Alt_inv in HL as [HL | HL]; [apply LAltL, IHr1 | apply LAltR, IHr2]; assumption.
  - split; intros HL.
    + apply Lang_Cat_inv in HL as (u & v & -> & Ha & Hb).
      apply IHr in Ha. apply (LStarCons _ (c :: u) v); assumption.
    + apply Lang_Star_cons_inv in HL as (u & v & -> & Ha & Hb).
      apply LCat; [apply IHr|]; assumption.
  - split; intros HL.
    + apply Lang_Cat_inv in HL as (u & v & -> & Ha & Hb).
      apply IHr in Ha. apply (LPlus _ (c :: u) v); assumption.
    + apply Lang_Plus_inv in HL as (u & v & Huv & Ha & Hb).
      destruct u as [|c' u'].
      * simpl in Huv. subst v.
        apply Lang_Star_cons_inv in Hb as (u & v & -> & Ha' & Hb').
        apply LCat; [apply IHr|]; assumption.
      * simpl in Huv. injection Huv as Hc Hw. subst c' w.
        apply LCat; [apply IHr|]; assumption.
Qed.

Lemma matches_spec w : forall r, matches r w = true <-> Lang r w.
Proof.
  induction w as [|c w IH]; intros r; simpl.
  - apply nullable_spec.
  - rewrite IH. apply deriv_spec.
Qed.

End RegexpFacts.

(** ** Decoding of ASCII text *)

Module Utf8Facts.
Import Utf8.

Lemma land_le_l a b : 0 <= a -> Z.land a b <= a.
Proof.
  intros Ha.
  assert (Hd : Z.ldiff (Z.land a b) a = 0).
  { apply Z.bits_inj'. intros n Hn.
    rewrite Z.ldiff_spec, Z.land_spec, Z.bits_0.
    destruct (Z.testbit a n), (Z.testbit b n); reflexivity. }
  apply Z.sub_nocarry_ldiff in Hd.
  assert (0 <= Z.ldiff a (Z.land a b)) by (apply Z.ldiff_nonneg; auto).
  lia.
Qed.

Lemma lor_lower a b : 0 <= a -> 0 <= b -> a <= Z.lor a b /\ b <= Z.lor a b.
Proof.
  intros Ha Hb. pose proof (Z.add_lor_land a b) as Hs.
  pose proof (land_le_l a b Ha). pose proof (land_le_l b a Hb) as Hl.
  rewrite Z.land_comm in Hl. lia.
Qed.

Lemma land_maskx b : Z.land b maskx = b mod 64.
Proof. change maskx with (Z.ones 6). rewrite Z.land_ones by lia. reflexivity. Qed.

Lemma land_mask2 b : Z.land b mask2 = b mod 32.
Proof. change mask2 with (Z.ones 5). rewrite Z.land_ones by lia. reflexivity. Qed.

Lemma land_mask3 b : Z.land b mask3 = b mod 16.
Proof. change mask3 with (Z.ones 4). rewrite Z.land_ones by lia. reflexivity. Qed.

Lemma land_mask4 b : Z.land b mask4 = b mod 8.
Proof. change mask4 with (Z.ones 3). rewrite Z.land_ones by lia. reflexivity. Qed.

Lemma byte_of_range c : 0 <= byte_of c < 256.
Proof.
  unfold byte_of. pose proof (N_ascii_bounded c) as Hb. lia.
Qed.

Lemma byte_of_inj c d : byte_of c = byte_of d -> c = d.
Proof.
  unfold byte_of. intros E. apply N2Z.inj in E.
  rewrite <- (ascii_N_embedding c), <- (ascii_N_embedding d). congruence.
Qed.

Lemma bytes_range s : Forall (fun b => 0 <= b < 256) (bytes s).
Proof.
  unfold bytes. apply List.Forall_forall. intros b Hb.
  apply in_map_iff in Hb as (c & <- & _). apply byte_of_range.
Qed.

(** An ASCII byte decodes to itself. *)
Lemma decode_ascii_head b t : 0 <= b < 128 -> decode (b :: t) = b :: decode t.
Proof.
  intros Hb. cbn [decode]. unfold first.
  destruct (b <? 128) eqn:E; [reflexivity | lia].
Qed.

Lemma decode_ascii w : Forall (fun b => 0 <= b < 128) w -> decode w = w.
Proof.
  induction 1 as [|b t Hb _ IH]; [reflexivity|].
  rewrite decode_ascii_head by assumption. congruence.
Qed.

Ltac eval_closed :=
  repeat match goal with
         | |- context [acceptRanges ?e] =>
           let v := eval vm_compute in (acceptRanges e) in
           change (acceptRanges e) with v
         | |- context [Z.land ?k 7] =>
           let v := eval vm_compute in (Z.land k 7) in change (Z.land k 7) with v
         | |- context [as_ <=? ?k] =>
           let v := eval vm_compute in (as_ <=? k) in change (as_ <=? k) with v
         | |- context [?k =? xx] =>
           let v := eval vm_compute in (k =? xx) in change (k =? xx) with v
         | |- context [?k <=? 2] =>
           let v := eval vm_compute in (k <=? 2) in change (k <=? 2) with v
         | |- context [?k <=? 3] =>
           let v := eval vm_compute in (k <=? 3) in change (k <=? 3) with v
         end; cbv beta iota zeta.

Ltac lor_bound :=
  repeat match goal with
         | |- context [Z.lor ?a ?b] =>
           lazymatch a with context [Z.lor _ _] => fail | _ => idtac end;
           generalize (lor_lower a b); generalize (Z.lor a b); intros
         end.

(** A byte that is not ASCII starts a rune that is not ASCII. *)
Lemma decode_high_head b t :
  128 <= b < 256 -> Forall (fun b => 0 <= b < 256) t ->
  exists r rest, decode (b :: t) = r :: rest /\ 128 <= r.
Proof.
  intros Hb Ht. cbn [decode]. generalize (decode t). intros d0. unfold first.
  repeat match goal with
         | |- context [if ?c then _ else _] =>
           lazymatch c with
           | (b <? _) => destruct c eqn:?
           | (b =? _) => destruct c eqn:?
           end
         end; try lia;
  eval_closed;
  repeat match goal with
         | |- exists r rest, ?x :: ?y = r :: rest /\ _ =>
           exists x, y; split; [reflexivity|]
         | |- context [match ?l with [] => _ | _ :: _ => _ end] =>
           destruct l as [|? ?]
         | |- context [if ?c then _ else _] => destruct c eqn:?
         | H : Forall _ (_ :: _) |- _ => inversion H; subst; clear H
         end;
  try (unfold RuneError; lia);
  rewrite ?land_maskx, ?land_mask2, ?land_mask3, ?land_mask4,
    ?Z.shiftl_mul_pow2 by lia;
  unfold locb, hicb in *;
  repeat match goal with
         | H : (_ || _) = false |- _ => apply orb_false_iff in H as [? ?]
         end;
  change (2 ^ 6) with 64; change (2 ^ 12) with 4096; change (2 ^ 18) with 262144;
  lor_bound; Z.div_mod_to_equations; lia.
Qed.

(** Text whose runes are all ASCII is ASCII text, and its runes are its
    bytes. *)
Lemma decode_all_ascii w :
  Forall (fun b => 0 <= b < 256) w ->
  Forall (fun r => r < 128) (decode w) ->
  decode w = w.
Proof.
  induction w as [|b t IH]; intros Hw Hd; [reflexivity|].
  inversion Hw as [|? ? Hb Ht]; subst.
  destruct (Z_lt_ge_dec b 128) as [Hlo | Hhi].
  - rewrite decode_ascii_head in * by lia.
    inversion Hd; subst. f_equal. auto.
  - destruct (decode_high_head b t) as (r & rest & E & Hr); [lia | assumption |].
    rewrite E in Hd. inversion Hd; subst. lia.
Qed.

End Utf8Facts.

(** ** The language of the snake_case pattern *)

Module PatternFacts.
Import Regexp RegexpFacts Grammar Testsnake.

Lemma Lang_Star_Class cl w :
  Lang (Star (Class cl)) w <-> Forall (fun c => in_class cl c = true) w.
Proof.
  split.
  - intros HL. remember (Star (Class cl)) as r eqn:Er.
    induction HL; try discriminate.
    + constructor.
    + injection Er as ->.
      apply Lang_Class_inv in HL1 as (c & -> & Hc).
      constructor; auto.
  - induction 1 as [|c w Hc _ IH]; [constructor|].
    apply (LStarCons _ [c] w); [constructor|]; assumption.
Qed.

Lemma Lang_Plus_Class cl w :
  Lang (Plus (Class cl)) w <-> w <> [] /\ Forall (fun c => in_class cl c = true) w.
Proof.
  split.
  - intros HL. apply Lang_Plus_inv in HL as (u & v & -> & Hu & Hv).
    apply Lang_Class_inv in Hu as (c & -> & Hc).
    apply Lang_Star_Class in Hv. split; [discriminate|]. constructor; assumption.
  - intros [Hne Hall]. destruct Hall as [|c w Hc Hw]; [contradiction|].
    apply (LPlus _ [c] w); [constructor; assumption|]. apply Lang_Star_Class. assumption.
Qed.

Lemma Lang_run w : Lang (Plus (Class alnum)) w <-> runZ w.
Proof. apply Lang_Plus_Class. Qed.

Lemma Lang_tail w :
  Lang (Star (Cat (Class underscore) (Plus (Class alnum)))) w <->
  exists runs, Forall runZ runs /\ w = flat_map (cons 0x5F) runs.
Proof.
  split.
  - intros HL.
    remember (Star (Cat (Class underscore) (Plus (Class alnum)))) as r eqn:Er.
    induction HL; try discriminate.
    + exists []. split; [constructor | reflexivity].
    + injection Er as ->.
      destruct (IHHL2 eq_refl) as (runs & Hruns & ->).
      apply Lang_Cat_inv in HL1 as (x & y & -> & Hx & Hy).
      apply Lang_Class_inv in Hx as (c & -> & Hc).
      assert (c = 0x5F) as ->.
      { unfold in_class, underscore in Hc. simpl in Hc. lia. }
      apply Lang_run in Hy.
      exists (y :: runs). split; [constructor; assumption|].
      reflexivity.
  - intros (runs & Hruns & ->).
    induction Hruns as [|y runs Hy _ IH]; [constructor|].
    simpl. change (0x5F :: y ++ flat_map (cons 0x5F) runs)
      with ((0x5F :: y) ++ flat_map (cons 0x5F) runs).
    apply LStarCons; [|assumption].
    apply (LCat _ _ [0x5F] y); [constructor; reflexivity|].
    apply Lang_run. assumption.
Qed.

(** The pattern describes the runs joined by underscores. *)
Lemma Lang_snakeCasePattern w : Lang snakeCasePattern w <-> snakeZ w.
Proof.
  unfold snakeCasePattern, snakeZ. split.
  - intros HL. apply Lang_Cat_inv in HL as (u & v & -> & Hu & Hv).
    apply Lang_run in Hu. apply Lang_tail in Hv as (runs & Hruns & ->).
    exists (u :: runs). split; [discriminate|]. split; [constructor; assumption | reflexivity].
  - intros (runs & Hne & Hruns & ->).
    destruct Hruns as [|u runs Hu Hruns]; [contradiction|].
    simpl. apply LCat; [apply Lang_run; assumption|].
    apply Lang_tail. exists runs. auto.
Qed.

(** What a character of a run is. *)
Lemma alnumZ_range c : alnumZ c <-> (0x61 <= c <= 0x7A) \/ (0x30 <= c <= 0x39).
Proof. unfold alnumZ, in_class, alnum. simpl. lia. Qed.

Lemma snakeZ_chars w :
  snakeZ w -> Forall (fun c => alnumZ c \/ c = 0x5F) w.
Proof.
  intros (runs & _ & Hruns & ->).
  destruct Hruns as [|u runs Hu Hruns]; [constructor|].
  simpl. apply List.Forall_app. split.
  - destruct Hu as [_ Hu]. eapply List.Forall_impl; [|exact Hu]. auto.
  - induction Hruns as [|y runs [_ Hy] _ IH]; [constructor|].
    simpl. constructor; [auto|]. apply List.Forall_app. split; [|assumption].
    eapply List.Forall_impl; [|exact Hy]. auto.
Qed.

(** Splitting at an occurrence of [x] a word whose first [x] is known. *)
Lemma split_at_first (x : Z) r :
  ~ In x r ->
  forall W a b, r ++ x :: W = a ++ x :: b ->
    (a = r /\ b = W) \/ exists a', a = r ++ x :: a' /\ W = a' ++ x :: b.
Proof.
  induction r as [|y r IH]; intros Hx W a b E.
  - destruct a as [|y' a'']; simpl in E; inversion E; subst.
    + left. auto.
    + right. exists a''. auto.
  - destruct a as [|y' a'']; simpl in E; inversion E; subst.
    + exfalso. apply Hx. left. reflexivity.
    + destruct (IH (fun H => Hx (or_intror H)) W a'' b) as [[-> ->] | (a' & -> & ->)];
        [assumption | |].
      * left. auto.
      * right. exists a'. auto.
Qed.

Lemma runZ_no_underscore r : runZ r -> ~ In 0x5F r.
Proof.
  intros [_ Hr] Hin. rewrite List.Forall_forall in Hr.
  apply Hr, alnumZ_range in Hin. lia.
Qed.

Lemma runZ_head r : runZ r -> exists c r', r = c :: r' /\ c <> 0x5F.
Proof.
  intros [Hne Hr]. destruct Hr as [|c r' Hc _]; [contradiction|].
  exists c, r'. split; [reflexivity|]. apply alnumZ_range in Hc. lia.
Qed.

(** In a snake_case word every underscore is followed by a character
    that is not an underscore. *)
Lemma underscore_followed rest :
  Forall runZ rest ->
  forall r a b, runZ r -> r ++ flat_map (cons 0x5F) rest = a ++ 0x5F :: b ->
    exists c b', b = c :: b' /\ c <> 0x5F.
Proof.
  induction 1 as [|r' rest Hr' _ IH]; intros r a b Hr E.
  - simpl in E. rewrite app_nil_r in E. exfalso.
    apply (runZ_no_underscore r Hr). rewrite E. apply in_elt.
  - simpl in E.
    destruct (split_at_first 0x5F r (runZ_no_underscore r Hr) _ _ _ E)
      as [[-> ->] | (a' & -> & E')].
    + destruct (runZ_head r' Hr') as (c & r'' & -> & Hc).
      exists c, (r'' ++ flat_map (cons 0x5F) rest). auto.
    + exact (IH r' a' b Hr' E').
Qed.

Lemma snakeZ_shape w :
  snakeZ w ->
  (forall t, w <> 0x5F :: t)
  /\ (forall t, w <> t ++ [0x5F])
  /\ (forall a b, w <> a ++ 0x5F :: 0x5F :: b)
  /\ (exists c, In c w /\ c <> 0x5F).
Proof.
  intros (runs & Hne & Hruns & ->).
  destruct Hruns as [|r rest Hr Hrest]; [contradiction|]. simpl.
  destruct (runZ_head r Hr) as (c & r' & -> & Hc).
  repeat split.
  - intros t E. simpl in E. injection E as E _. contradiction.
  - intros t E.
    destruct (underscore_followed rest Hrest (c :: r') t [] Hr E) as (? & ? & ? & _).
    discriminate.
  - intros a b E.
    destruct (underscore_followed rest Hrest (c :: r') a _ Hr E) as (c' & ? & E' & Hc').
    injection E' as E' _. congruence.
  - exists c. split; [left; reflexivity | assumption].
Qed.

End PatternFacts.

(** ** Text and its bytes *)

Module BytesFacts.
Import Utf8 Utf8Facts Grammar PatternFacts.

Lemma bytes_String c s : bytes (String c s) = byte_of c :: bytes s.
Proof. reflexivity. Qed.

Lemma bytes_app a b : bytes (a ++ b)%string = bytes a ++ bytes b.
Proof.
  induction a as [|c a IH]; [reflexivity|].
  unfold bytes in *. simpl. rewrite IH. reflexivity.
Qed.

Lemma bytes_inj s : forall t, bytes s = bytes t -> s = t.
Proof.
  induction s as [|c s IH]; intros [|d t] E; try discriminate; [reflexivity|].
  rewrite !bytes_String in E. injection E as Hc Ht.
  apply byte_of_inj in Hc. apply IH in Ht. congruence.
Qed.

Lemma bytes_unbytes w : Forall (fun b => 0 <= b < 256) w -> bytes (unbytes w) = w.
Proof.
  induction 1 as [|b w Hb _ IH]; [reflexivity|].
  unfold unbytes in *. simpl. rewrite bytes_String, IH. f_equal.
  unfold byte_of. rewrite N_ascii_embedding by lia. lia.
Qed.

Lemma bytes_nil s : bytes s = [] <-> s = "".
Proof. destruct s; split; intros E; try discriminate; reflexivity. Qed.

Lemma bytes_concat runs :
  bytes (String.concat "_" runs) = joinZ (map bytes runs).
Proof.
  destruct runs as [|r rest]; [reflexivity|].
  revert r. induction rest as [|r' rest IH]; intros r.
  - simpl. rewrite app_nil_r. reflexivity.
  - change (String.concat "_" (r :: r' :: rest))
      with (r ++ "_" ++ String.concat "_" (r' :: rest))%string.
    rewrite !bytes_app, IH. reflexivity.
Qed.

Lemma lower_or_digit_alnumZ c : lower_or_digit c = true <-> alnumZ (byte_of c).
Proof.
  unfold lower_or_digit, alnumZ, Regexp.in_class, Testsnake.alnum. simpl.
  rewrite orb_false_r. reflexivity.
Qed.

Lemma is_run_bytes r : is_run r <-> runZ (bytes r).
Proof.
  unfold is_run, runZ. rewrite bytes_nil. unfold bytes. rewrite List.Forall_map.
  split; intros [Hne Hall]; (split; [assumption|]);
    (eapply List.Forall_impl; [|exact Hall]); intros c; apply lower_or_digit_alnumZ.
Qed.

Lemma runZ_range r : runZ r -> Forall (fun b => 0 <= b < 256) r.
Proof.
  intros [_ Hr]. eapply List.Forall_impl; [|exact Hr].
  intros c Hc. apply alnumZ_range in Hc. lia.
Qed.

(** A text is snake_case when its bytes are. *)
Lemma snake_case_bytes s : snake_case s <-> snakeZ (bytes s).
Proof.
  split.
  - intros (runs & Hne & Hruns & ->). exists (map bytes runs).
    split; [destruct runs; [contradiction | discriminate]|].
    split; [|apply bytes_concat].
    apply List.Forall_map. eapply List.Forall_impl; [|exact Hruns].
    intros r. apply is_run_bytes.
  - intros (runsZ & Hne & Hruns & E). exists (map unbytes runsZ).
    assert (Hmap : map bytes (map unbytes runsZ) = runsZ).
    { clear Hne E. induction Hruns as [|r rest Hr _ IH]; [reflexivity|].
      simpl. rewrite IH, bytes_unbytes by (apply runZ_range; assumption). reflexivity. }
    split; [destruct runsZ; [contradiction | discriminate]|].
    split.
    + apply List.Forall_map. rewrite List.Forall_forall in Hruns.
      apply List.Forall_forall. intros r Hr.
      apply is_run_bytes. rewrite bytes_unbytes; [auto|]. apply runZ_range. auto.
    + apply bytes_inj. rewrite bytes_concat, Hmap. assumption.
Qed.

End BytesFacts.

(** ** The convention validator *)

Module ValidatorFacts.
Import Utf8 Utf8Facts Regexp RegexpFacts Grammar PatternFacts BytesFacts Testsnake.

Section WithTables.
Context `{UnicodeTables}.

Lemma IsUpper_snake_char c : alnumZ c \/ c = 0x5F -> IsUpper c = false.
Proof.
  intros Hc. rewrite alnumZ_range in Hc. unfold IsUpper, MaxLatin1.
  destruct (c <=? 255) eqn:E; lia.
Qed.

(** The runes of a snake_case text are its bytes. *)
Lemma snakeZ_runes s : snakeZ (runes s) <-> snakeZ (bytes s).
Proof.
  unfold runes. split; intros Hs.
  - rewrite decode_all_ascii in Hs; [assumption | apply bytes_range |].
    apply snakeZ_chars in Hs. eapply List.Forall_impl; [|exact Hs].
    intros c [Hc | ->]; [apply alnumZ_range in Hc|]; lia.
  - rewrite decode_ascii; [assumption|].
    apply snakeZ_chars in Hs. eapply List.Forall_impl; [|exact Hs].
    intros c [Hc | ->]; [apply alnumZ_range in Hc|]; lia.
Qed.

Lemma MatchString_snake s : MatchString snakeCasePattern s = true <-> snake_case s.
Proof.
  unfold MatchString.
  rewrite matches_spec, Lang_snakeCasePattern, snakeZ_runes, snake_case_bytes.
  reflexivity.
Qed.

Lemma MatchString_no_upper s :
  MatchString snakeCasePattern s = true -> existsb IsUpper (runes s) = false.
Proof.
  unfold MatchString. rewrite matches_spec, Lang_snakeCasePattern.
  intros Hs. apply snakeZ_chars in Hs.
  induction Hs as [|c w Hc _ IH]; [reflexivity|].
  simpl. rewrite IsUpper_snake_char by assumption. assumption.
Qed.

Lemma isValidSnakeCase_MatchString s :
  isValidSnakeCase s = MatchString snakeCasePattern s.
Proof.
  unfold isValidSnakeCase.
  destruct (String.eqb_spec s "") as [-> | _]; [reflexivity|].
  destruct (MatchString snakeCasePattern s) eqn:Hm.
  - rewrite MatchString_no_upper by assumption. reflexivity.
  - destruct (existsb IsUpper (runes s)); reflexivity.
Qed.

Lemma isValidSnakeCase_snake_case s : isValidSnakeCase s = true <-> snake_case s.
Proof. rewrite isValidSnakeCase_MatchString. apply MatchString_snake. Qed.

End WithTables.
End ValidatorFacts.

Section Validator.
Context `{UnicodeTables}.
Import Utf8 Grammar.

(** C1.  [isValidSnakeCase s] is [true] exactly when [s] is one or more
    runs of lower-case letters or digits joined by single underscores; a
    valid name has no leading, no trailing and no doubled underscore, has
    a character that is not an underscore, and has no upper-case code
    point; and the validator answers as listed on the seven names
    "add_positive_numbers", "AddPositiveNumbers", "_leading", "trailing_",
    "double__underscore", "test123" and the empty name. *)
Theorem isValidSnakeCase_grammar :
  (forall s, Testsnake.isValidSnakeCase s = true <-> snake_case s)
  /\ (forall s, Testsnake.isValidSnakeCase s = true ->
        (forall t, s <> ("_" ++ t)%string)
        /\ (forall t, s <> (t ++ "_")%string)
        /\ (forall a b, s <> (a ++ "__" ++ b)%string)
        /\ (exists c, In c (list_ascii_of_string s) /\ c <> "_"%char)
        /\ Forall (fun r => IsUpper r = false) (runes s))
  /\ Testsnake.isValidSnakeCase "add_positive_numbers" = true
  /\ Testsnake.isValidSnakeCase "AddPositiveNumbers" = false
  /\ Testsnake.isValidSnakeCase "_leading" = false
  /\ Testsnake.isValidSnakeCase "trailing_" = false
  /\ Testsnake.isValidSnakeCase "double__underscore" = false
  /\ Testsnake.isValidSnakeCase "test123" = true
  /\ Testsnake.isValidSnakeCase "" = false.
Proof.
  split; [apply ValidatorFacts.isValidSnakeCase_snake_case|].
  split; [|repeat split; vm_compute; reflexivity].
  intros s Hv.
  assert (Hup : existsb IsUpper (runes s) = false).
  { apply ValidatorFacts.MatchString_no_upper.
    rewrite <- ValidatorFacts.isValidSnakeCase_MatchString. assumption. }
  apply ValidatorFacts.isValidSnakeCase_snake_case, BytesFacts.snake_case_bytes,
    PatternFacts.snakeZ_shape in Hv as (Hlead & Htrail & Hdouble & c & Hin & Hc).
  repeat split.
  - intros t ->. apply (Hlead (bytes t)). reflexivity.
  - intros t ->. apply (Htrail (bytes t)). apply BytesFacts.bytes_app.
  - intros a b ->. apply (Hdouble (bytes a) (bytes b)).
    rewrite BytesFacts.bytes_app. reflexivity.
  - unfold bytes in Hin. apply in_map_iff in Hin as (a & <- & Hin).
    exists a. split; [assumption|]. intros ->. apply Hc. reflexivity.
  - apply List.Forall_forall. intros r Hr.
    destruct (IsUpper r) eqn:E; [|reflexivity].
    assert (existsb IsUpper (runes s) = true) by (apply existsb_exists; eauto).
    congruence.
Qed.

(** C9.  [isValidSnakeCase] answers as the match against the pattern
    alone: the scan for upper-case code points and the test for the empty
    name never change the outcome.  The function has the same text in
    [src/testsnake.go] and in [src/unnamed/part_001]. *)
Theorem isValidSnakeCase_is_pattern_match :
  (forall s, Testsnake.isValidSnakeCase s
             = Regexp.MatchString Testsnake.snakeCasePattern s)
  /\ (forall s, Part001.isValidSnakeCase s
                = Regexp.MatchString Testsnake.snakeCasePattern s)
  /\ (forall s, Regexp.MatchString Testsnake.snakeCasePattern s = true ->
                existsb IsUpper (runes s) = false).
Proof.
  split; [apply ValidatorFacts.isValidSnakeCase_MatchString|].
  split; [apply ValidatorFacts.isValidSnakeCase_MatchString|].
  apply ValidatorFacts.MatchString_no_upper.
Qed.

End Validator.

(** ** Traversal *)

Module InspectFacts.
Import Ast.

Lemma node_children_ind (P : node -> Prop) :
  (forall n, Forall P (children n) -> P n) -> forall n, P n.
Proof.
  intros Hstep.
  assert (Hopt : forall o : option node,
             match o with Some c => P c | None => True end ->
             Forall P (match o with Some c => [c] | None => [] end)).
  { intros [c|] Hc; repeat constructor. assumption. }
  assert (Hid : forall id, P (Ident id)) by (intros id; apply Hstep; constructor).
  apply node_induction; intros; apply Hstep; simpl;
    repeat first [ apply List.Forall_app; split | apply Hopt | assumption
                 | constructor ]; auto.
  apply List.Forall_map. apply List.Forall_forall. intros; apply Hid.
Qed.

Lemma preorder_children n : preorder n = n :: flat_map preorder (children n).
Proof.
  destruct n; simpl; f_equal;
    repeat match goal with
           | |- context [match ?o with Some _ => _ | None => _ end] => destruct o
           end;
    simpl; rewrite ?flat_map_app, ?app_nil_r, <- ?app_assoc; simpl; try reflexivity.
  all: f_equal; induction Names as [|id names IH]; simpl; congruence.
Qed.

Section Callback.
Context {S : Type} (f : node -> S -> S * bool).

Lemma Inspect_leaf id s : Inspect f (Ident id) s = leaf f (Ident id) s.
Proof. unfold leaf. simpl. destruct (f (Ident id) s) as [s0 []]; reflexivity. Qed.

Lemma Inspect_names names :
  forall s,
    fold_left (fun a id => leaf f (Ident id) a) names s =
    fold_left (fun a c => Inspect f c a) (map Ident names) s.
Proof.
  induction names as [|id names IH]; intros s; [reflexivity|].
  cbn [fold_left map]. rewrite Inspect_leaf. apply IH.
Qed.

Lemma Inspect_children n s :
  Inspect f n s =
  let '(s0, descend) := f n s in
  if descend then fold_left (fun a c => Inspect f c a) (children n) s0 else s0.
Proof.
  destruct n; cbn [Inspect]; destruct (f _ s) as [s0 []]; try reflexivity;
    cbn [children];
    repeat match goal with
           | |- context [match ?o with Some _ => _ | None => _ end] => destruct o
           end;
    cbn [fold_left app];
    rewrite ?fold_left_app, ?Inspect_leaf, ?Inspect_names; cbn [fold_left];
    reflexivity.
Qed.

(** A function literal that always returns [true] sees every node. *)
Lemma Inspect_preorder :
  (forall n s, snd (f n s) = true) ->
  forall n s, Inspect f n s = fold_left (fun a m => fst (f m a)) (preorder n) s.
Proof.
  intros Htrue n. induction n as [n IH] using node_children_ind. intros s.
  rewrite Inspect_children, preorder_children. simpl.
  specialize (Htrue n s). destruct (f n s) as [s0 d]. simpl in *. subst d.
  generalize s0. clear s0 s. induction IH as [|c cs Hc _ IHcs]; intros s; [reflexivity|].
  simpl. rewrite fold_left_app, Hc. apply IHcs.
Qed.

End Callback.

(** Function literals that, at the nodes where [hit] answers, store the
    answer and return [false], and elsewhere keep the state and return
    [true]. *)
Section Overwrite.
Context {S : Type} (hit : node -> option S) (f : node -> S -> S * bool).
Hypothesis f_hit :
  forall n s, f n s = match hit n with Some v => (v, false) | None => (s, true) end.

Local Abbreviation hits := (Ast.hits hit).

Lemma hits_children n :
  hits n = match hit n with Some v => [v] | None => [] end ++ flat_map hits (children n).
Proof.
  unfold hits at 1. rewrite preorder_children. simpl. f_equal.
  induction (children n) as [|c cs IH]; [reflexivity|].
  simpl. rewrite flat_map_app, IH. reflexivity.
Qed.

(** The final state is the initial one or one of the answers. *)
Lemma Inspect_overwrite n : forall s, Inspect f n s = s \/ In (Inspect f n s) (hits n).
Proof.
  induction n as [n IH] using node_children_ind. intros s.
  rewrite Inspect_children, hits_children, f_hit.
  destruct (hit n) as [v|]; [right; left; reflexivity|]. simpl.
  revert s. induction IH as [|c cs Hc _ IHcs]; intros s; simpl; [auto|].
  destruct (IHcs (Inspect f c s)) as [E | Hin].
  - rewrite E. destruct (Hc s) as [E' | Hin]; [auto|].
    right. apply in_or_app. auto.
  - right. apply in_or_app. auto.
Qed.

Lemma Inspect_overwrite_none n s : hits n = [] -> Inspect f n s = s.
Proof.
  intros Hn. destruct (Inspect_overwrite n s) as [E | Hin]; [assumption|].
  rewrite Hn in Hin. destruct Hin.
Qed.


End Overwrite.

End InspectFacts.

(** ** The function literal of [run] *)

Module RunFacts.
Import Ast Analysis InspectFacts Testsnake.

Lemma Kind_eqb_eq a b : Kind_eqb a b = true <-> a = b.
Proof. destruct a, b; simpl; split; congruence. Qed.

Lemma Value_eqb_eq a b : Value_eqb a b = true <-> a = b.
Proof.
  destruct a as [ka sa], b as [kb sb]. unfold Value_eqb. simpl.
  rewrite andb_true_iff, Kind_eqb_eq, String.eqb_eq. split.
  - intros [-> ->]. reflexivity.
  - intros E. injection E as -> ->. auto.
Qed.

Lemma Object_eqb_eq a b : Object_eqb a b = true <-> a = b.
Proof.
  destruct a, b; simpl; try (split; congruence);
    rewrite ?andb_true_iff, ?Value_eqb_eq, ?Z.eqb_eq; split;
    try (intros [-> ->]; reflexivity); try (intros ->; reflexivity);
    intros E; injection E; auto.
Qed.

Lemma same_object_eq o obj : same_object o obj = true <-> o = Some obj.
Proof.
  destruct o as [o'|]; simpl; [|split; discriminate].
  rewrite Object_eqb_eq. split; congruence.
Qed.

Section WithTables.
Context `{UnicodeTables}.

Lemma fold_caseReports tcs :
  forall d,
    fold_left
      (fun d tc =>
         if negb (String.eqb (value tc) "") && negb (isValidSnakeCase (value tc))
         then Reportf d (pos tc) (value tc) else d)
      tcs d
    = d ++ caseReports tcs.
Proof.
  unfold caseReports.
  induction tcs as [|tc tcs IH]; intros d; simpl; [rewrite app_nil_r; reflexivity|].
  rewrite IH. unfold Reportf.
  destruct (negb _ && negb _); [rewrite <- app_assoc|]; reflexivity.
Qed.

(** What is reported at a sub-test call. *)
Lemma run_func_candidate pass x sel firstArg body rest rparen d :
  Name sel = "Run" -> isTestingType pass x = true ->
  let call := CallExpr (SelectorExpr x sel) (firstArg :: body :: rest) rparen in
  run_func pass call d =
  (d ++ (if (0 <? length (testCases pass firstArg))%nat
         then caseReports (testCases pass firstArg)
         else nameReport (Pos call) (strVal pass firstArg)),
   true).
Proof.
  intros Hsel Hty call. unfold call, run_func. rewrite Hsel, Hty.
  cbn [String.eqb Ascii.eqb Bool.eqb negb length Nat.ltb Nat.leb].
  assert (Hdirect :
            testCases pass firstArg = [] ->
            (let testName := strVal pass firstArg in
             if String.eqb testName "" then (d, true)
             else if negb (isValidSnakeCase testName)
                  then (Reportf d (Pos (CallExpr (SelectorExpr x sel)
                                          (firstArg :: body :: rest) rparen)) testName, true)
                  else (d, true))
            = (d ++ nameReport (Pos (CallExpr (SelectorExpr x sel)
                                       (firstArg :: body :: rest) rparen))
                      (strVal pass firstArg), true)).
  { intros _. unfold nameReport, Reportf. cbv zeta.
    destruct (String.eqb (strVal pass firstArg) ""); [rewrite app_nil_r; reflexivity|].
    destruct (negb _); [|rewrite app_nil_r]; reflexivity. }
  destruct firstArg as [| |X Sel| | | | | | |];
    try (cbn [testCases length Nat.ltb Nat.leb]; apply Hdirect; reflexivity).
  destruct X;
    try (cbn [testCases length Nat.ltb Nat.leb]; apply Hdirect; reflexivity).
  cbn [testCases]. rewrite fold_caseReports.
  destruct (extractValuesWithPosFromRange pass id (Name Sel)) as [|tc tcs] eqn:E.
  - cbn [length Nat.ltb Nat.leb caseReports flat_map]. rewrite app_nil_r.
    apply Hdirect. cbn [testCases]. assumption.
  - reflexivity.
Qed.

(** The function literal of [run] appends what it reports and goes on. *)
Lemma run_func_reported pass n d : run_func pass n d = (d ++ reported pass n, true).
Proof.
  assert (Hnil : (d, true) = (d ++ fst (@pair (list Diagnostic) bool [] true), true))
    by (simpl; rewrite app_nil_r; reflexivity).
  unfold reported.
  destruct n as [| | |fn args rp| | | | | |]; try exact Hnil.
  destruct fn as [| |x sel| | | | | | |]; try exact Hnil.
  destruct (String.eqb (Name sel) "Run") eqn:Hsel;
    [|unfold run_func; rewrite Hsel; exact Hnil].
  destruct (isTestingType pass x) eqn:Hty;
    [|unfold run_func; rewrite Hsel, Hty; exact Hnil].
  destruct args as [|firstArg [|body rest]];
    [unfold run_func; rewrite Hsel, Hty; exact Hnil
    |unfold run_func; rewrite Hsel, Hty; exact Hnil|].
  apply String.eqb_eq in Hsel.
  rewrite !run_func_candidate by assumption. reflexivity.
Qed.

Lemma reported_candidate pass x sel firstArg body rest rparen :
  Name sel = "Run" -> isTestingType pass x = true ->
  let call := CallExpr (SelectorExpr x sel) (firstArg :: body :: rest) rparen in
  reported pass call =
  if (0 <? length (testCases pass firstArg))%nat
  then caseReports (testCases pass firstArg)
  else nameReport (Pos call) (strVal pass firstArg).
Proof.
  intros Hsel Hty call. unfold reported, call.
  rewrite run_func_candidate by assumption. reflexivity.
Qed.

Lemma Inspect_run_func pass n d :
  Inspect (run_func pass) n d = d ++ flat_map (reported pass) (preorder n).
Proof.
  rewrite Inspect_preorder by (intros; rewrite run_func_reported; reflexivity).
  generalize (preorder n). intros l. revert d.
  induction l as [|m l IH]; intros d; simpl; [rewrite app_nil_r; reflexivity|].
  rewrite run_func_reported. simpl. rewrite IH, <- app_assoc. reflexivity.
Qed.

(** [run] reports, file by file and node by node, what its function
    literal reports. *)
Lemma run_preorder pass :
  run pass =
  flat_map
    (fun file =>
       if Strings.HasSuffix (FileName file) "_test.go"
       then flat_map (reported pass) (preorder (Syntax file)) else [])
    (Files pass).
Proof.
  unfold run.
  assert (Hgen : forall files d,
             fold_left
               (fun diags file =>
                  if negb (Strings.HasSuffix (FileName file) "_test.go") then diags
                  else Inspect (run_func pass) (Syntax file) diags)
               files d
             = d ++ flat_map
                      (fun file =>
                         if Strings.HasSuffix (FileName file) "_test.go"
                         then flat_map (reported pass) (preorder (Syntax file)) else [])
                      files).
  { induction files as [|file files IH]; intros d; simpl; [rewrite app_nil_r; reflexivity|].
    rewrite IH. destruct (Strings.HasSuffix (FileName file) "_test.go"); simpl.
    - rewrite Inspect_run_func, <- app_assoc. reflexivity.
    - reflexivity. }
  apply Hgen.
Qed.

End WithTables.
End RunFacts.

(** ** The value resolver on variables *)

Module ResolverFacts.
Import Ast Analysis InspectFacts Testsnake Stated RunFacts.

Lemma skipn_nth_error {A} (l : list A) :
  forall i x, nth_error l i = Some x -> skipn i l = x :: skipn (S i) l.
Proof.
  induction l as [|a l IH]; intros [|i] x E; try discriminate; simpl in *.
  - injection E as ->. rewrite skipn_O. reflexivity.
  - apply IH. assumption.
Qed.

(** The loop over the left-hand sides returns the first literal the
    statement assigns to the variable. *)
Lemma findVarDecl_loop_head pass obj rhs lhs :
  forall i,
    findVarDecl_loop pass obj rhs i lhs =
    option_map (fun v => Strings.Trim v quote)
      (head (assigned_in_stmt pass obj (AssignStmt lhs (skipn i rhs)))).
Proof.
  induction lhs as [|l lhs IH]; intros i; [reflexivity|].
  cbn [findVarDecl_loop].
  destruct (nth_error rhs i) as [r|] eqn:En.
  - assert (Hlt : (i <? length rhs)%nat = true).
    { apply Nat.ltb_lt. apply nth_error_Some. congruence. }
    rewrite (skipn_nth_error rhs i r En). cbn [assigned_in_stmt combine flat_map].
    destruct l; rewrite ?Hlt, ?andb_true_r, ?IH; try reflexivity.
    destruct (same_object (ObjectOf pass id) obj); destruct r; rewrite ?IH; reflexivity.
  - assert (Hge : (length rhs <= i)%nat) by (apply nth_error_None; assumption).
    assert (Hlt : (i <? length rhs)%nat = false) by (apply Nat.ltb_ge; assumption).
    rewrite skipn_all2 by lia.
    destruct l; rewrite ?Hlt, ?andb_false_r, ?IH, ?skipn_all2 by lia;
      cbn [assigned_in_stmt]; rewrite ?combine_nil; reflexivity.
Qed.

Lemma findVarDecl_func_hit pass obj n s :
  findVarDecl_func pass obj n s =
  match option_map (fun v => Strings.Trim v quote) (head (assigned_in_stmt pass obj n)) with
  | Some v => (v, false)
  | None => (s, true)
  end.
Proof.
  destruct n; try reflexivity.
  unfold findVarDecl_func. rewrite findVarDecl_loop_head. reflexivity.
Qed.

(** First answers against all answers. *)
Section FirstOfEach.
Context {X Y : Type} (g : node -> list X) (T : X -> Y).

Let firsts (l : list node) : list Y :=
  flat_map (fun m => match option_map T (head (g m)) with Some v => [v] | None => [] end) l.



Lemma firsts_in l y : In y (firsts l) -> exists x, In x (flat_map g l) /\ y = T x.
Proof.
  induction l as [|m l IH]; [intros []|]. simpl.
  intros Hin. apply in_app_or in Hin as [Hin | Hin].
  - destruct (g m) as [|x xs]; simpl in Hin; [destruct Hin|].
    destruct Hin as [<- | []]. exists x. split; [left|]; reflexivity.
  - destruct (IH Hin) as (x & Hx & ->). exists x. split; [|reflexivity].
    apply in_or_app. auto.
Qed.

End FirstOfEach.

Section OneVariable.
Variable pass : Pass.
Variable obj : Object.

Let T (v : string) : string := Strings.Trim v quote.
Let lits (n : node) : list string := flat_map (assigned_in_stmt pass obj) (preorder n).
Let fileLits (files : list File) : list string :=
  flat_map (fun file => lits (Syntax file)) files.



Lemma findVarDecl_Inspect_in n s :
  Inspect (findVarDecl_func pass obj) n s = s
  \/ exists v, In v (lits n) /\ Inspect (findVarDecl_func pass obj) n s = T v.
Proof.
  destruct (Inspect_overwrite _ _ (findVarDecl_func_hit pass obj) n s) as [E | Hin];
    [left; assumption|].
  right. apply firsts_in in Hin as (v & Hv & E). eauto.
Qed.



Lemma findVarDecl_files_in files :
  forall s,
    findVarDecl_files pass obj files s = s
    \/ exists v, In v (fileLits files) /\ findVarDecl_files pass obj files s = T v.
Proof.
  induction files as [|file files IH]; intros s; [left; reflexivity|].
  cbn [findVarDecl_files].
  assert (Hhere :
            Inspect (findVarDecl_func pass obj) (Syntax file) s = s
            \/ exists v, In v (fileLits (file :: files))
                         /\ Inspect (findVarDecl_func pass obj) (Syntax file) s = T v).
  { destruct (findVarDecl_Inspect_in (Syntax file) s) as [E | (v & Hv & E)]; [auto|].
    right. exists v. split; [apply in_or_app; auto | assumption]. }
  destruct (negb _).
  - exact Hhere.
  - destruct (IH (Inspect (findVarDecl_func pass obj) (Syntax file) s))
      as [E | (v & Hv & E)].
    + rewrite E. exact Hhere.
    + right. exists v. split; [apply in_or_app; auto | assumption].
Qed.

End OneVariable.



End ResolverFacts.

Section VariableResolution.
Context `{UnicodeTables}.
Import Ast Analysis Testsnake Stated.


End VariableResolution.

(** ** Table-driven extraction *)

Module TableFacts.
Import Ast Analysis InspectFacts Testsnake Stated RunFacts.

Lemma rows_nonempty pass fieldName elts :
  forall values,
    Forall (fun tc => value tc <> "") values ->
    Forall (fun tc => value tc <> "")
      (extractValuesWithPosFromRange_rows pass fieldName elts values).
Proof.
  induction elts as [|elt elts IH]; intros values Hv; [assumption|].
  cbn [extractValuesWithPosFromRange_rows].
  destruct elt; try (apply IH; assumption).
  destruct (extractFieldValueWithPos pass Elts fieldName) as [fieldVal fieldPos].
  destruct (String.eqb_spec fieldVal ""); simpl; apply IH; [assumption|].
  apply List.Forall_app. split; [assumption|]. constructor; [assumption | constructor].
Qed.

Lemma collectionValues_nonempty pass fieldName rangeExpr :
  Forall (fun tc => value tc <> "") (collectionValues pass fieldName rangeExpr).
Proof.
  unfold collectionValues.
  match goal with
  | |- Forall _ match ?sl with _ => _ end => destruct sl as [[]|]
  end; try constructor.
  apply rows_nonempty. constructor.
Qed.

Lemma extract_unfold pass rangeVar fieldName :
  extractValuesWithPosFromRange pass rangeVar fieldName =
  match ObjectOf pass rangeVar with
  | None => []
  | Some obj =>
    match extractValuesWithPosFromRange_files1 pass obj (Files pass) None with
    | None => []
    | Some rangeExpr => collectionValues pass fieldName rangeExpr
    end
  end.
Proof. reflexivity. Qed.

(** The table never holds an empty name. *)
Lemma extract_nonempty pass rangeVar fieldName :
  Forall (fun tc => value tc <> "")
    (extractValuesWithPosFromRange pass rangeVar fieldName).
Proof.
  rewrite extract_unfold.
  destruct (ObjectOf pass rangeVar); [|constructor].
  destruct (extractValuesWithPosFromRange_files1 _ _ _ _); [|constructor].
  apply collectionValues_nonempty.
Qed.

Lemma binds_spec pass obj n :
  binds pass obj n = true <->
  exists p k v x body,
    n = RangeStmt p k (Some (Ident v)) x body /\ ObjectOf pass v = Some obj.
Proof.
  split.
  - destruct n as [| | | | | | |p k [[]|] x body| |]; try discriminate.
    simpl. intros Hb. apply same_object_eq in Hb. eauto 8.
  - intros (p & k & v & x & body & -> & Hv). simpl. apply same_object_eq. assumption.
Qed.

Section Range.
Variable pass : Pass.
Variable obj : Object.

Let hit (n : node) : option (option node) :=
  match n with
  | RangeStmt _ _ (Some (Ident v)) x _ =>
    if same_object (ObjectOf pass v) obj then Some (Some x) else None
  | _ => None
  end.

Lemma func1_hit n s :
  extractValuesWithPosFromRange_func1 pass obj n s =
  match hit n with Some v => (v, false) | None => (s, true) end.
Proof.
  destruct n as [| | | | | | |p k [[]|] x body| |]; try reflexivity.
  simpl. destruct (same_object _ _); reflexivity.
Qed.

Lemma hit_binds n r :
  hit n = Some r ->
  binds pass obj n = true /\ exists p k v x body, n = RangeStmt p k v x body /\ r = Some x.
Proof.
  destruct n as [| | | | | | |p k [[]|] x body| |]; try discriminate.
  simpl. destruct (same_object _ _); [|discriminate].
  intros E. injection E as <-. split; [reflexivity|]. eauto 8.
Qed.

Lemma not_binds_hit n : binds pass obj n = false -> hit n = None.
Proof.
  destruct n as [| | | | | | |p k [[]|] x body| |]; try reflexivity.
  simpl. intros ->. reflexivity.
Qed.

Lemma hits_in n r :
  In r (hits hit n) ->
  exists rs, In rs (preorder n) /\ binds pass obj rs = true
             /\ exists p k v x body, rs = RangeStmt p k v x body /\ r = Some x.
Proof.
  unfold hits. intros Hin. apply in_flat_map in Hin as (m & Hm & Hin).
  destruct (hit m) as [r'|] eqn:Eh; [|destruct Hin].
  destruct Hin as [<- | []]. apply hit_binds in Eh as [Hb Hx]. eauto.
Qed.

(** The range expression found is the collection of a range statement
    that binds the variable. *)
Lemma files1_found files x :
  extractValuesWithPosFromRange_files1 pass obj files None = Some x ->
  exists file rs,
    In file files /\ In rs (preorder (Syntax file)) /\ binds pass obj rs = true
    /\ exists p k v body, rs = RangeStmt p k v x body.
Proof.
  induction files as [|file files IH]; [discriminate|].
  cbn [extractValuesWithPosFromRange_files1].
  destruct (Inspect_overwrite hit _ func1_hit (Syntax file) None) as [E | Hin].
  - rewrite E. intros Hrest. destruct (IH Hrest) as (file' & rs & Hf & Hrs).
    exists file', rs. split; [right; assumption | assumption].
  - destruct (Inspect _ (Syntax file) None) as [x'|] eqn:Ei.
    + intros E. injection E as ->.
      apply hits_in in Hin as (rs & Hrs & Hb & p & k & v & x' & body & -> & E).
      injection E as <-.
      exists file, (RangeStmt p k v x body).
      split; [left; reflexivity|]. split; [assumption|]. split; [assumption|]. eauto.
    + intros Hrest. destruct (IH Hrest) as (file' & rs & Hf & Hrs).
      exists file', rs. split; [right; assumption | assumption].
Qed.

Lemma files1_none files :
  (forall file rs, In file files -> In rs (preorder (Syntax file)) ->
                   binds pass obj rs = false) ->
  extractValuesWithPosFromRange_files1 pass obj files None = None.
Proof.
  induction files as [|file files IH]; intros Hnone; [reflexivity|].
  cbn [extractValuesWithPosFromRange_files1].
  rewrite (Inspect_overwrite_none hit _ func1_hit).
  - apply IH. intros file' rs Hf. apply Hnone. right. assumption.
  - unfold hits.
    assert (Hall : forall m, In m (preorder (Syntax file)) -> hit m = None).
    { intros m Hm. apply not_binds_hit. apply (Hnone file); [left; reflexivity | assumption]. }
    induction (preorder (Syntax file)) as [|m l IHl]; [reflexivity|].
    simpl. rewrite (Hall m) by (left; reflexivity). simpl.
    apply IHl. intros m' Hm'. apply Hall. right. assumption.
Qed.

End Range.

End TableFacts.

(** ** String literals *)

Module LiteralFacts.
Import Strings Stated.

Lemma plain_content_no_quote text :
  plain_content text = true -> ~ In quote (list_ascii_of_string text).
Proof.
  unfold plain_content. rewrite forallb_forall. intros Hall Hin.
  specialize (Hall quote Hin). rewrite Ascii.eqb_refl in Hall. discriminate.
Qed.

Lemma In_snoc_text t c : In c (list_ascii_of_string (t ++ String c "")).
Proof.
  induction t as [|a t IH]; [left; reflexivity|].
  change (In c (a :: list_ascii_of_string (t ++ String c ""))). right. exact IH.
Qed.

(** Trimming the byte [c] off the right of a text that holds no [c],
    followed by one [c], gives the text. *)
Lemma trimRightByte_closing text c :
  ~ In c (list_ascii_of_string text) ->
  trimRightByte (text ++ String c "") c = text.
Proof.
  induction text as [|a text IH]; intros Hc.
  - change (trimRightByte (String c "") c = ""). cbn [trimRightByte].
    rewrite Ascii.eqb_refl. reflexivity.
  - change (trimRightByte (String a (text ++ String c "")) c = String a text).
    cbn [trimRightByte]. rewrite IH by (intros Hin; apply Hc; right; exact Hin).
    destruct text; [|reflexivity].
    destruct (Ascii.eqb_spec a c) as [-> | Hne]; [|reflexivity].
    exfalso. apply Hc. left. reflexivity.
Qed.

(** [strings.Trim] on the source text of a double-quoted literal without
    escape sequences gives the content. *)
Lemma Trim_plain_content text :
  plain_content text = true -> Trim (quoted text) quote = text.
Proof.
  intros Hplain. apply plain_content_no_quote in Hplain.
  unfold Trim, quoted.
  change (String quote (text ++ String quote ""))
    with (String quote text ++ String quote "")%string.
  destruct text as [|a text].
  - vm_compute. reflexivity.
  - assert (Hright : trimRightByte (String quote (String a text) ++ String quote "") quote
                     = String quote (String a text)).
    { change (trimRightByte
                (String quote (String a text ++ String quote "")) quote
              = String quote (String a text)).
      cbn [trimRightByte]. rewrite (trimRightByte_closing (String a text) quote Hplain).
      reflexivity. }
    rewrite Hright. cbn [trimLeftByte]. rewrite Ascii.eqb_refl.
    destruct (Ascii.eqb_spec a quote) as [-> | Hne]; [|reflexivity].
    exfalso. apply Hplain. left. reflexivity.
Qed.

End LiteralFacts.

Section CallSite.
Context `{UnicodeTables}.
Import Ast Analysis Testsnake Stated.

(** C2, as the code has it.  At a sub-test call: every name of the table
    that fails the validator is reported at its position; a directly
    resolved name that is not empty and fails the validator is reported,
    at the position of the call; and a name argument that resolves to the
    empty string is not reported. *)
Theorem invalid_nonempty_names_diagnosed pass x sel firstArg body rest rparen :
  Name sel = "Run" -> isTestingType pass x = true ->
  let call := CallExpr (SelectorExpr x sel) (firstArg :: body :: rest) rparen in
  (forall tc,
      In tc (testCases pass firstArg) -> isValidSnakeCase (value tc) = false ->
      In {| DiagPos := pos tc; DiagName := value tc |} (reported pass call))
  /\ (forall v,
        testCases pass firstArg = [] -> eval pass firstArg = (v, true) ->
        v <> "" -> isValidSnakeCase v = false ->
        reported pass call = [{| DiagPos := Pos call; DiagName := v |}])
  /\ (testCases pass firstArg = [] -> eval pass firstArg = ("", true) ->
      reported pass call = []).
Proof.
  intros Hsel Hty call. unfold call.
  rewrite RunFacts.reported_candidate by assumption.
  repeat split.
  - intros tc Hin Hbad.
    assert (Hne : value tc <> "").
    { destruct firstArg as [| |[] Sel| | | | | | |]; try (destruct Hin).
      pose proof (TableFacts.extract_nonempty pass id (Name Sel)) as Hall.
      rewrite List.Forall_forall in Hall. apply Hall. assumption. }
    destruct (testCases pass firstArg) as [|tc0 tcs] eqn:E; [destruct Hin|].
    cbn [length Nat.ltb Nat.leb]. rewrite <- E in *. clear E.
    unfold caseReports. apply in_flat_map. exists tc. split; [assumption|].
    rewrite Hbad. destruct (String.eqb_spec (value tc) ""); [contradiction|].
    left. reflexivity.
  - intros v Hnone Hev Hne Hbad. rewrite Hnone. cbn [length Nat.ltb Nat.leb].
    unfold strVal, nameReport. rewrite Hev, Hbad.
    destruct (String.eqb_spec v ""); [contradiction | reflexivity].
  - intros Hnone Hev. rewrite Hnone. cbn [length Nat.ltb Nat.leb].
    unfold strVal. rewrite Hev. reflexivity.
Qed.

(** C4, as the code has it.  When the table extraction for a selector
    name argument yields nothing, the call is resolved directly: nothing
    is reported unless the type checker folds the selector to a string
    constant, and then the constant, trimmed of its quotes, is validated
    and reported at the position of the call like any directly resolved
    name. *)
Theorem selector_without_table_resolved_directly
    pass x sel lv field body rest rparen :
  Name sel = "Run" -> isTestingType pass x = true ->
  extractValuesWithPosFromRange pass lv (Name field) = [] ->
  let arg := SelectorExpr (Ident lv) field in
  let call := CallExpr (SelectorExpr x sel) (arg :: body :: rest) rparen in
  reported pass call =
  match constantString pass arg with
  | None => []
  | Some name => nameReport (Pos call) name
  end.
Proof.
  intros Hsel Hty Hnone arg call. unfold call.
  rewrite RunFacts.reported_candidate by assumption.
  unfold arg. cbn [testCases]. rewrite Hnone. cbn [length Nat.ltb Nat.leb].
  unfold strVal, eval, constantString.
  destruct (Types pass (SelectorExpr (Ident lv) field)) as [[[v|]]|]; try reflexivity.
  destruct (ValueKind v); reflexivity.
Qed.

(** C5.  A call [obj.Run(name, body)] whose receiver does not have the
    type [*testing.T], [*testing.B] or [*testing.F] is not reported,
    whatever its name argument. *)
Theorem decoy_receiver_not_diagnosed pass x sel args rparen diags :
  TypeOf pass x <> Some "*testing.T" ->
  TypeOf pass x <> Some "*testing.B" ->
  TypeOf pass x <> Some "*testing.F" ->
  run_func pass (CallExpr (SelectorExpr x sel) args rparen) diags = (diags, true)
  /\ reported pass (CallExpr (SelectorExpr x sel) args rparen) = [].
Proof.
  intros HT HB HF.
  assert (Hty : isTestingType pass x = false).
  { unfold isTestingType. destruct (TypeOf pass x) as [typeStr|]; [|reflexivity].
    destruct (String.eqb_spec typeStr "*testing.T"); [congruence|].
    destruct (String.eqb_spec typeStr "*testing.B"); [congruence|].
    destruct (String.eqb_spec typeStr "*testing.F"); [congruence|].
    reflexivity. }
  unfold reported, run_func. rewrite Hty.
  destruct (negb (String.eqb (Name sel) "Run")); split; reflexivity.
Qed.

(** C7, as the code has it.  At a sub-test call whose name argument is
    a string literal every diagnostic stands at the position of the call
    expression; and when the literal is a double-quoted text without
    escape sequences the name resolves to exactly the text between the
    quotes, which is reported at the call when it is not empty and fails
    the validator. *)
Theorem literal_name_resolution pass x sel p lit body rest rparen :
  Name sel = "Run" -> isTestingType pass x = true ->
  let call := CallExpr (SelectorExpr x sel) (BasicLit p lit :: body :: rest) rparen in
  (forall d, In d (reported pass call) -> DiagPos d = Pos call)
  /\ (forall text,
        lit = quoted text -> plain_content text = true ->
        eval pass (BasicLit p lit) = (text, true)
        /\ strVal pass (BasicLit p lit) = text
        /\ reported pass call = nameReport (Pos call) text).
Proof.
  intros Hsel Hty call.
  assert (Hrep : reported pass call = nameReport (Pos call) (Strings.Trim lit quote)).
  { unfold call. rewrite RunFacts.reported_candidate by assumption. reflexivity. }
  split.
  - intros d Hd. rewrite Hrep in Hd. unfold nameReport in Hd.
    destruct (String.eqb (Strings.Trim lit quote) ""); [contradiction|].
    destruct (negb (isValidSnakeCase (Strings.Trim lit quote))); [|contradiction].
    destruct Hd as [<- | []]. reflexivity.
  - intros text -> Hplain.
    assert (E : Strings.Trim (quoted text) quote = text)
      by (apply LiteralFacts.Trim_plain_content; assumption).
    unfold strVal. cbn [eval]. rewrite Hrep, E. repeat split.
Qed.

End CallSite.

Section TableRange.
Import Ast Analysis Testsnake Stated.

(** X24.  The collection whose rows [extractValuesWithPosFromRange]
    returns for [loopVar.field] is the ranged expression of a range
    statement, in some file of the pass, whose per-element variable
    denotes the symbol of [loopVar]; when no range statement of the pass
    has such a variable the extraction yields nothing. *)
Theorem table_range_binds_loop_variable pass lv field obj :
  ObjectOf pass lv = Some obj ->
  (extractValuesWithPosFromRange pass lv field <> [] ->
   exists file p k v x body,
     In file (Files pass)
     /\ In (RangeStmt p k (Some (Ident v)) x body) (preorder (Syntax file))
     /\ ObjectOf pass v = Some obj
     /\ extractValuesWithPosFromRange pass lv field = collectionValues pass field x)
  /\ ((forall file p k v x body,
         In file (Files pass) ->
         In (RangeStmt p k (Some (Ident v)) x body) (preorder (Syntax file)) ->
         ObjectOf pass v <> Some obj) ->
      extractValuesWithPosFromRange pass lv field = []).
Proof.
  intros Hobj. rewrite TableFacts.extract_unfold, Hobj. split.
  - destruct (extractValuesWithPosFromRange_files1 pass obj (Files pass) None)
      as [x|] eqn:E; [|contradiction].
    intros _.
    apply TableFacts.files1_found in E
      as (file & rs & Hf & Hrs & Hb & p & k & v & body & ->).
    apply TableFacts.binds_spec in Hb as (p' & k' & v' & x' & body' & E & Hv).
    injection E as -> -> -> -> ->.
    exists file, p', k', v', x', body'. auto.
  - intros Hnone. rewrite TableFacts.files1_none; [reflexivity|].
    intros file rs Hf Hrs. destruct (binds pass obj rs) eqn:Hb; [|reflexivity].
    apply TableFacts.binds_spec in Hb as (p & k & v & x & body & -> & Hv).
    destruct (Hnone file p k v x body Hf Hrs Hv).
Qed.

End TableRange.

(** ** The two entry points *)

Module EntryFacts.
Import Ast Analysis InspectFacts Stated RunFacts.

Section WithTables.
Context `{UnicodeTables} `{Part001.MapOrder}.

Lemma fold_table_reports (l : list (string * Z)) :
  forall d,
    fold_left
      (fun d '(name, p) =>
         if negb (Part001.isValidSnakeCase name) then Testsnake.Reportf d p name else d)
      l d
    = d ++ fold_left
             (fun d '(name, p) =>
                if negb (Part001.isValidSnakeCase name) then Testsnake.Reportf d p name else d)
             l [].
Proof.
  induction l as [|[name p] l IH]; intros d; simpl; [rewrite app_nil_r; reflexivity|].
  rewrite IH. rewrite (IH (if negb _ then _ else _)).
  destruct (negb _); [unfold Testsnake.Reportf; rewrite <- app_assoc|]; reflexivity.
Qed.

(** The function literal of [run] of [part_001] appends what it reports
    and goes on. *)
Lemma part001_run_func_reported pass file n d :
  Part001.run_func pass file n d = (d ++ Part001.reported pass file n, true).
Proof.
  assert (Hnil : (d, true) = (d ++ fst (@pair (list Diagnostic) bool [] true), true))
    by (simpl; rewrite app_nil_r; reflexivity).
  unfold Part001.reported.
  destruct n as [| | |fn args rp| | | | | |]; try exact Hnil.
  destruct fn as [| |x sel| | | | | | |]; try exact Hnil.
  unfold Part001.run_func.
  destruct (negb (String.eqb (Name sel) "Run")); [exact Hnil|].
  destruct (negb (Part001.isTestingType pass x)); [exact Hnil|].
  destruct args as [|firstArg [|body rest]]; [exact Hnil | exact Hnil |].
  cbn [length Nat.ltb Nat.leb].
  assert (Hdirect :
            forall p name,
              (if String.eqb name "" then (d, true)
               else if negb (Part001.isValidSnakeCase name)
                    then (Testsnake.Reportf d p name, true) else (d, true))
              = (d ++ fst (if String.eqb name "" then (@nil Diagnostic, true)
                           else if negb (Part001.isValidSnakeCase name)
                                then (Testsnake.Reportf [] p name, true) else ([], true)),
                 true)).
  { intros p name. destruct (String.eqb name ""); [exact Hnil|].
    destruct (negb _); [reflexivity | exact Hnil]. }
  destruct firstArg; try apply Hdirect.
  cbn [fst]. rewrite fold_table_reports. reflexivity.
Qed.

Lemma part001_Inspect_run_func pass file n d :
  Inspect (Part001.run_func pass file) n d
  = d ++ flat_map (Part001.reported pass file) (preorder n).
Proof.
  rewrite Inspect_preorder by (intros; rewrite part001_run_func_reported; reflexivity).
  generalize (preorder n). intros l. revert d.
  induction l as [|m l IH]; intros d; simpl; [rewrite app_nil_r; reflexivity|].
  rewrite part001_run_func_reported. simpl. rewrite IH, <- app_assoc. reflexivity.
Qed.

Lemma part001_run_preorder pass :
  Part001.run pass =
  flat_map
    (fun file =>
       if Strings.HasSuffix (FileName file) "_test.go"
       then flat_map (Part001.reported pass (Syntax file)) (preorder (Syntax file))
       else [])
    (Files pass).
Proof.
  unfold Part001.run.
  assert (Hgen : forall files d,
             fold_left
               (fun diags file =>
                  if negb (Strings.HasSuffix (FileName file) "_test.go") then diags
                  else Inspect (Part001.run_func pass (Syntax file)) (Syntax file) diags)
               files d
             = d ++ flat_map
                      (fun file =>
                         if Strings.HasSuffix (FileName file) "_test.go"
                         then flat_map (Part001.reported pass (Syntax file))
                                (preorder (Syntax file))
                         else [])
                      files).
  { induction files as [|file files IH]; intros d; simpl; [rewrite app_nil_r; reflexivity|].
    rewrite IH. destruct (Strings.HasSuffix (FileName file) "_test.go"); simpl.
    - rewrite part001_Inspect_run_func, <- app_assoc. reflexivity.
    - reflexivity. }
  apply Hgen.
Qed.

(** On a plain name the two value resolvers agree. *)
Lemma strVal_plain pass a :
  plain_name pass a = true -> Testsnake.strVal pass a = Part001.getStringValue pass a.
Proof.
  destruct a as [id|p v| | | | | | | |]; try discriminate; [|reflexivity].
  unfold plain_name, Testsnake.strVal, Testsnake.eval, Part001.getStringValue,
    Part001.findVarDecl.
  destruct (ObjectOf pass id) as [[c konst|v|o]|]; try discriminate;
    destruct (Types pass (Ident id)) as [[[w|]]|]; try discriminate;
    rewrite ?andb_true_iff, ?Kind_eqb_eq, ?Value_eqb_eq; intros Hp.
  - destruct Hp as [Hk ->]. rewrite Hk. reflexivity.
  - rewrite Hp. reflexivity.
  - rewrite Hp. reflexivity.
  - destruct (negb _); reflexivity.
  - destruct (negb _); reflexivity.
Qed.

(** At a node whose sub-test call, if any, has a plain name the two
    function literals report the same. *)
Lemma reported_plain pass file n :
  plain_call pass n = true ->
  Testsnake.reported pass n = Part001.reported pass file n.
Proof.
  destruct n as [| | |fn args rp| | | | | |]; try reflexivity.
  destruct fn as [| |x sel| | | | | | |]; try reflexivity.
  destruct args as [|firstArg [|body rest]];
    [intros _; unfold Testsnake.reported, Part001.reported, Testsnake.run_func,
       Part001.run_func, Part001.isTestingType;
     destruct (negb _); [reflexivity|]; destruct (negb _); reflexivity ..|].
  cbn [plain_call].
  unfold Testsnake.reported, Part001.reported, Testsnake.run_func,
    Part001.run_func, Part001.isTestingType, Part001.isValidSnakeCase.
  destruct (negb (String.eqb (Name sel) "Run")); [reflexivity|].
  destruct (negb (Testsnake.isTestingType pass x)); [reflexivity|].
  cbn [orb length Nat.ltb Nat.leb]. intros Hp.
  rewrite <- (strVal_plain pass firstArg Hp).
  destruct firstArg; try discriminate; reflexivity.
Qed.

End WithTables.

(** The order of the map ranges only permutes what [part_001] reports. *)
Section TwoOrders.
Context `{UnicodeTables} (O1 O2 : Part001.MapOrder).

Lemma fold_table_flat_map (l : list (string * Z)) :
  fold_left
    (fun d '(name, p) =>
       if negb (Part001.isValidSnakeCase name) then Testsnake.Reportf d p name else d)
    l []
  = flat_map
      (fun '(name, p) =>
         if negb (Part001.isValidSnakeCase name)
         then [{| DiagPos := p; DiagName := name |}] else [])
      l.
Proof.
  induction l as [|[name p] l IH]; [reflexivity|].
  simpl. rewrite fold_table_reports, IH.
  destruct (negb _); reflexivity.
Qed.

Lemma reported_order pass file n :
  Permutation (Part001.reported (H0 := O1) pass file n)
              (Part001.reported (H0 := O2) pass file n).
Proof.
  destruct n as [| | |fn args rp| | | | | |]; try reflexivity.
  destruct fn as [| |x sel| | | | | | |]; try reflexivity.
  unfold Part001.reported, Part001.run_func.
  destruct (negb (String.eqb (Name sel) "Run")); [reflexivity|].
  destruct (negb (Part001.isTestingType pass x)); [reflexivity|].
  destruct args as [|firstArg [|body rest]]; [reflexivity | reflexivity |].
  cbn [length Nat.ltb Nat.leb].
  destruct firstArg; try reflexivity.
  cbn [fst]. rewrite !fold_table_flat_map.
  apply Permutation_flat_map.
  etransitivity; [apply (Part001.range_order_perm (MapOrder := O1))|].
  symmetry. apply (Part001.range_order_perm (MapOrder := O2)).
Qed.

Lemma flat_map_pointwise {A B} (f g : A -> list B) l :
  (forall a, Permutation (f a) (g a)) -> Permutation (flat_map f l) (flat_map g l).
Proof.
  intros Hfg. induction l as [|a l IH]; [reflexivity|].
  simpl. apply Permutation_app; auto.
Qed.

Lemma run_order pass :
  Permutation (Part001.run (H0 := O1) pass) (Part001.run (H0 := O2) pass).
Proof.
  rewrite !part001_run_preorder. apply flat_map_pointwise. intros file.
  destruct (Strings.HasSuffix (FileName file) "_test.go"); [|reflexivity].
  apply flat_map_pointwise. intros n. apply reported_order.
Qed.

End TwoOrders.
End EntryFacts.

Section EntryPoints.
Context `{UnicodeTables} `{Part001.MapOrder}.
Import Ast Analysis Stated.

(** C10, as the code has it.  On a pass in which every sub-test call of
    the test files is named by a literal, by a variable or by a string
    constant, the entry point of [src/testsnake.go] and the one of
    [src/unnamed/part_001] report the same diagnostics, at the same
    positions and in the same order. *)
Theorem entry_points_agree_on_plain_names pass :
  plain_pass pass = true -> Testsnake.run pass = Part001.run pass.
Proof.
  unfold plain_pass. intros Hp.
  rewrite RunFacts.run_preorder, EntryFacts.part001_run_preorder.
  induction (Files pass) as [|file files IH]; [reflexivity|].
  simpl in Hp. apply andb_true_iff in Hp as [Hfile Hfiles].
  simpl. rewrite (IH Hfiles). f_equal.
  destruct (Strings.HasSuffix (FileName file) "_test.go"); [|reflexivity].
  simpl in Hfile. generalize (Syntax file) at 2. intros root.
  induction (preorder (Syntax file)) as [|n l IHl]; [reflexivity|].
  simpl in Hfile. apply andb_true_iff in Hfile as [Hn Hl].
  simpl. rewrite (IHl Hl), (EntryFacts.reported_plain pass root n Hn). reflexivity.
Qed.

End EntryPoints.

(** ** The analyzer on the test files *)

Section OnTestFiles.
Import Ast Analysis Examples Stated.


(** On the literal names of the test data of the repository the
    analyzer reports the six names marked there as wanted, in order, each
    at its call. *)
Example run_on_test_data_names :
  Testsnake.run (H := upper_excerpt)
    (passOf [literalsFile spaced
               [quoted "add_positive_numbers"; quoted "multiply_by_zero";
                quoted "calculate_sum_with_negative"; quoted "AddPositiveNumbers";
                quoted "MultiplyNumbers"; quoted "Add_PositiveNumbers";
                quoted "_leading_underscore"; quoted "trailing_underscore_";
                quoted "double__underscore"]])
  = [{| DiagPos := spaced 33; DiagName := "AddPositiveNumbers" |};
     {| DiagPos := spaced 41; DiagName := "MultiplyNumbers" |};
     {| DiagPos := spaced 49; DiagName := "Add_PositiveNumbers" |};
     {| DiagPos := spaced 57; DiagName := "_leading_underscore" |};
     {| DiagPos := spaced 65; DiagName := "trailing_underscore_" |};
     {| DiagPos := spaced 73; DiagName := "double__underscore" |}].
Proof. vm_compute. reflexivity. Qed.

(** C2 fails on the code: the name [""] resolves, to the empty string,
    which the validator rejects, and nothing is reported. *)
Lemma empty_name_not_diagnosed :
  Testsnake.eval (passOf [literalFile spaced (quoted "")]) (BasicLit (spaced 11) (quoted ""))
  = ("", true)
  /\ Testsnake.isValidSnakeCase (H := upper_excerpt) "" = false
  /\ Testsnake.run (H := upper_excerpt) (passOf [literalFile spaced (quoted "")]) = []
  /\ ~ invalid_names_diagnosed.
Proof.
  split; [reflexivity|]. split; [reflexivity|]. split; [vm_compute; reflexivity|].
  intros Hc.
  destruct (Hc upper_excerpt (passOf [literalFile spaced (quoted "")])
              (Ident (ident_at spaced 9 "t")) (ident_at spaced 10 "Run")
              (BasicLit (spaced 11) (quoted "")) (funcLit spaced 12) [] (spaced 16) "")
    as (d & Hd & _); try reflexivity.
  vm_compute in Hd. exact Hd.
Qed.

(** The witness of C2: the name "BadName" of [literalFile]. *)
Lemma invalid_nonempty_names_diagnosed_witness :
  Name (ident_at spaced 10 "Run") = "Run"
  /\ Testsnake.isTestingType (passOf [literalFile spaced (quoted "BadName")])
       (Ident (ident_at spaced 9 "t")) = true
  /\ Testsnake.reported (H := upper_excerpt) (passOf [literalFile spaced (quoted "BadName")])
       (runCall spaced 9 1 "t" (BasicLit (spaced 11) (quoted "BadName")))
     = [{| DiagPos := 289; DiagName := "BadName" |}].
Proof.
  split; [reflexivity|]. split; [reflexivity|].
  destruct (invalid_nonempty_names_diagnosed (H := upper_excerpt)
              (passOf [literalFile spaced (quoted "BadName")])
              (Ident (ident_at spaced 9 "t")) (ident_at spaced 10 "Run")
              (BasicLit (spaced 11) (quoted "BadName")) (funcLit spaced 12) [] (spaced 16)
              eq_refl eq_refl)
    as (_ & Hdirect & _).
  apply (Hdirect "BadName"); [reflexivity | reflexivity | discriminate | reflexivity].
Defined.



(** C4 fails on the code: the selector [names.Bad], for which there is
    no table, is folded to a string constant by the type checker, and
    the call is reported. *)
Lemma qualified_constant_diagnosed :
  Testsnake.extractValuesWithPosFromRange (passOf [qualifiedFile spaced])
    (ident_at spaced 11 "names") "Bad" = []
  /\ Testsnake.run (H := upper_excerpt) (passOf [qualifiedFile spaced])
     = [{| DiagPos := 289; DiagName := "BadName" |}]
  /\ ~ selector_without_table_abandoned.
Proof.
  split; [vm_compute; reflexivity|]. split; [vm_compute; reflexivity|].
  intros Hc.
  specialize (Hc upper_excerpt (passOf [qualifiedFile spaced])
                (Ident (ident_at spaced 9 "t")) (ident_at spaced 10 "Run")
                (ident_at spaced 11 "names") (ident_at spaced 12 "Bad")
                (funcLit spaced 13) [] (spaced 17) eq_refl eq_refl).
  assert (Hnone : Testsnake.extractValuesWithPosFromRange (passOf [qualifiedFile spaced])
                    (ident_at spaced 11 "names") "Bad" = [])
    by (vm_compute; reflexivity).
  specialize (Hc Hnone). vm_compute in Hc. discriminate.
Qed.

(** The witness of C4: the same call. *)
Lemma selector_without_table_resolved_directly_witness :
  Name (ident_at spaced 10 "Run") = "Run"
  /\ Testsnake.isTestingType (passOf [qualifiedFile spaced])
       (Ident (ident_at spaced 9 "t")) = true
  /\ Testsnake.extractValuesWithPosFromRange (passOf [qualifiedFile spaced])
       (ident_at spaced 11 "names") (Name (ident_at spaced 12 "Bad")) = []
  /\ Testsnake.reported (H := upper_excerpt) (passOf [qualifiedFile spaced])
       (CallExpr (SelectorExpr (Ident (ident_at spaced 9 "t")) (ident_at spaced 10 "Run"))
          [SelectorExpr (Ident (ident_at spaced 11 "names")) (ident_at spaced 12 "Bad");
           funcLit spaced 13] (spaced 17))
     = [{| DiagPos := 289; DiagName := "BadName" |}].
Proof.
  assert (Hnone : Testsnake.extractValuesWithPosFromRange (passOf [qualifiedFile spaced])
                    (ident_at spaced 11 "names") (Name (ident_at spaced 12 "Bad")) = [])
    by (vm_compute; reflexivity).
  split; [reflexivity|]. split; [reflexivity|]. split; [exact Hnone|].
  exact (selector_without_table_resolved_directly (H := upper_excerpt)
           (passOf [qualifiedFile spaced])
           (Ident (ident_at spaced 9 "t")) (ident_at spaced 10 "Run")
           (ident_at spaced 11 "names") (ident_at spaced 12 "Bad")
           (funcLit spaced 13) [] (spaced 17) eq_refl eq_refl Hnone).
Defined.

(** The witness of C5: the call [runner.Run("ThisIsNotATest", f)] of
    [decoyFile]. *)
Lemma decoy_receiver_not_diagnosed_witness :
  TypeOf (passOf [decoyFile spaced]) (Ident (ident_at spaced 9 "runner"))
  = Some "*testlintdata.Runner"
  /\ Testsnake.reported (H := upper_excerpt) (passOf [decoyFile spaced])
       (runCall spaced 9 1 "runner" (BasicLit (spaced 11) (quoted "ThisIsNotATest")))
     = [].
Proof.
  split; [reflexivity|].
  apply (decoy_receiver_not_diagnosed (H := upper_excerpt) (passOf [decoyFile spaced])
           (Ident (ident_at spaced 9 "runner")) (ident_at spaced 10 "Run")
           [BasicLit (spaced 11) (quoted "ThisIsNotATest"); funcLit spaced 12] (spaced 16) []);
    vm_compute; discriminate.
Defined.

(** C7 fails on the code: the name "BadName" is reported at the position
    of the call (289), not at the position of the literal (353). *)
Lemma literal_name_diagnosed_at_call :
  Testsnake.run (H := upper_excerpt) (passOf [literalFile spaced (quoted "BadName")])
  = [{| DiagPos := 289; DiagName := "BadName" |}]
  /\ Pos (runCall spaced 9 1 "t" (BasicLit (spaced 11) (quoted "BadName"))) = 289
  /\ Pos (BasicLit (spaced 11) (quoted "BadName")) = 353
  /\ ~ literal_diagnosed_at_literal.
Proof.
  split; [vm_compute; reflexivity|]. split; [reflexivity|]. split; [reflexivity|].
  intros Hc.
  specialize (Hc upper_excerpt (passOf [literalFile spaced (quoted "BadName")])
                (Ident (ident_at spaced 9 "t")) (ident_at spaced 10 "Run")
                (spaced 11) (quoted "BadName") (funcLit spaced 12) [] (spaced 16)
                {| DiagPos := 289; DiagName := "BadName" |}).
  assert (E : 289 = spaced 11) by (apply Hc; vm_compute; left; reflexivity).
  vm_compute in E. discriminate.
Qed.

(** The witness of C7: the same call. *)
Lemma literal_name_resolution_witness :
  Name (ident_at spaced 10 "Run") = "Run"
  /\ Testsnake.isTestingType (passOf [literalFile spaced (quoted "BadName")])
       (Ident (ident_at spaced 9 "t")) = true
  /\ (forall d,
        In d (Testsnake.reported (H := upper_excerpt)
                (passOf [literalFile spaced (quoted "BadName")])
                (runCall spaced 9 1 "t" (BasicLit (spaced 11) (quoted "BadName")))) ->
        DiagPos d = 289)
  /\ plain_content "BadName" = true
  /\ Testsnake.eval (passOf [literalFile spaced (quoted "BadName")])
       (BasicLit (spaced 11) (quoted "BadName")) = ("BadName", true)
  /\ Testsnake.reported (H := upper_excerpt) (passOf [literalFile spaced (quoted "BadName")])
       (runCall spaced 9 1 "t" (BasicLit (spaced 11) (quoted "BadName")))
     = [{| DiagPos := 289; DiagName := "BadName" |}].
Proof.
  split; [reflexivity|]. split; [reflexivity|].
  destruct (literal_name_resolution (H := upper_excerpt)
              (passOf [literalFile spaced (quoted "BadName")])
              (Ident (ident_at spaced 9 "t")) (ident_at spaced 10 "Run")
              (spaced 11) (quoted "BadName") (funcLit spaced 12) [] (spaced 16)
              eq_refl eq_refl)
    as (Hpos & Htext).
  split; [exact Hpos|]. split; [reflexivity|].
  destruct (Htext "BadName" eq_refl eq_refl) as (Hev & _ & Hrep).
  split; [exact Hev | exact Hrep].
Defined.

(** A raw literal is trimmed like the others and keeps its back quotes:
    the name [`ok`], whose unquoted text [ok] is valid, is reported with
    them. *)
Example raw_literal_name_keeps_back_quotes :
  Testsnake.isValidSnakeCase (H := upper_excerpt) "ok" = true
  /\ Testsnake.run (H := upper_excerpt) (passOf [literalFile spaced "`ok`"])
     = [{| DiagPos := 289; DiagName := "`ok`" |}].
Proof. split; vm_compute; reflexivity. Qed.

(** C8, the code at the failing input.  In [afterLoopFile] the loop
    [for _, row = range ... {}] ends (at 962) before the call
    [t.Run(row.name, f)] (at 993): no range statement encloses the call,
    and still the rows of the table of the finished loop are extracted
    and the name of its first row is reported.  The entry point of
    [src/unnamed/part_001], which compares the spans, reports nothing
    there. *)
Lemma table_of_finished_loop_extracted :
  Testsnake.run (H := upper_excerpt)
    (passOf [afterLoopFile spaced (quoted "Bad Name") (quoted "ok")])
  = [{| DiagPos := 705; DiagName := "Bad Name" |}]
  /\ Pos (runCall spaced 31 2 "t"
            (SelectorExpr (Ident (ident_at spaced 33 "row")) (ident_at spaced 34 "name")))
     = 993
  /\ find (Coverage.enclosing_range
             (runCall spaced 31 2 "t"
                (SelectorExpr (Ident (ident_at spaced 33 "row"))
                   (ident_at spaced 34 "name"))))
       (preorder (Syntax (afterLoopFile spaced (quoted "Bad Name") (quoted "ok"))))
     = None
  /\ Part001.run (H := upper_excerpt) (H0 := Part001.listed_order)
       (passOf [afterLoopFile spaced (quoted "Bad Name") (quoted "ok")])
     = []
  /\ ~ table_range_encloses_call.
Proof.
  split; [vm_compute; reflexivity|]. split; [reflexivity|].
  split; [vm_compute; reflexivity|]. split; [vm_compute; reflexivity|].
  intros Hc.
  destruct (Hc (passOf [afterLoopFile spaced (quoted "Bad Name") (quoted "ok")])
              (afterLoopFile spaced (quoted "Bad Name") (quoted "ok"))
              (Ident (ident_at spaced 31 "t")) (ident_at spaced 32 "Run")
              (ident_at spaced 33 "row") (ident_at spaced 34 "name")
              [funcLit spaced 35] (spaced 39) (Var 3))
    as (rs & Hin & Hb & Hpos & Hend).
  - left. reflexivity.
  - cbv [afterLoopFile testFile Syntax]. cbn [preorder flat_map app].
    repeat first [left; reflexivity | right].
  - reflexivity.
  - vm_compute. discriminate.
  - assert (Hall :
              forallb
                (fun rs =>
                   negb (binds (passOf [afterLoopFile spaced (quoted "Bad Name") (quoted "ok")])
                           (Var 3) rs)
                   || (End_ rs <? 1250))
                (preorder (Syntax (afterLoopFile spaced (quoted "Bad Name") (quoted "ok"))))
              = true) by (vm_compute; reflexivity).
    rewrite forallb_forall in Hall. specialize (Hall rs Hin).
    rewrite Hb in Hall. simpl negb in Hall. simpl orb in Hall.
    apply Z.ltb_lt in Hall.
    match type of Hend with ?a <= _ => change a with 1250 in Hend end.
    lia.
Qed.

(** The witness of X24: the loop variable of [tableVarFile]. *)
Lemma table_range_binds_loop_variable_witness :
  ObjectOf (passOf [tableVarFile spaced (quoted "invalid snake case")
                      (quoted "valid_snake_case")])
    (ident_at spaced 30 "row") = Some (Var 3)
  /\ Testsnake.extractValuesWithPosFromRange
       (passOf [tableVarFile spaced (quoted "invalid snake case")
                  (quoted "valid_snake_case")])
       (ident_at spaced 30 "row") "name" <> []
  /\ exists file p k v x body,
       In file (Files (passOf [tableVarFile spaced (quoted "invalid snake case")
                                 (quoted "valid_snake_case")]))
       /\ In (RangeStmt p k (Some (Ident v)) x body) (preorder (Syntax file))
       /\ ObjectOf (passOf [tableVarFile spaced (quoted "invalid snake case")
                              (quoted "valid_snake_case")]) v = Some (Var 3)
       /\ Testsnake.extractValuesWithPosFromRange
            (passOf [tableVarFile spaced (quoted "invalid snake case")
                       (quoted "valid_snake_case")])
            (ident_at spaced 30 "row") "name"
          = Testsnake.collectionValues
              (passOf [tableVarFile spaced (quoted "invalid snake case")
                         (quoted "valid_snake_case")])
              "name" x.
Proof.
  assert (Hne : Testsnake.extractValuesWithPosFromRange
                  (passOf [tableVarFile spaced (quoted "invalid snake case")
                             (quoted "valid_snake_case")])
                  (ident_at spaced 30 "row") "name" <> [])
    by (vm_compute; discriminate).
  split; [reflexivity|]. split; [exact Hne|].
  destruct (table_range_binds_loop_variable
              (passOf [tableVarFile spaced (quoted "invalid snake case")
                         (quoted "valid_snake_case")])
              (ident_at spaced 30 "row") "name" (Var 3) eq_refl)
    as (Hfound & _).
  exact (Hfound Hne).
Defined.

(** C10 fails on the code: for a table whose two rows are both named
    "Bad" the entry point of [src/testsnake.go] reports both rows and
    the one of [src/unnamed/part_001], whose map holds one entry for the
    name, reports one, whatever the order of its map range. *)
Lemma repeated_row_name_reported_once :
  Testsnake.run (H := upper_excerpt) (passOf [tableVarFile spaced (quoted "Bad") (quoted "Bad")])
  = [{| DiagPos := 513; DiagName := "Bad" |}; {| DiagPos := 641; DiagName := "Bad" |}]
  /\ Part001.run (H := upper_excerpt) (H0 := Part001.listed_order)
       (passOf [tableVarFile spaced (quoted "Bad") (quoted "Bad")])
     = [{| DiagPos := 641; DiagName := "Bad" |}]
  /\ (forall O : Part001.MapOrder,
        Testsnake.run (H := upper_excerpt)
          (passOf [tableVarFile spaced (quoted "Bad") (quoted "Bad")])
        <> Part001.run (H := upper_excerpt) (H0 := O)
             (passOf [tableVarFile spaced (quoted "Bad") (quoted "Bad")]))
  /\ ~ entry_points_agree.
Proof.
  split; [vm_compute; reflexivity|]. split; [vm_compute; reflexivity|].
  assert (Hall : forall O : Part001.MapOrder,
             Testsnake.run (H := upper_excerpt)
               (passOf [tableVarFile spaced (quoted "Bad") (quoted "Bad")])
             <> Part001.run (H := upper_excerpt) (H0 := O)
                  (passOf [tableVarFile spaced (quoted "Bad") (quoted "Bad")])).
  { intros O E. apply (f_equal (@length Diagnostic)) in E.
    rewrite (Permutation_length
               (EntryFacts.run_order (H := upper_excerpt) O Part001.listed_order _)) in E.
    vm_compute in E. discriminate. }
  split; [exact Hall|].
  intros Hc. exact (Hall Part001.listed_order (Hc upper_excerpt Part001.listed_order _)).
Qed.

(** The witness of C10: [literalFile]. *)
Lemma entry_points_agree_on_plain_names_witness :
  plain_pass (passOf [literalFile spaced (quoted "BadName")]) = true
  /\ Testsnake.run (H := upper_excerpt) (passOf [literalFile spaced (quoted "BadName")])
     = Part001.run (H := upper_excerpt) (H0 := Part001.listed_order)
         (passOf [literalFile spaced (quoted "BadName")]).
Proof.
  split; [vm_compute; reflexivity|].
  apply (entry_points_agree_on_plain_names (H := upper_excerpt)
           (H0 := Part001.listed_order)).
  vm_compute. reflexivity.
Defined.

End OnTestFiles.

(** * Further properties *)

(** ** What [run] reports, and where *)

Module ReportFacts.
Import Ast Analysis InspectFacts Testsnake RunFacts.

Section WithTables.
Context `{UnicodeTables}.

(** Only a call [x.Run(a, b, ...)] on a testing type reports. *)
Lemma reported_cases pass n :
  reported pass n = []
  \/ exists x sel a b rest rp,
       n = CallExpr (SelectorExpr x sel) (a :: b :: rest) rp
       /\ Name sel = "Run" /\ isTestingType pass x = true.
Proof.
  destruct n as [| | |fn args rp| | | | | |]; try (left; reflexivity).
  destruct fn as [| |x sel| | | | | | |]; try (left; reflexivity).
  destruct (String.eqb (Name sel) "Run") eqn:Hsel;
    [|left; unfold reported, run_func; rewrite Hsel; reflexivity].
  destruct (isTestingType pass x) eqn:Hty;
    [|left; unfold reported, run_func; rewrite Hsel, Hty; reflexivity].
  destruct args as [|a [|b rest]];
    [left; unfold reported, run_func; rewrite Hsel, Hty; reflexivity ..|].
  right. apply String.eqb_eq in Hsel. eauto 10.
Qed.

Lemma In_caseReports d tcs :
  In d (caseReports tcs) ->
  exists tc, In tc tcs /\ value tc <> "" /\ isValidSnakeCase (value tc) = false
             /\ d = {| DiagPos := pos tc; DiagName := value tc |}.
Proof.
  unfold caseReports. intros Hin. apply in_flat_map in Hin as (tc & Htc & Hin).
  destruct (String.eqb_spec (value tc) ""); simpl in Hin; [destruct Hin|].
  destruct (isValidSnakeCase (value tc)) eqn:Hv; simpl in Hin; [destruct Hin|].
  destruct Hin as [<- | []]. eauto.
Qed.

Lemma In_nameReport d p name :
  In d (nameReport p name) ->
  name <> "" /\ isValidSnakeCase name = false /\ d = {| DiagPos := p; DiagName := name |}.
Proof.
  unfold nameReport.
  destruct (String.eqb_spec name ""); [intros []|].
  destruct (isValidSnakeCase name) eqn:Hv; simpl; [intros []|].
  intros [<- | []]. auto.
Qed.

(** A diagnostic of [run] is reported at a node of a test file. *)
Lemma In_run pass d :
  In d (run pass) ->
  exists file n,
    In file (Files pass) /\ Strings.HasSuffix (FileName file) "_test.go" = true
    /\ In n (preorder (Syntax file)) /\ In d (reported pass n).
Proof.
  rewrite run_preorder. intros Hin.
  apply in_flat_map in Hin as (file & Hfile & Hin).
  destruct (Strings.HasSuffix (FileName file) "_test.go") eqn:Hs; [|destruct Hin].
  apply in_flat_map in Hin as (n & Hn & Hin). eauto 8.
Qed.

End WithTables.
End ReportFacts.

Section RunProperties.
Context `{UnicodeTables}.
Import Ast Analysis Examples.

(** X1.  Every diagnostic of [run] names a text that is not empty and
    that [isValidSnakeCase] rejects: a valid name is never reported. *)
Theorem run_reports_only_invalid_names pass d :
  In d (Testsnake.run pass) ->
  DiagName d <> "" /\ Testsnake.isValidSnakeCase (DiagName d) = false.
Proof.
  intros Hin. apply ReportFacts.In_run in Hin as (file & n & _ & _ & _ & Hin).
  destruct (ReportFacts.reported_cases pass n)
    as [E | (x & sel & a & b & rest & rp & -> & Hsel & Hty)];
    [rewrite E in Hin; destruct Hin|].
  rewrite RunFacts.reported_candidate in Hin by assumption.
  destruct (0 <? length (Testsnake.testCases pass a))%nat.
  - apply ReportFacts.In_caseReports in Hin as (tc & _ & Hne & Hbad & ->). auto.
  - apply ReportFacts.In_nameReport in Hin as (Hne & Hbad & ->). auto.
Qed.

(** X2.  Every diagnostic of [run] belongs to a call [x.Run(a, b, ...)]
    in a file named [..._test.go], with at least two arguments and a
    receiver of testing type; it is a value of the table extracted for
    [a], at the position the table gives, or, when there is no table, the
    directly resolved value of [a] at the position of the call. *)
Theorem run_reports_only_sub_test_calls pass d :
  In d (Testsnake.run pass) ->
  exists file x sel a b rest rp,
    In file (Files pass)
    /\ Strings.HasSuffix (FileName file) "_test.go" = true
    /\ In (CallExpr (SelectorExpr x sel) (a :: b :: rest) rp) (preorder (Syntax file))
    /\ Name sel = "Run" /\ Testsnake.isTestingType pass x = true
    /\ ((exists tc, In tc (Testsnake.testCases pass a)
                    /\ d = {| DiagPos := Testsnake.pos tc;
                              DiagName := Testsnake.value tc |})
        \/ (Testsnake.testCases pass a = []
            /\ d = {| DiagPos := Pos (CallExpr (SelectorExpr x sel) (a :: b :: rest) rp);
                      DiagName := Testsnake.strVal pass a |})).
Proof.
  intros Hin. apply ReportFacts.In_run in Hin as (file & n & Hfile & Hs & Hn & Hin).
  destruct (ReportFacts.reported_cases pass n)
    as [E | (x & sel & a & b & rest & rp & -> & Hsel & Hty)];
    [rewrite E in Hin; destruct Hin|].
  exists file, x, sel, a, b, rest, rp.
  repeat (split; [assumption|]).
  rewrite RunFacts.reported_candidate in Hin by assumption.
  destruct (Testsnake.testCases pass a) as [|tc0 tcs] eqn:Etc.
  - right. split; [reflexivity|].
    apply ReportFacts.In_nameReport in Hin as (_ & _ & ->). reflexivity.
  - left. apply ReportFacts.In_caseReports in Hin as (tc & Htc & _ & _ & ->). eauto.
Qed.

(** X3.  [run] reports in document order: file by file in the order of
    [pass.Files], within a file node by node in depth-first order, what
    its function literal reports at each node; a file whose name does not
    end in [_test.go] contributes nothing. *)
Theorem run_reports_in_document_order pass :
  Testsnake.run pass =
  flat_map
    (fun file =>
       if Strings.HasSuffix (FileName file) "_test.go"
       then flat_map (Testsnake.reported pass) (preorder (Syntax file))
       else [])
    (Files pass).
Proof. apply RunFacts.run_preorder. Qed.

End RunProperties.

Section RunWitnesses.
Import Ast Analysis Examples.

(** The witness of X1: the diagnostic of [literalFile]. *)
Lemma run_reports_only_invalid_names_witness :
  In {| DiagPos := 289; DiagName := "BadName" |}
     (Testsnake.run (H := upper_excerpt) (passOf [literalFile spaced (quoted "BadName")]))
  /\ "BadName" <> ""
  /\ Testsnake.isValidSnakeCase (H := upper_excerpt) "BadName" = false.
Proof.
  assert (Hin : In {| DiagPos := 289; DiagName := "BadName" |}
                   (Testsnake.run (H := upper_excerpt)
                      (passOf [literalFile spaced (quoted "BadName")])))
    by (vm_compute; left; reflexivity).
  split; [exact Hin|].
  exact (run_reports_only_invalid_names (H := upper_excerpt) _ _ Hin).
Defined.

(** The witness of X2: the diagnostic of [tableVarFile]. *)
Lemma run_reports_only_sub_test_calls_witness :
  In {| DiagPos := 513; DiagName := "invalid snake case" |}
     (Testsnake.run (H := upper_excerpt)
        (passOf [tableVarFile spaced (quoted "invalid snake case")
                   (quoted "valid_snake_case")]))
  /\ exists file x sel a b rest rp,
       In file (Files (passOf [tableVarFile spaced (quoted "invalid snake case")
                                 (quoted "valid_snake_case")]))
       /\ Strings.HasSuffix (FileName file) "_test.go" = true
       /\ In (CallExpr (SelectorExpr x sel) (a :: b :: rest) rp) (preorder (Syntax file))
       /\ Name sel = "Run"
       /\ Testsnake.isTestingType
            (passOf [tableVarFile spaced (quoted "invalid snake case")
                       (quoted "valid_snake_case")]) x = true
       /\ ((exists tc,
              In tc (Testsnake.testCases
                       (passOf [tableVarFile spaced (quoted "invalid snake case")
                                  (quoted "valid_snake_case")]) a)
              /\ {| DiagPos := 513; DiagName := "invalid snake case" |}
                 = {| DiagPos := Testsnake.pos tc; DiagName := Testsnake.value tc |})
           \/ (Testsnake.testCases
                 (passOf [tableVarFile spaced (quoted "invalid snake case")
                            (quoted "valid_snake_case")]) a = []
               /\ {| DiagPos := 513; DiagName := "invalid snake case" |}
                  = {| DiagPos := Pos (CallExpr (SelectorExpr x sel) (a :: b :: rest) rp);
                       DiagName := Testsnake.strVal
                                     (passOf [tableVarFile spaced
                                                (quoted "invalid snake case")
                                                (quoted "valid_snake_case")]) a |})).
Proof.
  assert (Hin : In {| DiagPos := 513; DiagName := "invalid snake case" |}
                   (Testsnake.run (H := upper_excerpt)
                      (passOf [tableVarFile spaced (quoted "invalid snake case")
                                 (quoted "valid_snake_case")])))
    by (vm_compute; left; reflexivity).
  split; [exact Hin|].
  exact (run_reports_only_sub_test_calls (H := upper_excerpt) _ _ Hin).
Defined.

End RunWitnesses.

(** ** The table: fields, rows and the collection *)

Module ExtractFacts.
Import Ast Analysis InspectFacts Testsnake RunFacts.

Lemma rows_flat_map pass f elts :
  forall values,
    extractValuesWithPosFromRange_rows pass f elts values
    = values ++ flat_map (Coverage.rowValue pass f) elts.
Proof.
  induction elts as [|elt elts IH]; intros values;
    cbn [extractValuesWithPosFromRange_rows flat_map];
    [rewrite app_nil_r; reflexivity|].
  destruct elt; cbn [Coverage.rowValue app]; try apply IH.
  destruct (extractFieldValueWithPos pass Elts f) as [fieldVal fieldPos].
  destruct (negb (String.eqb fieldVal "")); rewrite IH, <- ?app_assoc; reflexivity.
Qed.

Lemma rowValue_length pass f elt : (length (Coverage.rowValue pass f elt) <= 1)%nat.
Proof.
  destruct elt; simpl; try lia.
  destruct (extractFieldValueWithPos pass Elts f) as [fieldVal fieldPos].
  destruct (negb _); simpl; lia.
Qed.

(** The loop over the left-hand sides in the search for the collection:
    what it returns is a composite literal, at the index of an identifier
    of the symbol. *)
Lemma slice_loop_found pass obj rhs lhs :
  forall i c,
    extractValuesWithPosFromRange_loop pass obj rhs i lhs = Some c ->
    exists j id ty lb elts rb,
      nth_error lhs j = Some (Ident id) /\ ObjectOf pass id = Some obj
      /\ nth_error rhs (i + j) = Some c /\ c = CompositeLit ty lb elts rb.
Proof.
  induction lhs as [|l lhs IH]; intros i c; [discriminate|].
  cbn [extractValuesWithPosFromRange_loop].
  assert (Hrest : extractValuesWithPosFromRange_loop pass obj rhs (S i) lhs = Some c ->
                  exists j id ty lb elts rb,
                    nth_error (l :: lhs) j = Some (Ident id) /\ ObjectOf pass id = Some obj
                    /\ nth_error rhs (i + j) = Some c /\ c = CompositeLit ty lb elts rb).
  { intros E. destruct (IH _ _ E) as (j & id & ty & lb & elts & rb & Hl & Ho & Hr & Hc).
    exists (S j), id, ty, lb, elts, rb. replace (i + S j)%nat with (S i + j)%nat by lia.
    auto. }
  destruct l; try exact Hrest.
  destruct (same_object (ObjectOf pass id) obj) eqn:Hs; [|exact Hrest].
  destruct (i <? length rhs)%nat; [|exact Hrest]. cbn [andb].
  destruct (nth_error rhs i) as [r|] eqn:Hr; [|exact Hrest].
  destruct r; try exact Hrest.
  intros E. injection E as <-.
  exists 0%nat, id, Typ, Lbrace, Elts, Rbrace. rewrite Nat.add_0_r.
  apply same_object_eq in Hs. auto.
Qed.

Lemma slice_loop_none pass obj rhs lhs :
  forall i,
    (forall j id c,
        nth_error lhs j = Some (Ident id) -> ObjectOf pass id = Some obj ->
        nth_error rhs (i + j) = Some c ->
        forall ty lb elts rb, c <> CompositeLit ty lb elts rb) ->
    extractValuesWithPosFromRange_loop pass obj rhs i lhs = None.
Proof.
  induction lhs as [|l lhs IH]; intros i Hnone; [reflexivity|].
  cbn [extractValuesWithPosFromRange_loop].
  assert (Hrest : extractValuesWithPosFromRange_loop pass obj rhs (S i) lhs = None).
  { apply IH. intros j id c Hl Ho Hr.
    apply (Hnone (S j) id c); [assumption | assumption |].
    replace (i + S j)%nat with (S i + j)%nat by lia. assumption. }
  destruct l; try exact Hrest.
  destruct (same_object (ObjectOf pass id) obj) eqn:Hs; [|exact Hrest].
  destruct (i <? length rhs)%nat; [|exact Hrest]. cbn [andb].
  destruct (nth_error rhs i) as [r|] eqn:Hr; [|exact Hrest].
  destruct r; try exact Hrest.
  exfalso. apply same_object_eq in Hs.
  assert (Hr0 : nth_error rhs (i + 0) = Some (CompositeLit Typ Lbrace Elts Rbrace))
    by (rewrite Nat.add_0_r; exact Hr).
  exact (Hnone 0%nat id _ eq_refl Hs Hr0 Typ Lbrace Elts Rbrace eq_refl).
Qed.

Section Slice.
Variable pass : Pass.
Variable obj : Object.

Let hit (n : node) : option (option node) :=
  match n with
  | AssignStmt lhs rhs =>
    match extractValuesWithPosFromRange_loop pass obj rhs 0 lhs with
    | Some c => Some (Some c)
    | None => None
    end
  | _ => None
  end.

Lemma func2_hit n s :
  extractValuesWithPosFromRange_func2 pass obj n s =
  match hit n with Some v => (v, false) | None => (s, true) end.
Proof.
  destruct n; try reflexivity. simpl.
  destruct (extractValuesWithPosFromRange_loop pass obj Rhs 0 Lhs); reflexivity.
Qed.

Lemma slice_hits_in n c :
  In (Some c) (hits hit n) ->
  exists lhs rhs, In (AssignStmt lhs rhs) (preorder n)
                  /\ extractValuesWithPosFromRange_loop pass obj rhs 0 lhs = Some c.
Proof.
  unfold hits. intros Hin. apply in_flat_map in Hin as (m & Hm & Hin).
  destruct m; try (destruct Hin). simpl in Hin.
  destruct (extractValuesWithPosFromRange_loop pass obj Rhs 0 Lhs) as [c'|] eqn:E;
    [|destruct Hin].
  destruct Hin as [E' | []]. injection E' as ->. eauto.
Qed.

Lemma files2_found files c :
  extractValuesWithPosFromRange_files2 pass obj files None = Some c ->
  exists file lhs rhs,
    In file files /\ In (AssignStmt lhs rhs) (preorder (Syntax file))
    /\ extractValuesWithPosFromRange_loop pass obj rhs 0 lhs = Some c.
Proof.
  induction files as [|file files IH]; [discriminate|].
  cbn [extractValuesWithPosFromRange_files2].
  destruct (Inspect_overwrite hit _ func2_hit (Syntax file) None) as [E | Hin].
  - rewrite E. intros Hrest. destruct (IH Hrest) as (file' & lhs & rhs & Hf & Hrs).
    exists file', lhs, rhs. split; [right; assumption | assumption].
  - destruct (Inspect _ (Syntax file) None) as [c'|] eqn:Ei.
    + intros E. injection E as ->.
      apply slice_hits_in in Hin as (lhs & rhs & Hn & Hl).
      exists file, lhs, rhs. split; [left; reflexivity | auto].
    + intros Hrest. destruct (IH Hrest) as (file' & lhs & rhs & Hf & Hrs).
      exists file', lhs, rhs. split; [right; assumption | assumption].
Qed.

Lemma files2_none files :
  (forall file lhs rhs, In file files -> In (AssignStmt lhs rhs) (preorder (Syntax file)) ->
                        extractValuesWithPosFromRange_loop pass obj rhs 0 lhs = None) ->
  extractValuesWithPosFromRange_files2 pass obj files None = None.
Proof.
  induction files as [|file files IH]; intros Hnone; [reflexivity|].
  cbn [extractValuesWithPosFromRange_files2].
  rewrite (Inspect_overwrite_none hit _ func2_hit).
  - apply IH. intros file' lhs rhs Hf. apply Hnone. right. assumption.
  - unfold hits.
    assert (Hall : forall m, In m (preorder (Syntax file)) -> hit m = None).
    { intros m Hm. destruct m; try reflexivity. simpl.
      rewrite (Hnone file Lhs Rhs); [reflexivity | left; reflexivity | assumption]. }
    induction (preorder (Syntax file)) as [|m l IHl]; [reflexivity|].
    simpl. rewrite (Hall m) by (left; reflexivity). simpl.
    apply IHl. intros m' Hm'. apply Hall. right. assumption.
Qed.

End Slice.

End ExtractFacts.

Section TableProperties.
Import Ast Analysis Testsnake.

(** X4.  When [extractFieldValueWithPos] returns a value that is not
    empty, it is the value of the first key-value pair of the row whose
    key is the field and whose value [eval] resolves, and the position is
    the position of that value expression, not of the key or of the row. *)
Theorem extractFieldValueWithPos_first_match pass elts f val p :
  extractFieldValueWithPos pass elts f = (val, p) -> val <> "" ->
  exists before k v after,
    elts = before ++ KeyValueExpr k v :: after
    /\ fieldName k = f /\ eval pass v = (val, true) /\ p = Pos v
    /\ forall k' v', In (KeyValueExpr k' v') before -> fieldName k' = f ->
                     snd (eval pass v') = false.
Proof.
  intros E Hne. induction elts as [|elt elts IH]; simpl in E.
  - injection E as <- _. contradiction.
  - assert (Hskip :
              extractFieldValueWithPos pass elts f = (val, p) ->
              (forall k' v', elt = KeyValueExpr k' v' -> fieldName k' = f ->
                             snd (eval pass v') = false) ->
              exists before k v after,
                elt :: elts = before ++ KeyValueExpr k v :: after
                /\ fieldName k = f /\ eval pass v = (val, true) /\ p = Pos v
                /\ forall k' v', In (KeyValueExpr k' v') before -> fieldName k' = f ->
                                 snd (eval pass v') = false).
    { intros E' Hhead.
      destruct (IH E') as (before & k & v & after & -> & Hk & Hv & Hp & Hb).
      exists (elt :: before), k, v, after. repeat split; auto.
      intros k' v' [-> | Hin] Hk'; [apply (Hhead k' v' eq_refl Hk') | eauto]. }
    destruct elt; try (apply Hskip; [assumption | discriminate]).
    destruct (String.eqb_spec (fieldName elt1) f) as [Hk | Hk].
    + destruct (eval pass elt2) as [val' ok] eqn:Hv. destruct ok.
      * injection E as <- <-.
        exists [], elt1, elt2, elts. repeat split; auto. intros k' v' [].
      * apply Hskip; [assumption|].
        intros k' v' E' _. injection E' as <- <-. rewrite Hv. reflexivity.
    + apply Hskip; [assumption|].
      intros k' v' E' Hk'. injection E' as <- <-. contradiction.
Qed.

(** X5.  A row in which no key-value pair has the field as key with a
    value that [eval] resolves (the field is missing, the row is written
    without keys, or the value is not resolvable) gives the empty value
    at [NoPos]. *)
Theorem extractFieldValueWithPos_missing_field pass elts f :
  (forall k v, In (KeyValueExpr k v) elts -> fieldName k = f ->
               snd (eval pass v) = false) ->
  extractFieldValueWithPos pass elts f = ("", NoPos).
Proof.
  induction elts as [|elt elts IH]; intros Hnone; [reflexivity|].
  simpl.
  assert (Hrest : extractFieldValueWithPos pass elts f = ("", NoPos)).
  { apply IH. intros k v Hin. apply Hnone. right. assumption. }
  destruct elt; try exact Hrest.
  destruct (String.eqb_spec (fieldName elt1) f) as [Hk | Hk]; [|exact Hrest].
  specialize (Hnone elt1 elt2 (or_introl eq_refl) Hk).
  destruct (eval pass elt2) as [val ok]. simpl in Hnone. subst ok. exact Hrest.
Qed.

(** X6.  The table holds the rows' values in the order of the elements
    of the collection literal, at most one per element: an element that
    is not a literal row, or whose field value is empty, is passed over. *)
Theorem table_rows_in_element_order pass f elts :
  extractValuesWithPosFromRange_rows pass f elts []
  = flat_map (Coverage.rowValue pass f) elts
  /\ (length (extractValuesWithPosFromRange_rows pass f elts []) <= length elts)%nat
  /\ forall ty lb rb,
       collectionValues pass f (CompositeLit ty lb elts rb)
       = flat_map (Coverage.rowValue pass f) elts.
Proof.
  assert (E : extractValuesWithPosFromRange_rows pass f elts []
              = flat_map (Coverage.rowValue pass f) elts)
    by apply ExtractFacts.rows_flat_map.
  split; [exact E|]. split.
  - rewrite E. clear E. induction elts as [|elt elts IH]; simpl; [lia|].
    rewrite length_app. pose proof (ExtractFacts.rowValue_length pass f elt). lia.
  - intros ty lb rb. unfold collectionValues. exact E.
Qed.

(** X7.  The collection literal taken for a ranged-over variable is the
    right-hand side, at the same index, of an assignment statement of the
    pass to an identifier of the variable's symbol; when no assignment
    statement gives the symbol a composite literal (the table is declared
    with [var], or built by a call), no collection is found. *)
Theorem collection_of_variable_is_assigned_literal pass sliceObj :
  (forall c,
      extractValuesWithPosFromRange_files2 pass sliceObj (Files pass) None = Some c ->
      exists file lhs rhs i id ty lb elts rb,
        In file (Files pass) /\ In (AssignStmt lhs rhs) (preorder (Syntax file))
        /\ nth_error lhs i = Some (Ident id) /\ ObjectOf pass id = Some sliceObj
        /\ nth_error rhs i = Some c /\ c = CompositeLit ty lb elts rb)
  /\ ((forall file lhs rhs i id c,
          In file (Files pass) -> In (AssignStmt lhs rhs) (preorder (Syntax file)) ->
          nth_error lhs i = Some (Ident id) -> ObjectOf pass id = Some sliceObj ->
          nth_error rhs i = Some c ->
          forall ty lb elts rb, c <> CompositeLit ty lb elts rb) ->
      extractValuesWithPosFromRange_files2 pass sliceObj (Files pass) None = None).
Proof.
  split.
  - intros c E.
    apply ExtractFacts.files2_found in E as (file & lhs & rhs & Hf & Hn & Hl).
    apply ExtractFacts.slice_loop_found in Hl
      as (j & id & ty & lb & elts & rb & Hj & Ho & Hr & Hc).
    exists file, lhs, rhs, j, id, ty, lb, elts, rb. auto 10.
  - intros Hnone. apply ExtractFacts.files2_none. intros file lhs rhs Hf Hn.
    apply ExtractFacts.slice_loop_none. intros j id c Hj Ho Hr.
    apply (Hnone file lhs rhs j id c); assumption.
Qed.

End TableProperties.

Section TableWitnesses.
Import Ast Analysis Testsnake Examples.

(** The witness of X4: the first row of the table of [tableVarFile]. *)
Lemma extractFieldValueWithPos_first_match_witness :
  extractFieldValueWithPos
    (passOf [])
    [KeyValueExpr (Ident (ident_at spaced 15 "name"))
       (BasicLit (spaced 16) (quoted "invalid snake case"))] "name"
  = ("invalid snake case", 513)
  /\ "invalid snake case" <> ""
  /\ exists before k v after,
       [KeyValueExpr (Ident (ident_at spaced 15 "name"))
          (BasicLit (spaced 16) (quoted "invalid snake case"))]
       = before ++ KeyValueExpr k v :: after
       /\ fieldName k = "name"
       /\ eval (passOf []) v = ("invalid snake case", true)
       /\ 513 = Pos v
       /\ forall k' v', In (KeyValueExpr k' v') before -> fieldName k' = "name" ->
                        snd (eval (passOf []) v') = false.
Proof.
  assert (Hne : "invalid snake case" <> "") by discriminate.
  split; [reflexivity|]. split; [exact Hne|].
  exact (extractFieldValueWithPos_first_match (passOf [])
           [KeyValueExpr (Ident (ident_at spaced 15 "name"))
              (BasicLit (spaced 16) (quoted "invalid snake case"))]
           "name" "invalid snake case" 513 eq_refl Hne).
Defined.

(** The witness of X5: a row with the field [want] only. *)
Lemma extractFieldValueWithPos_missing_field_witness :
  (forall k v,
      In (KeyValueExpr k v)
         [KeyValueExpr (Ident (ident_at spaced 15 "want"))
            (BasicLit (spaced 16) (quoted "foobar"))] ->
      fieldName k = "name" -> snd (eval (passOf []) v) = false)
  /\ extractFieldValueWithPos (passOf [])
       [KeyValueExpr (Ident (ident_at spaced 15 "want"))
          (BasicLit (spaced 16) (quoted "foobar"))] "name"
     = ("", NoPos).
Proof.
  assert (Hnone : forall k v,
             In (KeyValueExpr k v)
                [KeyValueExpr (Ident (ident_at spaced 15 "want"))
                   (BasicLit (spaced 16) (quoted "foobar"))] ->
             fieldName k = "name" -> snd (eval (passOf []) v) = false).
  { intros k v [E | []] Hk. injection E as <- <-. discriminate Hk. }
  split; [exact Hnone|].
  exact (extractFieldValueWithPos_missing_field (passOf []) _ "name" Hnone).
Defined.

End TableWitnesses.

(** ** The value resolver: trimming, pairing, and the files *)

Module TrimFacts.
Import Strings.

Lemma append_nil_l (s : string) : ("" ++ s)%string = s.
Proof. reflexivity. Qed.

Lemma append_cons x (t s : string) : (String x t ++ s)%string = String x (t ++ s)%string.
Proof. reflexivity. Qed.

Lemma append_snoc_nonempty t c : (t ++ String c "")%string <> "".
Proof. destruct t; discriminate. Qed.

Lemma trimLeftByte_no_head s c : forall t, trimLeftByte s c <> String c t.
Proof.
  induction s as [|a s IH]; intros t; simpl; [discriminate|].
  destruct (Ascii.eqb_spec a c) as [-> | Hne]; [apply IH|].
  intros E. injection E as E _. contradiction.
Qed.

Lemma trimLeftByte_suffix s c : exists pre, s = (pre ++ trimLeftByte s c)%string.
Proof.
  induction s as [|a s [pre IH]]; simpl; [exists ""; reflexivity|].
  destruct (Ascii.eqb a c).
  - exists (String a pre). change (String a s = String a (pre ++ trimLeftByte s c)%string).
    f_equal. exact IH.
  - exists "". reflexivity.
Qed.

Lemma append_assoc (a b c : string) : ((a ++ b) ++ c = a ++ (b ++ c))%string.
Proof.
  induction a as [|x a IH]; [reflexivity|].
  change (String x ((a ++ b) ++ c) = String x (a ++ (b ++ c)))%string.
  rewrite IH. reflexivity.
Qed.

Lemma trimRightByte_no_last s c : forall t, trimRightByte s c <> (t ++ String c "")%string.
Proof.
  induction s as [|a s IH]; intros t; simpl.
  - intros E. symmetry in E. exact (append_snoc_nonempty t c E).
  - destruct (trimRightByte s c) as [|b u] eqn:Er.
    + destruct (Ascii.eqb_spec a c) as [-> | Hne].
      * intros E. symmetry in E. exact (append_snoc_nonempty t c E).
      * destruct t as [|x t]; rewrite ?append_nil_l, ?append_cons; intros E.
        -- injection E as E1. contradiction.
        -- injection E as E1 E2. symmetry in E2. exact (append_snoc_nonempty t c E2).
    + destruct t as [|x t]; rewrite ?append_nil_l, ?append_cons; intros E.
      * discriminate.
      * injection E as E1 E2. exact (IH t E2).
Qed.

(** The result of [Trim] neither begins nor ends with the trimmed byte. *)
Lemma Trim_no_head s c t : Trim s c <> String c t.
Proof. apply trimLeftByte_no_head. Qed.

Lemma Trim_no_last s c t : Trim s c <> (t ++ String c "")%string.
Proof.
  unfold Trim. intros E.
  destruct (trimLeftByte_suffix (trimRightByte s c) c) as [pre Hpre].
  rewrite E, <- append_assoc in Hpre.
  exact (trimRightByte_no_last s c _ Hpre).
Qed.

End TrimFacts.

Module EvalFacts.
Import Ast Analysis Testsnake Stated ResolverFacts.

Lemma findVarDecl_cases pass id :
  findVarDecl pass id = "" \/ exists lit, findVarDecl pass id = Strings.Trim lit quote.
Proof.
  unfold findVarDecl. destruct (ObjectOf pass id) as [obj|]; [|left; reflexivity].
  destruct (findVarDecl_files_in pass obj (Files pass) "") as [E | (lit & _ & E)]; eauto.
Qed.

(** What [eval] returns is empty or a trimmed text, and is empty when
    the second component is [false]. *)
Ltac eval_leaf :=
  first [ split; [reflexivity | left; reflexivity]
        | split; [discriminate | right; eexists; reflexivity]
        | split; [reflexivity | right; eexists; reflexivity]
        | split; [discriminate | apply findVarDecl_cases] ].

Ltac eval_split pass :=
  match goal with
  | |- context [Types pass ?e] => destruct (Types pass e) as [[[?|]]|]
  | |- context [ValueKind ?v] => destruct (ValueKind v)
  | |- context [ObjectOf pass ?i] => destruct (ObjectOf pass i) as [[? ?|?|?]|]
  | |- context [negb ?b] => destruct (negb b)
  end.

Lemma eval_cases pass e :
  (snd (eval pass e) = false -> fst (eval pass e) = "")
  /\ (fst (eval pass e) = "" \/ exists lit, fst (eval pass e) = Strings.Trim lit quote).
Proof.
  unfold eval. destruct e; cbv zeta; repeat first [eval_leaf | eval_split pass].
Qed.

End EvalFacts.

Section ResolverProperties.
Import Ast Analysis Testsnake.

(** X8.  In an assignment statement [findVarDecl] pairs the sides by
    index: the literal taken is the right-hand side at the index of an
    identifier of the variable's symbol; when no index below
    [len(Rhs)] holds such an identifier against a basic literal (as in
    [a, b := f()]), the statement gives nothing. *)
Theorem findVarDecl_pairs_by_index pass obj lhs rhs :
  (forall v,
      findVarDecl_loop pass obj rhs 0 lhs = Some v ->
      exists i id p lit,
        nth_error lhs i = Some (Ident id) /\ ObjectOf pass id = Some obj
        /\ nth_error rhs i = Some (BasicLit p lit) /\ v = Strings.Trim lit quote)
  /\ ((forall i id p lit,
          nth_error lhs i = Some (Ident id) -> ObjectOf pass id = Some obj ->
          nth_error rhs i <> Some (BasicLit p lit)) ->
      findVarDecl_loop pass obj rhs 0 lhs = None).
Proof.
  assert (Hfound : forall lhs' i v,
             findVarDecl_loop pass obj rhs i lhs' = Some v ->
             exists j id p lit,
               nth_error lhs' j = Some (Ident id) /\ ObjectOf pass id = Some obj
               /\ nth_error rhs (i + j) = Some (BasicLit p lit)
               /\ v = Strings.Trim lit quote).
  { induction lhs' as [|l lhs' IH]; intros i v; [discriminate|].
    cbn [findVarDecl_loop].
    assert (Hrest : findVarDecl_loop pass obj rhs (S i) lhs' = Some v ->
                    exists j id p lit,
                      nth_error (l :: lhs') j = Some (Ident id)
                      /\ ObjectOf pass id = Some obj
                      /\ nth_error rhs (i + j) = Some (BasicLit p lit)
                      /\ v = Strings.Trim lit quote).
    { intros E. destruct (IH _ _ E) as (j & id & p & lit & Hl & Ho & Hr & Hv).
      exists (S j), id, p, lit. replace (i + S j)%nat with (S i + j)%nat by lia. auto. }
    destruct l; try exact Hrest.
    destruct (same_object (ObjectOf pass id) obj) eqn:Hs; [|exact Hrest].
    destruct (i <? length rhs)%nat; [|exact Hrest]. cbn [andb].
    destruct (nth_error rhs i) as [r|] eqn:Hr; [|exact Hrest].
    destruct r as [| p lit | | | | | | | |]; try exact Hrest.
    intros E. injection E as <-.
    exists 0%nat, id, p, lit. rewrite Nat.add_0_r.
    apply RunFacts.same_object_eq in Hs. auto. }
  assert (Hnone : forall lhs' i,
             (forall j id p lit,
                 nth_error lhs' j = Some (Ident id) -> ObjectOf pass id = Some obj ->
                 nth_error rhs (i + j) <> Some (BasicLit p lit)) ->
             findVarDecl_loop pass obj rhs i lhs' = None).
  { induction lhs' as [|l lhs' IH]; intros i Hno; [reflexivity|].
    cbn [findVarDecl_loop].
    assert (Hrest : findVarDecl_loop pass obj rhs (S i) lhs' = None).
    { apply IH. intros j id p lit Hl Ho.
      replace (S i + j)%nat with (i + S j)%nat by lia.
      apply (Hno (S j) id p lit); assumption. }
    destruct l; try exact Hrest.
    destruct (same_object (ObjectOf pass id) obj) eqn:Hs; [|exact Hrest].
    destruct (i <? length rhs)%nat; [|exact Hrest]. cbn [andb].
    destruct (nth_error rhs i) as [r|] eqn:Hr; [|exact Hrest].
    destruct r as [| p lit | | | | | | | |]; try exact Hrest.
    exfalso. apply RunFacts.same_object_eq in Hs.
    apply (Hno 0%nat id p lit eq_refl Hs).
    rewrite Nat.add_0_r. exact Hr. }
  split.
  - intros v E. exact (Hfound lhs 0%nat v E).
  - intros Hno. apply Hnone. exact Hno.
Qed.

(** X9.  [findVarDecl] goes through the files in the order of
    [pass.Files] and leaves the loop at the first file that gives a text
    that is not empty: the files after it are not consulted; files that
    give nothing pass the search on to the next ones. *)
Theorem findVarDecl_stops_at_first_file pass obj fs1 fs2 :
  (findVarDecl_files pass obj fs1 "" <> "" ->
   findVarDecl_files pass obj (fs1 ++ fs2) "" = findVarDecl_files pass obj fs1 "")
  /\ (findVarDecl_files pass obj fs1 "" = "" ->
      findVarDecl_files pass obj (fs1 ++ fs2) "" = findVarDecl_files pass obj fs2 "").
Proof.
  induction fs1 as [|file fs1 [IH1 IH2]].
  - split; [intros Hne; contradiction | reflexivity].
  - cbn [findVarDecl_files app].
    destruct (String.eqb_spec (Inspect (findVarDecl_func pass obj) (Syntax file) "") "")
      as [E | Hne]; cbn [negb].
    + rewrite E. split; assumption.
    + split; [reflexivity | intros E; contradiction].
Qed.

(** X10.  What [eval] returns is the empty text whenever it reports
    failure, and never begins or ends with a double quote: resolved names
    are trimmed at both ends. *)
Theorem eval_result_is_trimmed pass e :
  (snd (eval pass e) = false -> fst (eval pass e) = "")
  /\ (forall t, fst (eval pass e) <> String quote t)
  /\ (forall t, fst (eval pass e) <> (t ++ String quote "")%string).
Proof.
  destruct (EvalFacts.eval_cases pass e) as [Hfail Hval].
  split; [exact Hfail|].
  destruct Hval as [E | (lit & E)]; rewrite E; split; intros t.
  - discriminate.
  - intros E'. symmetry in E'. exact (TrimFacts.append_snoc_nonempty t quote E').
  - apply TrimFacts.Trim_no_head.
  - apply TrimFacts.Trim_no_last.
Qed.

End ResolverProperties.

(** ** The validator: the shape of valid names, and composition *)

Module ShapeFacts.
Import Utf8 Utf8Facts Grammar PatternFacts BytesFacts.

Lemma alnumZ_not_underscore c : alnumZ c -> c <> 0x5F.
Proof. intros Hc. apply alnumZ_range in Hc. lia. Qed.

(** The converse of [snakeZ_shape] and [snakeZ_chars]: a word of
    letters, digits and underscores with no leading, trailing or doubled
    underscore splits into runs. *)
Lemma snakeZ_of_shape n : forall w,
  (length w <= n)%nat ->
  w <> [] ->
  Forall (fun c => alnumZ c \/ c = 0x5F) w ->
  (forall t, w <> 0x5F :: t) ->
  (forall t, w <> t ++ [0x5F]) ->
  (forall a b, w <> a ++ 0x5F :: 0x5F :: b) ->
  snakeZ w.
Proof.
  induction n as [|n IH]; intros w Hlen Hne Hall Hlead Htrail Hdouble.
  - destruct w; [contradiction | simpl in Hlen; lia].
  - destruct w as [|c w']; [contradiction|].
    inversion Hall as [|? ? Hc Hall']; subst.
    destruct Hc as [Hc | ->]; [|exfalso; exact (Hlead w' eq_refl)].
    destruct w' as [|d w''].
    + exists [[c]]. split; [discriminate|]. split; [|reflexivity].
      constructor; [|constructor]. split; [discriminate|]. constructor; [assumption | constructor].
    + inversion Hall' as [|? ? Hd Hall'']; subst.
      destruct Hd as [Hd | ->].
      * destruct (IH (d :: w'')) as (runs & Hruns & Hrun & E).
        -- simpl in *. lia.
        -- discriminate.
        -- assumption.
        -- intros t E. injection E as E _. exact (alnumZ_not_underscore d Hd E).
        -- intros t E. apply (Htrail (c :: t)). simpl. rewrite E. reflexivity.
        -- intros a b E. apply (Hdouble (c :: a) b). simpl. rewrite E. reflexivity.
        -- destruct Hrun as [|r rest [Hr1 Hr2] Hrest]; [contradiction|].
           exists ((c :: r) :: rest). split; [discriminate|]. split.
           ++ constructor; [|assumption]. split; [discriminate|].
              constructor; assumption.
           ++ simpl in *. rewrite E. reflexivity.
      * assert (Hne'' : w'' <> []).
        { intros ->. exact (Htrail [c] eq_refl). }
        destruct (IH w'') as (runs & Hruns & Hrun & E).
        -- simpl in *. lia.
        -- assumption.
        -- assumption.
        -- intros t ->. exact (Hdouble [c] t eq_refl).
        -- intros t E. apply (Htrail (c :: 0x5F :: t)). simpl. rewrite E. reflexivity.
        -- intros a b E. apply (Hdouble (c :: 0x5F :: a) b). simpl. rewrite E. reflexivity.
        -- destruct Hrun as [|r rest Hr Hrest]; [contradiction|].
           exists ([c] :: r :: rest). split; [discriminate|]. split.
           ++ constructor; [|constructor; assumption]. split; [discriminate|].
              constructor; [assumption | constructor].
           ++ simpl in *. rewrite E. reflexivity.
Qed.

Lemma joinZ_cons r runs :
  runs <> [] -> joinZ (r :: runs) = r ++ 0x5F :: joinZ runs.
Proof. destruct runs as [|r' rest]; [contradiction | reflexivity]. Qed.

Lemma joinZ_app ra rb :
  ra <> [] -> rb <> [] -> joinZ (ra ++ rb) = joinZ ra ++ 0x5F :: joinZ rb.
Proof.
  intros Ha Hb. destruct ra as [|r ra]; [contradiction|]. clear Ha.
  revert r. induction ra as [|r' ra IH]; intros r.
  - simpl app. rewrite joinZ_cons by assumption. simpl. rewrite app_nil_r. reflexivity.
  - change ((r :: r' :: ra) ++ rb) with (r :: (r' :: ra) ++ rb).
    rewrite joinZ_cons by discriminate. rewrite (IH r').
    rewrite (joinZ_cons r (r' :: ra)) by discriminate.
    rewrite <- app_assoc. reflexivity.
Qed.

(** A snake_case word cut at one of its underscores gives two
    snake_case words. *)
Lemma snakeZ_split rest :
  Forall runZ rest ->
  forall r a b, runZ r -> r ++ flat_map (cons 0x5F) rest = a ++ 0x5F :: b ->
    snakeZ a /\ snakeZ b.
Proof.
  induction 1 as [|r' rest Hr' Hrest IH]; intros r a b Hr E.
  - simpl in E. rewrite app_nil_r in E. exfalso.
    apply (runZ_no_underscore r Hr). rewrite E. apply in_elt.
  - simpl in E.
    destruct (split_at_first 0x5F r (runZ_no_underscore r Hr) _ _ _ E)
      as [[-> ->] | (a' & -> & E')].
    + split.
      * exists [r]. split; [discriminate|]. split; [constructor; [assumption | constructor]|].
        simpl. rewrite app_nil_r. reflexivity.
      * exists (r' :: rest). split; [discriminate|]. split; [constructor; assumption | reflexivity].
    + destruct (IH r' a' b Hr' E') as [(ra & Hne & Hra & ->) Hb].
      split; [|assumption].
      exists (r :: ra). split; [discriminate|]. split; [constructor; assumption|].
      symmetry. apply joinZ_cons. assumption.
Qed.

Lemma snakeZ_join a b : snakeZ (a ++ 0x5F :: b) <-> snakeZ a /\ snakeZ b.
Proof.
  split.
  - intros (runs & Hne & Hruns & E).
    destruct Hruns as [|r rest Hr Hrest]; [contradiction|].
    symmetry in E. exact (snakeZ_split rest Hrest r a b Hr E).
  - intros [(ra & Hna & Hra & ->) (rb & Hnb & Hrb & ->)].
    exists (ra ++ rb). split; [destruct ra; [contradiction | discriminate]|].
    split; [apply List.Forall_app; split; assumption|].
    symmetry. apply joinZ_app; assumption.
Qed.

(** A text whose bytes split splits the same way. *)
Lemma bytes_split a : forall s b,
  bytes s = a ++ b -> exists sa sb, s = (sa ++ sb)%string /\ bytes sa = a /\ bytes sb = b.
Proof.
  induction a as [|x a IH]; intros s b E.
  - exists "", s. auto.
  - destruct s as [|c s]; [discriminate|].
    rewrite bytes_String in E. simpl in E. injection E as Hc E.
    destruct (IH s b E) as (sa & sb & -> & Ha & Hb).
    exists (String c sa), sb. split; [reflexivity|].
    split; [rewrite bytes_String; congruence | assumption].
Qed.

Lemma bytes_underscore s : bytes s = [0x5F] -> s = "_".
Proof. intros E. apply bytes_inj. exact E. Qed.

Lemma snake_byte_bytes c :
  Coverage.snake_byte c = true <-> alnumZ (byte_of c) \/ byte_of c = 0x5F.
Proof.
  unfold Coverage.snake_byte. rewrite orb_true_iff, lower_or_digit_alnumZ.
  split; intros [Hc | Hc]; auto.
  - right. apply Ascii.eqb_eq in Hc. subst. reflexivity.
  - right. apply Ascii.eqb_eq. apply byte_of_inj. exact Hc.
Qed.

End ShapeFacts.

Section ValidatorProperties.
Context `{UnicodeTables}.
Import Utf8 Grammar.

(** X11.  The comment of [isValidSnakeCase] is the answer of the
    function, in both directions: a name is valid exactly when it is not
    empty, holds lower-case letters, digits and underscores only, neither
    starts nor ends with an underscore, and has no two underscores in a
    row. *)
Theorem isValidSnakeCase_iff_shape s :
  Testsnake.isValidSnakeCase s = true
  <-> s <> ""
      /\ Forall (fun c => Coverage.snake_byte c = true) (list_ascii_of_string s)
      /\ (forall t, s <> ("_" ++ t)%string)
      /\ (forall t, s <> (t ++ "_")%string)
      /\ (forall a b, s <> (a ++ "__" ++ b)%string).
Proof.
  rewrite ValidatorFacts.isValidSnakeCase_snake_case, BytesFacts.snake_case_bytes.
  split.
  - intros Hs.
    pose proof (PatternFacts.snakeZ_chars _ Hs) as Hall.
    apply PatternFacts.snakeZ_shape in Hs as (Hlead & Htrail & Hdouble & c & Hin & _).
    split; [intros ->; exact Hin|].
    split.
    { unfold bytes in Hall. rewrite List.Forall_map in Hall.
      eapply List.Forall_impl; [|exact Hall].
      intros a Ha. apply ShapeFacts.snake_byte_bytes. exact Ha. }
    repeat split.
    + intros t ->. apply (Hlead (bytes t)). reflexivity.
    + intros t ->. apply (Htrail (bytes t)). apply BytesFacts.bytes_app.
    + intros a b ->. apply (Hdouble (bytes a) (bytes b)).
      rewrite BytesFacts.bytes_app. reflexivity.
  - intros (Hne & Hall & Hlead & Htrail & Hdouble).
    apply (ShapeFacts.snakeZ_of_shape (length (bytes s))); [lia | | | | |].
    + intros E. apply BytesFacts.bytes_nil in E. contradiction.
    + unfold bytes. rewrite List.Forall_map.
      eapply List.Forall_impl; [|exact Hall].
      intros a Ha. apply ShapeFacts.snake_byte_bytes. exact Ha.
    + intros t E.
      destruct (ShapeFacts.bytes_split [0x5F] s t E) as (sa & sb & -> & Ha & _).
      apply ShapeFacts.bytes_underscore in Ha. subst sa. exact (Hlead sb eq_refl).
    + intros t E.
      destruct (ShapeFacts.bytes_split t s [0x5F] E) as (sa & sb & -> & _ & Hb).
      apply ShapeFacts.bytes_underscore in Hb. subst sb. exact (Htrail sa eq_refl).
    + intros a b E.
      destruct (ShapeFacts.bytes_split a s _ E) as (sa & sb & -> & _ & Hb).
      destruct (ShapeFacts.bytes_split [0x5F; 0x5F] sb b Hb) as (su & sc & -> & Hu & _).
      assert (su = "__") as -> by (apply BytesFacts.bytes_inj; exact Hu).
      exact (Hdouble sa sc eq_refl).
Qed.

(** X12.  Joining two names with one underscore gives a valid name
    exactly when both names are valid. *)
Theorem isValidSnakeCase_join a b :
  Testsnake.isValidSnakeCase (a ++ "_" ++ b)
  = Testsnake.isValidSnakeCase a && Testsnake.isValidSnakeCase b.
Proof.
  apply eq_true_iff_eq. rewrite andb_true_iff.
  rewrite !ValidatorFacts.isValidSnakeCase_snake_case, !BytesFacts.snake_case_bytes.
  rewrite !BytesFacts.bytes_app.
  change (bytes "_") with [0x5F]. simpl app.
  apply ShapeFacts.snakeZ_join.
Qed.

End ValidatorProperties.

(** ** [src/unnamed/part_001]: the table of names *)

Module NamesFacts.
Import Ast Analysis InspectFacts RunFacts.

(** Inserting a list of entries into the map, first to last. *)
Lemma fold_insert_lookup (l : list (string * Z)) :
  forall (m : gmap string Z) name p,
    fold_left (fun m '(k, q) => <[k:=q]> m) l m !! name = Some p
    <-> (exists before after,
            l = before ++ (name, p) :: after /\ ~ In name (map fst after))
        \/ (~ In name (map fst l) /\ m !! name = Some p).
Proof.
  induction l as [|[k q] l IH]; intros m name p.
  - simpl. split.
    + intros E. right. split; [tauto | assumption].
    + intros [(before & after & E & _) | [_ E]]; [|assumption].
      destruct before; discriminate.
  - cbn [fold_left]. rewrite IH. split.
    + intros [(before & after & -> & Hafter) | [Hl Hm]].
      * left. exists ((k, q) :: before), after. split; [reflexivity | assumption].
      * apply lookup_insert_Some in Hm as [[-> ->] | [Hne Hm]].
        -- left. exists [], l. split; [reflexivity | assumption].
        -- right. split; [|assumption]. simpl. intros [E | Hin]; [congruence | contradiction].
    + intros [(before & after & E & Hafter) | [Hl Hm]].
      * destruct before as [|b before]; simpl in E; injection E as E1 E2; subst.
        -- right. split; [assumption|]. apply lookup_insert_Some. left. auto.
        -- left. exists before, after. auto.
      * simpl in Hl. right. split; [tauto|].
        apply lookup_insert_Some. right. split; [tauto | assumption].
Qed.

Lemma row_fold innerElts fieldName :
  forall result,
    Part001.extractNamesFromCompositeLit_row innerElts fieldName result
    = fold_left (fun m '(k, q) => <[k:=q]> m) (Coverage.rowNames fieldName innerElts) result.
Proof.
  induction innerElts as [|e rest IH]; intros result; [reflexivity|].
  cbn [Part001.extractNamesFromCompositeLit_row Coverage.rowNames flat_map].
  rewrite fold_left_app.
  destruct e as [| | | | |key val| | | |]; try apply IH.
  destruct key as [id| | | | | | | | |]; try apply IH.
  destruct val as [|p v| | | | | | | |]; try apply IH.
  destruct (String.eqb (Name id) fieldName); apply IH.
Qed.

Lemma table_fold elts fieldName :
  forall result,
    Part001.extractNamesFromCompositeLit elts fieldName result
    = fold_left (fun m '(k, q) => <[k:=q]> m) (Coverage.tableNames fieldName elts) result.
Proof.
  induction elts as [|e rest IH]; intros result; [reflexivity|].
  cbn [Part001.extractNamesFromCompositeLit Coverage.tableNames flat_map].
  rewrite fold_left_app.
  destruct e; try apply IH.
  rewrite IH, row_fold. reflexivity.
Qed.

Lemma find_app {A} (p : A -> bool) (a b : list A) :
  find p (a ++ b) = match find p a with Some x => Some x | None => find p b end.
Proof.
  induction a as [|x a IH]; [reflexivity|]. simpl. destruct (p x); [reflexivity | exact IH].
Qed.

(** The first function literal of [extractTableTestNames] keeps the
    first range statement, in the order of the traversal, that encloses
    the call. *)
Lemma func1_first call n :
  forall st,
    Inspect (Part001.extractTableTestNames_func1 call) n st
    = if snd st then st
      else match find (Coverage.enclosing_range call) (preorder n) with
           | Some rs => (Some rs, true)
           | None => st
           end.
Proof.
  induction n as [n IH] using node_children_ind. intros st.
  rewrite Inspect_children, preorder_children.
  unfold Part001.extractTableTestNames_func1 at 1.
  destruct (snd st) eqn:Hst; [reflexivity|].
  assert (Hkids :
            fold_left (fun a c => Inspect (Part001.extractTableTestNames_func1 call) c a)
              (children n) st
            = match find (Coverage.enclosing_range call) (flat_map preorder (children n)) with
              | Some rs => (Some rs, true)
              | None => st
              end).
  { revert st Hst. induction IH as [|c cs Hc _ IHcs]; intros st Hst; [reflexivity|].
    cbn [fold_left flat_map]. rewrite find_app, Hc, Hst.
    destruct (find (Coverage.enclosing_range call) (preorder c)) as [rs|].
    - clear. induction cs as [|c' cs IH]; [reflexivity|].
      cbn [fold_left]. rewrite <- IH at 2. f_equal.
      rewrite Inspect_children. reflexivity.
    - apply IHcs. assumption. }
  cbn [find].
  destruct n; try exact Hkids.
  unfold Coverage.enclosing_range at 1.
  destruct ((Pos _ <? Pos call) && (End_ call <? End_ _)); [reflexivity | exact Hkids].
Qed.

Section WithTables.
Context `{UnicodeTables} `{Part001.MapOrder}.

(** What the function literal of [run] of [part_001] reports at a
    node. *)
Lemma part001_reported_cases pass file n :
  Part001.reported pass file n = []
  \/ exists x sel a b rest rp,
      n = CallExpr (SelectorExpr x sel) (a :: b :: rest) rp
      /\ Name sel = "Run" /\ Part001.isTestingType pass x = true
      /\ ((exists X Sel,
              a = SelectorExpr X Sel
              /\ Part001.reported pass file n
                 = flat_map
                     (fun '(name, p) =>
                        if negb (Part001.isValidSnakeCase name)
                        then [{| DiagPos := p; DiagName := name |}] else [])
                     (Part001.range_order
                        (map_to_list (Part001.extractTableTestNames pass file a n))))
          \/ ((forall X Sel, a <> SelectorExpr X Sel)
              /\ Part001.getStringValue pass a <> ""
              /\ Part001.isValidSnakeCase (Part001.getStringValue pass a) = false
              /\ Part001.reported pass file n
                 = [{| DiagPos := Pos n; DiagName := Part001.getStringValue pass a |}])).
Proof.
  destruct n as [| | |fn args rp| | | | | |]; try (left; reflexivity).
  destruct fn as [| |x sel| | | | | | |]; try (left; reflexivity).
  unfold Part001.reported, Part001.run_func.
  destruct (String.eqb_spec (Name sel) "Run") as [Hsel | Hsel]; [|left; reflexivity].
  destruct (Part001.isTestingType pass x) eqn:Hty; [|left; reflexivity].
  destruct args as [|a [|b rest]]; [left; reflexivity | left; reflexivity |].
  cbn [negb length Nat.ltb Nat.leb].
  assert (Hdirect :
            (forall X Sel, a <> SelectorExpr X Sel) ->
            fst (if String.eqb (Part001.getStringValue pass a) "" then (@nil Diagnostic, true)
                 else if negb (Part001.isValidSnakeCase (Part001.getStringValue pass a))
                      then (Testsnake.Reportf []
                              (Pos (CallExpr (SelectorExpr x sel) (a :: b :: rest) rp))
                              (Part001.getStringValue pass a), true)
                      else ([], true)) = []
            \/ exists x0 sel0 a0 b0 rest0 rp0,
                CallExpr (SelectorExpr x sel) (a :: b :: rest) rp
                = CallExpr (SelectorExpr x0 sel0) (a0 :: b0 :: rest0) rp0
                /\ Name sel0 = "Run" /\ Part001.isTestingType pass x0 = true
                /\ ((exists X Sel,
                        a0 = SelectorExpr X Sel
                        /\ fst (if String.eqb (Part001.getStringValue pass a) ""
                                then (@nil Diagnostic, true)
                                else if negb (Part001.isValidSnakeCase
                                                (Part001.getStringValue pass a))
                                     then (Testsnake.Reportf []
                                             (Pos (CallExpr (SelectorExpr x sel)
                                                     (a :: b :: rest) rp))
                                             (Part001.getStringValue pass a), true)
                                     else ([], true))
                           = flat_map
                               (fun '(name, p) =>
                                  if negb (Part001.isValidSnakeCase name)
                                  then [{| DiagPos := p; DiagName := name |}] else [])
                               (Part001.range_order
                                  (map_to_list
                                     (Part001.extractTableTestNames pass file a0
                                        (CallExpr (SelectorExpr x sel) (a :: b :: rest) rp)))))
                    \/ ((forall X Sel, a0 <> SelectorExpr X Sel)
                        /\ Part001.getStringValue pass a0 <> ""
                        /\ Part001.isValidSnakeCase (Part001.getStringValue pass a0) = false
                        /\ fst (if String.eqb (Part001.getStringValue pass a) ""
                                then (@nil Diagnostic, true)
                                else if negb (Part001.isValidSnakeCase
                                                (Part001.getStringValue pass a))
                                     then (Testsnake.Reportf []
                                             (Pos (CallExpr (SelectorExpr x sel)
                                                     (a :: b :: rest) rp))
                                             (Part001.getStringValue pass a), true)
                                     else ([], true))
                           = [{| DiagPos := Pos (CallExpr (SelectorExpr x sel)
                                                   (a :: b :: rest) rp);
                                 DiagName := Part001.getStringValue pass a0 |}]))).
  { intros Hnot.
    destruct (String.eqb_spec (Part001.getStringValue pass a) "") as [E | Hne];
      [left; reflexivity|].
    destruct (Part001.isValidSnakeCase (Part001.getStringValue pass a)) eqn:Hv;
      [left; reflexivity|].
    right. exists x, sel, a, b, rest, rp. repeat split; try assumption.
    right. repeat split; assumption. }
  destruct a as [| |X Sel| | | | | | |]; try (apply Hdirect; intros; discriminate).
  right. exists x, sel, (SelectorExpr X Sel), b, rest, rp. repeat split; try assumption.
  left. exists X, Sel. split; [reflexivity|].
  cbn [fst]. apply EntryFacts.fold_table_flat_map.
Qed.

Lemma In_table_reports (l : list (string * Z)) d :
  In d (flat_map
          (fun '(name, p) =>
             if negb (Part001.isValidSnakeCase name)
             then [{| DiagPos := p; DiagName := name |}] else [])
          l) ->
  In (DiagName d, DiagPos d) l /\ Part001.isValidSnakeCase (DiagName d) = false.
Proof.
  intros Hin. apply in_flat_map in Hin as ([name p] & Hl & Hd).
  destruct (Part001.isValidSnakeCase name) eqn:Hv; simpl in Hd; [contradiction|].
  destruct Hd as [<- | []]. simpl. auto.
Qed.

Lemma In_part001_run pass d :
  In d (Part001.run pass) ->
  exists file n,
    In file (Files pass) /\ Strings.HasSuffix (FileName file) "_test.go" = true
    /\ In n (preorder (Syntax file)) /\ In d (Part001.reported pass (Syntax file) n).
Proof.
  rewrite EntryFacts.part001_run_preorder. intros Hin.
  apply in_flat_map in Hin as (file & Hfile & Hin).
  destruct (Strings.HasSuffix (FileName file) "_test.go") eqn:Hs; [|contradiction].
  apply in_flat_map in Hin as (n & Hn & Hin).
  exists file, n. auto.
Qed.

End WithTables.
End NamesFacts.

Section Part001Properties.
Context `{UnicodeTables} `{Part001.MapOrder}.
Import Ast Analysis.

(** X13.  [extractNamesFromCompositeLit] stores under each name the
    position of the last key-value pair of the collection that gives it:
    the pairs are taken row by row, the key an identifier named as the
    field and the value a basic literal; a name that no pair gives keeps
    the entry the map had. *)
Theorem extractNamesFromCompositeLit_keeps_last elts fieldName result name p :
  Part001.extractNamesFromCompositeLit elts fieldName result !! name = Some p
  <-> (exists before after,
          Coverage.tableNames fieldName elts = before ++ (name, p) :: after
          /\ ~ In name (map fst after))
      \/ (~ In name (map fst (Coverage.tableNames fieldName elts))
          /\ result !! name = Some p).
Proof. rewrite NamesFacts.table_fold. apply NamesFacts.fold_insert_lookup. Qed.

(** X14.  The range statement [extractTableTestNames] takes is the first
    one, in the order of the traversal of the file, whose span strictly
    encloses the span of the call: of nested loops around the call, the
    outermost. *)
Theorem extractTableTestNames_takes_first_enclosing_range call file :
  fst (Inspect (Part001.extractTableTestNames_func1 call) file (None, false))
  = find (Coverage.enclosing_range call) (preorder file).
Proof.
  rewrite NamesFacts.func1_first. cbn [snd].
  destruct (find (Coverage.enclosing_range call) (preorder file)); reflexivity.
Qed.

(** X15.  With no range statement around the call, [extractTableTestNames]
    gives the empty map, and [run] of [part_001] reports nothing at a
    sub-test call named by a selector. *)
Theorem part001_call_outside_range_not_diagnosed pass file x sel X Sel body rest rp :
  find (Coverage.enclosing_range
          (CallExpr (SelectorExpr x sel) (SelectorExpr X Sel :: body :: rest) rp))
    (preorder file) = None ->
  Part001.extractTableTestNames pass file (SelectorExpr X Sel)
    (CallExpr (SelectorExpr x sel) (SelectorExpr X Sel :: body :: rest) rp) = ∅
  /\ Part001.reported pass file
       (CallExpr (SelectorExpr x sel) (SelectorExpr X Sel :: body :: rest) rp) = [].
Proof.
  set (call := CallExpr (SelectorExpr x sel) (SelectorExpr X Sel :: body :: rest) rp).
  intros Hnone.
  assert (E : Part001.extractTableTestNames pass file (SelectorExpr X Sel) call = ∅).
  { unfold Part001.extractTableTestNames.
    rewrite NamesFacts.func1_first. cbn [snd]. rewrite Hnone. reflexivity. }
  split; [exact E|].
  destruct (NamesFacts.part001_reported_cases pass file call)
    as [E0 | (x0 & sel0 & a0 & b0 & rest0 & rp0 & Hcall & _ & _ & Hcase)];
    [exact E0|].
  unfold call in Hcall. injection Hcall as <- <- <- <- <- <-.
  destruct Hcase as [(X0 & Sel0 & _ & ->) | (Hnot & _)].
  - fold call. rewrite E.
    pose proof (Part001.range_order_perm (map_to_list (∅ : gmap string Z))) as Hp.
    rewrite map_to_list_empty in *. apply Permutation_sym, Permutation_nil in Hp.
    rewrite Hp. reflexivity.
  - exfalso. exact (Hnot X Sel eq_refl).
Qed.

(** X16.  Every diagnostic of [run] of [part_001] names an invalid name
    and comes from a sub-test call of a test file: it is an entry of the
    table of the call named by a selector, or it stands at the call and
    names its resolved, non-empty name argument. *)
Theorem part001_run_reports_only_invalid_names pass d :
  In d (Part001.run pass) ->
  Part001.isValidSnakeCase (DiagName d) = false
  /\ exists file x sel a b rest rp,
      let call := CallExpr (SelectorExpr x sel) (a :: b :: rest) rp in
      In file (Files pass)
      /\ Strings.HasSuffix (FileName file) "_test.go" = true
      /\ In call (preorder (Syntax file))
      /\ Name sel = "Run" /\ Part001.isTestingType pass x = true
      /\ ((exists X Sel,
              a = SelectorExpr X Sel
              /\ Part001.extractTableTestNames pass (Syntax file) a call !! DiagName d
                 = Some (DiagPos d))
          \/ ((forall X Sel, a <> SelectorExpr X Sel)
              /\ DiagName d <> ""
              /\ d = {| DiagPos := Pos call; DiagName := Part001.getStringValue pass a |})).
Proof.
  intros Hin.
  apply NamesFacts.In_part001_run in Hin as (file & n & Hfile & Hs & Hn & Hin).
  destruct (NamesFacts.part001_reported_cases pass (Syntax file) n)
    as [E | (x & sel & a & b & rest & rp & -> & Hsel & Hty & Hcase)];
    [rewrite E in Hin; contradiction|].
  destruct Hcase as [(X & Sel & -> & E) | (Hnot & Hne & Hv & E)]; rewrite E in Hin.
  - apply NamesFacts.In_table_reports in Hin as [Hl Hv].
    split; [exact Hv|].
    exists file, x, sel, (SelectorExpr X Sel), b, rest, rp.
    repeat split; try assumption.
    left. exists X, Sel. split; [reflexivity|].
    apply elem_of_map_to_list, list_elem_of_In.
    eapply Permutation_in; [apply Part001.range_order_perm | exact Hl].
  - destruct Hin as [<- | []]. split; [exact Hv|].
    exists file, x, sel, a, b, rest, rp.
    repeat split; try assumption.
    right. repeat split; assumption.
Qed.

(** X17.  At one sub-test call [run] of [part_001] reports every name at
    most once: the table is a map from names to positions. *)
Theorem part001_reports_each_name_once pass file n :
  List.NoDup (map DiagName (Part001.reported pass file n)).
Proof.
  destruct (NamesFacts.part001_reported_cases pass file n)
    as [E | (x & sel & a & b & rest & rp & -> & _ & _ & Hcase)];
    [rewrite E; constructor|].
  destruct Hcase as [(X & Sel & -> & E) | (_ & _ & _ & E)]; rewrite E.
  - set (m := Part001.extractTableTestNames pass file _ _).
    assert (Hnd : List.NoDup (map fst (Part001.range_order (map_to_list m)))).
    { eapply Permutation_NoDup.
      - apply Permutation_map, Permutation_sym, Part001.range_order_perm.
      - apply NoDup_ListNoDup. exact (NoDup_fst_map_to_list m). }
    revert Hnd. generalize (Part001.range_order (map_to_list m)). intros l.
    induction l as [|[name p] l IH]; intros Hnd; [constructor|].
    inversion Hnd as [|? ? Hname Hnd']; subst.
    cbn [flat_map]. rewrite map_app.
    destruct (negb (Part001.isValidSnakeCase name)); [|apply IH; assumption].
    cbn [map app DiagName]. constructor; [|apply IH; assumption].
    intros Hin. apply Hname.
    apply in_map_iff in Hin as (d & <- & Hd).
    apply NamesFacts.In_table_reports in Hd as [Hd _].
    apply in_map_iff. exists (DiagName d, DiagPos d). auto.
  - repeat constructor. intros [].
Qed.

End Part001Properties.

(** X18.  The order in which the Go run time ranges over the map of names
    changes the order of the diagnostics of [part_001] only: under any
    two orders [run] reports the same diagnostics, each as often. *)
Theorem part001_diagnostics_up_to_map_order
    `{UnicodeTables} (O1 O2 : Part001.MapOrder) pass :
  Permutation (Part001.run (H0 := O1) pass) (Part001.run (H0 := O2) pass).
Proof. apply EntryFacts.run_order. Qed.

Section Part001Witnesses.
Import Ast Analysis Examples.

(** The witness of X15: the call after the loop of [afterLoopFile]. *)
Lemma part001_call_outside_range_not_diagnosed_witness :
  find (Coverage.enclosing_range
          (CallExpr (SelectorExpr (Ident (ident_at spaced 31 "t")) (ident_at spaced 32 "Run"))
             (SelectorExpr (Ident (ident_at spaced 33 "row")) (ident_at spaced 34 "name")
              :: funcLit spaced 35 :: []) (spaced 39)))
    (preorder (Syntax (afterLoopFile spaced (quoted "Bad Name") (quoted "ok")))) = None
  /\ Part001.extractTableTestNames
       (passOf [afterLoopFile spaced (quoted "Bad Name") (quoted "ok")])
       (Syntax (afterLoopFile spaced (quoted "Bad Name") (quoted "ok")))
       (SelectorExpr (Ident (ident_at spaced 33 "row")) (ident_at spaced 34 "name"))
       (CallExpr (SelectorExpr (Ident (ident_at spaced 31 "t")) (ident_at spaced 32 "Run"))
          (SelectorExpr (Ident (ident_at spaced 33 "row")) (ident_at spaced 34 "name")
           :: funcLit spaced 35 :: []) (spaced 39)) = ∅
  /\ Part001.reported (H := upper_excerpt) (H0 := Part001.listed_order)
       (passOf [afterLoopFile spaced (quoted "Bad Name") (quoted "ok")])
       (Syntax (afterLoopFile spaced (quoted "Bad Name") (quoted "ok")))
       (CallExpr (SelectorExpr (Ident (ident_at spaced 31 "t")) (ident_at spaced 32 "Run"))
          (SelectorExpr (Ident (ident_at spaced 33 "row")) (ident_at spaced 34 "name")
           :: funcLit spaced 35 :: []) (spaced 39)) = [].
Proof.
  assert (Hnone :
            find (Coverage.enclosing_range
                    (CallExpr (SelectorExpr (Ident (ident_at spaced 31 "t"))
                                 (ident_at spaced 32 "Run"))
                       (SelectorExpr (Ident (ident_at spaced 33 "row"))
                          (ident_at spaced 34 "name")
                        :: funcLit spaced 35 :: []) (spaced 39)))
              (preorder (Syntax (afterLoopFile spaced (quoted "Bad Name") (quoted "ok"))))
            = None) by (vm_compute; reflexivity).
  split; [exact Hnone|].
  exact (part001_call_outside_range_not_diagnosed
           (H := upper_excerpt) (H0 := Part001.listed_order)
           (passOf [afterLoopFile spaced (quoted "Bad Name") (quoted "ok")])
           (Syntax (afterLoopFile spaced (quoted "Bad Name") (quoted "ok")))
           (Ident (ident_at spaced 31 "t")) (ident_at spaced 32 "Run")
           (Ident (ident_at spaced 33 "row")) (ident_at spaced 34 "name")
           (funcLit spaced 35) [] (spaced 39) Hnone).
Defined.

(** The witness of X16: the first row of the table of [tableVarFile]. *)
Lemma part001_run_reports_only_invalid_names_witness :
  In {| DiagPos := 513; DiagName := "invalid snake case" |}
     (Part001.run (H := upper_excerpt) (H0 := Part001.listed_order)
        (passOf [tableVarFile spaced (quoted "invalid snake case")
                   (quoted "valid_snake_case")]))
  /\ Part001.isValidSnakeCase (H := upper_excerpt) "invalid snake case" = false
  /\ exists file x sel a b rest rp,
       let call := CallExpr (SelectorExpr x sel) (a :: b :: rest) rp in
       In file (Files (passOf [tableVarFile spaced (quoted "invalid snake case")
                                 (quoted "valid_snake_case")]))
       /\ Strings.HasSuffix (FileName file) "_test.go" = true
       /\ In call (preorder (Syntax file))
       /\ Name sel = "Run"
       /\ Part001.isTestingType
            (passOf [tableVarFile spaced (quoted "invalid snake case")
                       (quoted "valid_snake_case")]) x = true
       /\ ((exists X Sel,
               a = SelectorExpr X Sel
               /\ Part001.extractTableTestNames
                    (passOf [tableVarFile spaced (quoted "invalid snake case")
                               (quoted "valid_snake_case")])
                    (Syntax file) a call !! "invalid snake case"
                  = Some 513)
           \/ ((forall X Sel, a <> SelectorExpr X Sel)
               /\ "invalid snake case" <> ""
               /\ {| DiagPos := 513; DiagName := "invalid snake case" |}
                  = {| DiagPos := Pos call;
                       DiagName := Part001.getStringValue
                                     (passOf [tableVarFile spaced
                                                (quoted "invalid snake case")
                                                (quoted "valid_snake_case")]) a |})).
Proof.
  assert (Hin : In {| DiagPos := 513; DiagName := "invalid snake case" |}
                   (Part001.run (H := upper_excerpt) (H0 := Part001.listed_order)
                      (passOf [tableVarFile spaced (quoted "invalid snake case")
                                 (quoted "valid_snake_case")])))
    by (vm_compute; left; reflexivity).
  split; [exact Hin|].
  exact (part001_run_reports_only_invalid_names
           (H := upper_excerpt) (H0 := Part001.listed_order) _ _ Hin).
Defined.

End Part001Witnesses.

(** ** [src/unnamed/part_002]: the entry point without tables *)

Module Part002Facts.
Import Ast Analysis InspectFacts RunFacts.

Section WithTables.
Context `{UnicodeTables}.

(** What the function literal of [run] of [part_002] reports at a
    node. *)
Lemma part002_reported_cases pass n :
  Part002.reported pass n = []
  \/ exists x sel a b rest rp,
      n = CallExpr (SelectorExpr x sel) (a :: b :: rest) rp
      /\ Name sel = "Run" /\ Part002.isTestingType pass x = true
      /\ Part002.getStringValue pass a <> ""
      /\ Part002.isValidSnakeCase (Part002.getStringValue pass a) = false
      /\ Part002.reported pass n
         = [{| DiagPos := Pos n; DiagName := Part002.getStringValue pass a |}].
Proof.
  destruct n as [| | |fn args rp| | | | | |]; try (left; reflexivity).
  destruct fn as [| |x sel| | | | | | |]; try (left; reflexivity).
  unfold Part002.reported, Part002.run_func.
  destruct (String.eqb_spec (Name sel) "Run") as [Hsel | Hsel]; [|left; reflexivity].
  destruct (Part002.isTestingType pass x) eqn:Hty; [|left; reflexivity].
  destruct args as [|a [|b rest]]; [left; reflexivity | left; reflexivity |].
  cbn [negb length Nat.ltb Nat.leb]. cbv zeta.
  destruct (String.eqb_spec (Part002.getStringValue pass a) "") as [E | Hne];
    [left; reflexivity|].
  destruct (Part002.isValidSnakeCase (Part002.getStringValue pass a)) eqn:Hv;
    [left; reflexivity|].
  right. exists x, sel, a, b, rest, rp. repeat split; assumption.
Qed.

(** The function literal appends what it reports and goes on. *)
Lemma part002_run_func_reported pass n d :
  Part002.run_func pass n d = (d ++ Part002.reported pass n, true).
Proof.
  assert (Hnil : (d, true) = (d ++ fst (@pair (list Diagnostic) bool [] true), true))
    by (simpl; rewrite app_nil_r; reflexivity).
  unfold Part002.reported.
  destruct n as [| | |fn args rp| | | | | |]; try exact Hnil.
  destruct fn as [| |x sel| | | | | | |]; try exact Hnil.
  unfold Part002.run_func.
  destruct (negb (String.eqb (Name sel) "Run")); [exact Hnil|].
  destruct (negb (Part002.isTestingType pass x)); [exact Hnil|].
  destruct args as [|a [|b rest]]; [exact Hnil | exact Hnil |].
  cbn [length Nat.ltb Nat.leb]. cbv zeta.
  destruct (String.eqb (Part002.getStringValue pass a) ""); [exact Hnil|].
  destruct (negb _); [reflexivity | exact Hnil].
Qed.

Lemma part002_Inspect_run_func pass n d :
  Inspect (Part002.run_func pass) n d = d ++ flat_map (Part002.reported pass) (preorder n).
Proof.
  rewrite Inspect_preorder by (intros; rewrite part002_run_func_reported; reflexivity).
  generalize (preorder n). intros l. revert d.
  induction l as [|m l IH]; intros d; simpl; [rewrite app_nil_r; reflexivity|].
  rewrite part002_run_func_reported. simpl. rewrite IH, <- app_assoc. reflexivity.
Qed.

Lemma part002_run_preorder pass :
  Part002.run pass =
  flat_map
    (fun file =>
       if Strings.HasSuffix (FileName file) "_test.go"
       then flat_map (Part002.reported pass) (preorder (Syntax file))
       else [])
    (Files pass).
Proof.
  unfold Part002.run.
  assert (Hgen : forall files d,
             fold_left
               (fun diags file =>
                  if negb (Strings.HasSuffix (FileName file) "_test.go") then diags
                  else Inspect (Part002.run_func pass) (Syntax file) diags)
               files d
             = d ++ flat_map
                      (fun file =>
                         if Strings.HasSuffix (FileName file) "_test.go"
                         then flat_map (Part002.reported pass) (preorder (Syntax file))
                         else [])
                      files).
  { induction files as [|file files IH]; intros d; simpl; [rewrite app_nil_r; reflexivity|].
    rewrite IH. destruct (Strings.HasSuffix (FileName file) "_test.go"); simpl.
    - rewrite part002_Inspect_run_func, <- app_assoc. reflexivity.
    - reflexivity. }
  apply Hgen.
Qed.

(** Away from the sub-test calls named by a selector the function
    literals of [part_001] and [part_002] report the same. *)
Lemma part002_reported_no_selector `{Part001.MapOrder} pass file n :
  Coverage.no_selector_call pass n = true ->
  Part002.reported pass n = Part001.reported pass file n.
Proof.
  destruct n as [| | |fn args rp| | | | | |]; try reflexivity.
  destruct fn as [| |x sel| | | | | | |]; try reflexivity.
  unfold Part002.reported, Part001.reported, Part002.run_func, Part001.run_func,
    Part002.isTestingType, Part002.isValidSnakeCase, Part002.getStringValue,
    Part001.isTestingType.
  destruct args as [|a [|b rest]];
    [intros _; destruct (negb _); [reflexivity|]; destruct (negb _); reflexivity ..|].
  destruct a; try reflexivity.
  cbn [Coverage.no_selector_call]. intros Hno.
  destruct (negb (String.eqb (Name sel) "Run")); [reflexivity|].
  destruct (negb (Testsnake.isTestingType pass x)); [reflexivity | discriminate].
Qed.

End WithTables.
End Part002Facts.

Section Part002Properties.
Context `{UnicodeTables} `{Part001.MapOrder}.
Import Ast Analysis.

(** X19.  [run] of [part_002] reports at sub-test calls only: every
    diagnostic stands at the position of a call [x.Run(a, b, ...)] of a
    test file whose receiver has a testing type, and names the non-empty
    invalid text [getStringValue] gives for [a]; no diagnostic stands at a
    row of a table. *)
Theorem part002_run_reports_at_calls pass d :
  In d (Part002.run pass) ->
  exists file x sel a b rest rp,
    In file (Files pass)
    /\ Strings.HasSuffix (FileName file) "_test.go" = true
    /\ In (CallExpr (SelectorExpr x sel) (a :: b :: rest) rp) (preorder (Syntax file))
    /\ Name sel = "Run" /\ Part002.isTestingType pass x = true
    /\ d = {| DiagPos := Pos (CallExpr (SelectorExpr x sel) (a :: b :: rest) rp);
              DiagName := Part002.getStringValue pass a |}
    /\ DiagName d <> ""
    /\ Part002.isValidSnakeCase (DiagName d) = false.
Proof.
  rewrite Part002Facts.part002_run_preorder. intros Hin.
  apply in_flat_map in Hin as (file & Hfile & Hin).
  destruct (Strings.HasSuffix (FileName file) "_test.go") eqn:Hs; [|contradiction].
  apply in_flat_map in Hin as (n & Hn & Hin).
  destruct (Part002Facts.part002_reported_cases pass n)
    as [E | (x & sel & a & b & rest & rp & -> & Hsel & Hty & Hne & Hv & E)];
    rewrite E in Hin; [contradiction|].
  destruct Hin as [<- | []].
  exists file, x, sel, a, b, rest, rp. repeat split; assumption.
Qed.

(** X20.  On a pass whose test files have no sub-test call named by a
    selector, the entry point of [part_002] and the one of [part_001]
    report the same diagnostics in the same order. *)
Theorem part002_agrees_with_part001_without_selectors pass :
  Coverage.no_selector_pass pass = true -> Part002.run pass = Part001.run pass.
Proof.
  unfold Coverage.no_selector_pass. intros Hp.
  rewrite Part002Facts.part002_run_preorder, EntryFacts.part001_run_preorder.
  induction (Files pass) as [|file files IH]; [reflexivity|].
  simpl in Hp. apply andb_true_iff in Hp as [Hfile Hfiles].
  simpl. rewrite (IH Hfiles). f_equal.
  destruct (Strings.HasSuffix (FileName file) "_test.go"); [|reflexivity].
  simpl in Hfile. generalize (Syntax file) at 2. intros root.
  induction (preorder (Syntax file)) as [|n l IHl]; [reflexivity|].
  simpl in Hfile. apply andb_true_iff in Hfile as [Hn Hl].
  simpl. rewrite (IHl Hl), (Part002Facts.part002_reported_no_selector pass root n Hn).
  reflexivity.
Qed.

End Part002Properties.

Section Part002Witnesses.
Import Ast Analysis Examples.

(** The witness of X19: the diagnostic of [literalFile]. *)
Lemma part002_run_reports_at_calls_witness :
  In {| DiagPos := 289; DiagName := "BadName" |}
     (Part002.run (H := upper_excerpt) (passOf [literalFile spaced (quoted "BadName")]))
  /\ exists file x sel a b rest rp,
       In file (Files (passOf [literalFile spaced (quoted "BadName")]))
       /\ Strings.HasSuffix (FileName file) "_test.go" = true
       /\ In (CallExpr (SelectorExpr x sel) (a :: b :: rest) rp) (preorder (Syntax file))
       /\ Name sel = "Run"
       /\ Part002.isTestingType (passOf [literalFile spaced (quoted "BadName")]) x = true
       /\ {| DiagPos := 289; DiagName := "BadName" |}
          = {| DiagPos := Pos (CallExpr (SelectorExpr x sel) (a :: b :: rest) rp);
               DiagName := Part002.getStringValue
                             (passOf [literalFile spaced (quoted "BadName")]) a |}
       /\ "BadName" <> ""
       /\ Part002.isValidSnakeCase (H := upper_excerpt) "BadName" = false.
Proof.
  assert (Hin : In {| DiagPos := 289; DiagName := "BadName" |}
                   (Part002.run (H := upper_excerpt)
                      (passOf [literalFile spaced (quoted "BadName")])))
    by (vm_compute; left; reflexivity).
  split; [exact Hin|].
  exact (part002_run_reports_at_calls (H := upper_excerpt) _ _ Hin).
Defined.

(** The witness of X20: [literalFile] has no call named by a selector. *)
Lemma part002_agrees_with_part001_without_selectors_witness :
  Coverage.no_selector_pass (passOf [literalFile spaced (quoted "BadName")]) = true
  /\ Part002.run (H := upper_excerpt) (passOf [literalFile spaced (quoted "BadName")])
     = Part001.run (H := upper_excerpt) (H0 := Part001.listed_order)
         (passOf [literalFile spaced (quoted "BadName")]).
Proof.
  assert (Hno : Coverage.no_selector_pass (passOf [literalFile spaced (quoted "BadName")])
                = true) by (vm_compute; reflexivity).
  split; [exact Hno|].
  exact (part002_agrees_with_part001_without_selectors
           (H := upper_excerpt) (H0 := Part001.listed_order) _ Hno).
Defined.

End Part002Witnesses.

(** ** Further properties of the resolvers *)

Module SourceFacts.
Import Ast Analysis InspectFacts RunFacts.

Lemma names_lookup elts fieldName (m : gmap string Z) name p :
  Part001.extractNamesFromCompositeLit elts fieldName m !! name = Some p ->
  In (name, p) (Coverage.tableNames fieldName elts) \/ m !! name = Some p.
Proof.
  rewrite NamesFacts.table_fold, NamesFacts.fold_insert_lookup.
  intros [(before & after & -> & _) | [_ Hm]]; [left; apply in_elt | right; assumption].
Qed.

Lemma assign_lookup pass obj fieldName rhs lhs name p :
  forall i (m : gmap string Z),
    Part001.extractTableTestNames_assign pass obj fieldName rhs i lhs m !! name = Some p ->
    (exists j id ty lb elts rb,
        nth_error lhs j = Some (Ident id) /\ ObjectOf pass id = Some obj
        /\ nth_error rhs (i + j) = Some (CompositeLit ty lb elts rb)
        /\ In (name, p) (Coverage.tableNames fieldName elts))
    \/ m !! name = Some p.
Proof.
  induction lhs as [|l lhs IH]; intros i m; [right; assumption|].
  cbn [Part001.extractTableTestNames_assign]. intros E.
  destruct (IH _ _ E) as [(j & id & ty & lb & elts & rb & Hl & Ho & Hr & Hin) | Hm].
  - left. exists (S j), id, ty, lb, elts, rb.
    replace (i + S j)%nat with (S i + j)%nat by lia. auto.
  - destruct l as [id| | | | | | | | |]; try (right; exact Hm).
    destruct (same_object (ObjectOf pass id) obj) eqn:Hs; [|right; exact Hm].
    destruct (i <? length rhs)%nat; [|right; exact Hm]. cbn [andb] in Hm.
    destruct (nth_error rhs i) as [r|] eqn:Hr; [|right; exact Hm].
    destruct r as [| | | |ty lb elts rb| | | | |]; try (right; exact Hm).
    apply names_lookup in Hm as [Hin | Hm]; [|right; exact Hm].
    left. exists 0%nat, id, ty, lb, elts, rb. rewrite Nat.add_0_r.
    apply same_object_eq in Hs. auto.
Qed.

Lemma spec_lookup pass obj fieldName values names name p :
  forall i (m : gmap string Z),
    Part001.extractTableTestNames_spec pass obj fieldName values i names m !! name = Some p ->
    (exists j id ty lb elts rb,
        nth_error names j = Some id /\ ObjectOf pass id = Some obj
        /\ nth_error values (i + j) = Some (CompositeLit ty lb elts rb)
        /\ In (name, p) (Coverage.tableNames fieldName elts))
    \/ m !! name = Some p.
Proof.
  induction names as [|id names IH]; intros i m; [right; assumption|].
  cbn [Part001.extractTableTestNames_spec]. intros E.
  destruct (IH _ _ E) as [(j & id' & ty & lb & elts & rb & Hl & Ho & Hr & Hin) | Hm].
  - left. exists (S j), id', ty, lb, elts, rb.
    replace (i + S j)%nat with (S i + j)%nat by lia. auto.
  - destruct (same_object (ObjectOf pass id) obj) eqn:Hs; [|right; exact Hm].
    destruct (i <? length values)%nat; [|right; exact Hm]. cbn [andb] in Hm.
    destruct (nth_error values i) as [r|] eqn:Hr; [|right; exact Hm].
    destruct r as [| | | |ty lb elts rb| | | | |]; try (right; exact Hm).
    apply names_lookup in Hm as [Hin | Hm]; [|right; exact Hm].
    left. exists 0%nat, id, ty, lb, elts, rb. rewrite Nat.add_0_r.
    apply same_object_eq in Hs. auto.
Qed.

Lemma func2_lookup pass obj fieldName n (m : gmap string Z) name p :
  fst (Part001.extractTableTestNames_func2 pass obj fieldName n m) !! name = Some p ->
  Coverage.table_source pass obj fieldName n name p \/ m !! name = Some p.
Proof.
  destruct n; try (right; assumption); cbn [Part001.extractTableTestNames_func2 fst]; intros E.
  - apply assign_lookup in E as [(j & id & ty & lb & elts & rb & Hl & Ho & Hr & Hin) | Hm];
      [|right; exact Hm].
    left. left. exists Lhs, Rhs, j, id, ty, lb, elts, rb. auto.
  - apply spec_lookup in E as [(j & id & ty & lb & elts & rb & Hl & Ho & Hr & Hin) | Hm];
      [|right; exact Hm].
    left. right. exists Names, Typ, Values, j, id, ty, lb, elts, rb. auto.
Qed.

Lemma func2_descends pass obj fieldName n (m : gmap string Z) :
  snd (Part001.extractTableTestNames_func2 pass obj fieldName n m) = true.
Proof. destruct n; reflexivity. Qed.

Lemma Inspect_func2_lookup pass obj fieldName file name p :
  forall m : gmap string Z,
    Inspect (Part001.extractTableTestNames_func2 pass obj fieldName) file m !! name = Some p ->
    (exists n, In n (preorder file) /\ Coverage.table_source pass obj fieldName n name p)
    \/ m !! name = Some p.
Proof.
  intros m. rewrite Inspect_preorder by (intros; apply func2_descends).
  revert m. induction (preorder file) as [|n l IH]; intros m E; [right; exact E|].
  cbn [fold_left] in E. destruct (IH _ E) as [(n' & Hin & Hsrc) | Hm].
  - left. exists n'. split; [right; assumption | assumption].
  - apply func2_lookup in Hm as [Hsrc | Hm]; [|right; exact Hm].
    left. exists n. split; [left; reflexivity | assumption].
Qed.

Lemma getStringValue_cases pass e :
  Part001.getStringValue pass e = ""
  \/ exists lit, Part001.getStringValue pass e = Strings.Trim lit quote.
Proof.
  unfold Part001.getStringValue, Part001.findVarDecl.
  destruct e; cbv zeta;
    repeat first
      [ left; reflexivity
      | right; eexists; reflexivity
      | apply EvalFacts.findVarDecl_cases
      | match goal with
        | |- context [negb ?b] => destruct (negb b)
        | |- context [ObjectOf pass ?i] => destruct (ObjectOf pass i) as [[? ?|?|?]|]
        | |- context [Types pass ?e] => destruct (Types pass e) as [[[?|]]|]
        end ].
Qed.

Import Strings TrimFacts.

Lemma trimRightByte_snoc s c : trimRightByte (s ++ String c "") c = trimRightByte s c.
Proof.
  induction s as [|a s IH].
  - rewrite append_nil_l. simpl. rewrite Ascii.eqb_refl. reflexivity.
  - rewrite append_cons. cbn [trimRightByte]. rewrite IH. reflexivity.
Qed.

Lemma trimRightByte_id s c :
  (forall t, s <> (t ++ String c "")%string) -> trimRightByte s c = s.
Proof.
  induction s as [|a s IH]; intros Hs; [reflexivity|].
  cbn [trimRightByte]. rewrite IH.
  - destruct s; [|reflexivity].
    destruct (Ascii.eqb_spec a c) as [-> | Hne]; [|reflexivity].
    exfalso. exact (Hs "" eq_refl).
  - intros t ->. exact (Hs (String a t) eq_refl).
Qed.

Lemma Trim_quoted s :
  (forall t, s <> String quote t) ->
  (forall t, s <> (t ++ String quote "")%string) ->
  Trim (quoted s) quote = s.
Proof.
  intros Hhead Hlast. unfold Trim, quoted.
  change (String quote (s ++ String quote ""))
    with (String quote s ++ String quote "")%string.
  rewrite trimRightByte_snoc. cbn [trimRightByte].
  rewrite (trimRightByte_id s quote Hlast).
  destruct s as [|a s]; [reflexivity|].
  cbn [trimLeftByte]. rewrite Ascii.eqb_refl. cbn [trimLeftByte].
  destruct (Ascii.eqb_spec a quote) as [-> | Hne]; [|reflexivity].
  exfalso. exact (Hhead s eq_refl).
Qed.

End SourceFacts.

Section FurtherProperties.
Import Ast Analysis.

(** X21.  What [getStringValue] returns never begins or ends with a
    double quote. *)
Theorem getStringValue_result_is_trimmed pass e :
  (forall t, Part001.getStringValue pass e <> String quote t)
  /\ (forall t, Part001.getStringValue pass e <> (t ++ String quote "")%string).
Proof.
  destruct (SourceFacts.getStringValue_cases pass e) as [E | (lit & E)];
    rewrite E; split; intros t.
  - discriminate.
  - intros E'. symmetry in E'. exact (TrimFacts.append_snoc_nonempty t quote E').
  - apply TrimFacts.Trim_no_head.
  - apply TrimFacts.Trim_no_last.
Qed.

(** X22.  Every entry of the table [extractTableTestNames] returns comes
    from the file of the call: the call lies inside a range statement
    over an identifier, and a statement of the file assigns to the
    variable of that identifier, or declares it with, a composite literal
    with a row that has the name at that position. *)
Theorem extractTableTestNames_entries_from_file pass file selExpr call name p :
  Part001.extractTableTestNames pass file selExpr call !! name = Some p ->
  exists X Sel f k v sliceIdent body obj n,
    selExpr = SelectorExpr X Sel
    /\ find (Coverage.enclosing_range call) (preorder file)
       = Some (RangeStmt f k v (Ident sliceIdent) body)
    /\ ObjectOf pass sliceIdent = Some obj
    /\ In n (preorder file)
    /\ Coverage.table_source pass obj (Name Sel) n name p.
Proof.
  unfold Part001.extractTableTestNames.
  destruct selExpr as [| |X Sel| | | | | | |];
    try (rewrite lookup_empty; discriminate).
  rewrite NamesFacts.func1_first. cbn [snd].
  destruct (find (Coverage.enclosing_range call) (preorder file)) as [rs|];
    cbn [fst]; [|rewrite lookup_empty; discriminate].
  destruct rs as [| | | | | | |f k v x body| |]; try (rewrite lookup_empty; discriminate).
  destruct x as [sliceIdent| | | | | | | | |]; try (rewrite lookup_empty; discriminate).
  destruct (ObjectOf pass sliceIdent) as [obj|] eqn:Ho;
    [|rewrite lookup_empty; discriminate].
  intros E. apply SourceFacts.Inspect_func2_lookup in E as [(n & Hin & Hsrc) | E];
    [|rewrite lookup_empty in E; discriminate].
  exists X, Sel, f, k, v, sliceIdent, body, obj, n. auto.
Qed.

(** X23.  A string literal round-trips through [eval]: for the source
    text of a literal whose content neither begins nor ends with a double
    quote, [eval] and [strVal] give the content. *)
Theorem eval_literal_gives_content pass p s :
  (forall t, s <> String quote t) ->
  (forall t, s <> (t ++ String quote "")%string) ->
  Testsnake.eval pass (BasicLit p (quoted s)) = (s, true)
  /\ Testsnake.strVal pass (BasicLit p (quoted s)) = s.
Proof.
  intros Hhead Hlast.
  unfold Testsnake.strVal. cbn [Testsnake.eval].
  rewrite (SourceFacts.Trim_quoted s Hhead Hlast). split; reflexivity.
Qed.

End FurtherProperties.

Section FurtherWitnesses.
Import Ast Analysis Examples.

(** The witness of X22: the first row of the table of [tableVarFile]. *)
Lemma extractTableTestNames_entries_from_file_witness :
  Part001.extractTableTestNames
    (passOf [tableVarFile spaced (quoted "invalid snake case") (quoted "valid_snake_case")])
    (Syntax (tableVarFile spaced (quoted "invalid snake case") (quoted "valid_snake_case")))
    (SelectorExpr (Ident (ident_at spaced 30 "row")) (ident_at spaced 31 "name"))
    (runCall spaced 28 2 "t"
       (SelectorExpr (Ident (ident_at spaced 30 "row")) (ident_at spaced 31 "name")))
    !! "invalid snake case" = Some 513
  /\ exists X Sel f k v sliceIdent body obj n,
       SelectorExpr (Ident (ident_at spaced 30 "row")) (ident_at spaced 31 "name")
       = SelectorExpr X Sel
       /\ find (Coverage.enclosing_range
                  (runCall spaced 28 2 "t"
                     (SelectorExpr (Ident (ident_at spaced 30 "row"))
                        (ident_at spaced 31 "name"))))
            (preorder (Syntax (tableVarFile spaced (quoted "invalid snake case")
                                 (quoted "valid_snake_case"))))
          = Some (RangeStmt f k v (Ident sliceIdent) body)
       /\ ObjectOf (passOf [tableVarFile spaced (quoted "invalid snake case")
                              (quoted "valid_snake_case")]) sliceIdent = Some obj
       /\ In n (preorder (Syntax (tableVarFile spaced (quoted "invalid snake case")
                                    (quoted "valid_snake_case"))))
       /\ Coverage.table_source
            (passOf [tableVarFile spaced (quoted "invalid snake case")
                       (quoted "valid_snake_case")])
            obj (Name Sel) n "invalid snake case" 513.
Proof.
  assert (Hm : Part001.extractTableTestNames
                 (passOf [tableVarFile spaced (quoted "invalid snake case")
                            (quoted "valid_snake_case")])
                 (Syntax (tableVarFile spaced (quoted "invalid snake case")
                            (quoted "valid_snake_case")))
                 (SelectorExpr (Ident (ident_at spaced 30 "row")) (ident_at spaced 31 "name"))
                 (runCall spaced 28 2 "t"
                    (SelectorExpr (Ident (ident_at spaced 30 "row"))
                       (ident_at spaced 31 "name")))
                 !! "invalid snake case" = Some 513)
    by (vm_compute; reflexivity).
  split; [exact Hm|].
  exact (extractTableTestNames_entries_from_file _ _ _ _ _ _ Hm).
Defined.

(** The witness of X23: the literal ["my_test_case"]. *)
Lemma eval_literal_gives_content_witness :
  (forall t, "my_test_case" <> String quote t)
  /\ (forall t, "my_test_case" <> (t ++ String quote "")%string)
  /\ Testsnake.eval (passOf []) (BasicLit 289 (quoted "my_test_case"))
     = ("my_test_case", true)
  /\ Testsnake.strVal (passOf []) (BasicLit 289 (quoted "my_test_case")) = "my_test_case".
Proof.
  assert (Hhead : forall t, "my_test_case" <> String quote t) by (intros t; discriminate).
  assert (Hlast : forall t, "my_test_case" <> (t ++ String quote "")%string).
  { intros t E.
    assert (Hb : Utf8.bytes "my_test_case" = Utf8.bytes t ++ [34])
      by (rewrite E, BytesFacts.bytes_app; reflexivity).
    assert (Hl : List.last (Utf8.bytes "my_test_case") 0 = 34)
      by (rewrite Hb; apply last_last).
    vm_compute in Hl. discriminate. }
  split; [exact Hhead|]. split; [exact Hlast|].
  exact (eval_literal_gives_content (passOf []) 289 "my_test_case" Hhead Hlast).
Defined.

End FurtherWitnesses.
